(** * Al Cabone sales bot: sale ingestion and classification pipeline

    Shallow embedding of [bot.js].  The repository holds three drafts of the
    same file:

    - [Draft1]: [src/bot.js], lines 1-866 (canvas cards, paginated holder count);
    - [Draft2]: [src/bot.js], lines 867-1548 (server-side [occurred_after]);
    - [Draft3]: [src/unnamed/part_000] (client-side timestamp filter,
      merging checkpoint writes, [getTransactionStatus]).

    Functions that are textually identical in the three drafts
    ([apiCallWithRetry], [isValidSaleEvent], [formatPrice], [getHolderTier],
    [getTierRank], [updateLastFloorAlert], [getLastCheckTime]) are embedded once;
    the ones that differ live in a module per draft.  [TestMode] holds
    [runTests] and the dispatch on [--test] that ends each draft. *)

From Stdlib Require Import ZArith Lia Bool List Ascii String.
From stdpp Require Import base option list strings gmap.
From Equations Require Import Equations.
Import ListNotations.

#[local] Open Scope string_scope.
#[local] Open Scope list_scope.
#[local] Open Scope Z_scope.

(** ** Tier and narrative classifier *)

(** [getHolderTier(nftCount)]: the chain of [>=] tests, top tier first. *)
Definition getHolderTier (nftCount : Z) : string :=
  if nftCount >=? 100 then "commission"
  else if nftCount >=? 25 then "godfather"
  else if nftCount >=? 20 then "underboss"
  else if nftCount >=? 15 then "consigliere"
  else if nftCount >=? 10 then "caporegime"
  else if nftCount >=? 5 then "soldier"
  else "associate".

(** The object literal [ranks] of [getTierRank]. *)
Definition ranks : gmap string Z :=
  list_to_map
    [("associate", 1); ("soldier", 2); ("caporegime", 3); ("consigliere", 4);
     ("underboss", 5); ("godfather", 6); ("commission", 7)].

(** [ranks[tier] || 1]: a key the literal does not have reads [undefined],
    and [undefined] and [0] are falsy, so both fall back to 1.  The keys
    looked up are tier labels, see [tierLabels]. *)
Definition getTierRank (tier : string) : Z :=
  match ranks !! tier with
  | Some r => if r =? 0 then 1 else r
  | None => 1
  end.

(** [getTransactionStory] of drafts 1 and 2; the two count arguments are
    accepted and never read. *)
Definition getTransactionStory
    (buyerTier sellerTier : string) (buyerCount sellerCount : Z) : string :=
  let buyerRank := getTierRank buyerTier in
  let sellerRank := getTierRank sellerTier in
  if sellerRank >? buyerRank + 1 then "empire_falls"
  else if buyerRank >? sellerRank + 1 then "consolidation"
  else "business_as_usual".

(** The narrative statuses, as the keys of [dynamicTemplates] and
    [statusTemplates]. *)
Inductive NarrativeStatus := empire_falls | consolidation | business_as_usual.

(** [statusTemplates] of draft 3: the short text posted for each status. *)
Definition statusTemplates (k : NarrativeStatus) : string :=
  match k with
  | empire_falls => "POWER VACUUM"
  | consolidation => "EMPIRE EXPANSION"
  | business_as_usual => "FAMILY BUSINESS"
  end.

(** [getTransactionStatus] of draft 3. *)
Definition getTransactionStatus (buyerTier sellerTier : string) : string :=
  let buyerRank := getTierRank buyerTier in
  let sellerRank := getTierRank sellerTier in
  if sellerRank >? buyerRank + 1 then statusTemplates empire_falls
  else if buyerRank >? sellerRank + 1 then statusTemplates consolidation
  else statusTemplates business_as_usual.

(** The tier labels that reach the classifier: the seven results of
    [getHolderTier], and the literal ['unknown'] that [runBot] uses for a sale
    without a seller. *)
Definition tierNames : list string :=
  ["associate"; "soldier"; "caporegime"; "consigliere"; "underboss";
   "godfather"; "commission"].

Definition tierLabels : list string := tierNames ++ ["unknown"].

(** The threshold table as the specification words it: tier and minimum
    holding count, lowest tier first. *)
Definition tierThresholds : list (string * Z) :=
  [("associate", 0); ("soldier", 5); ("caporegime", 10); ("consigliere", 15);
   ("underboss", 20); ("godfather", 25); ("commission", 100)].

(** "Highest tier whose threshold the holding count meets", following the
    specification: scan the table upwards and keep the last tier whose
    threshold is met; the lowest tier when none is. *)
Definition classifyTier_spec (count : Z) : string :=
  fold_left
    (fun best entry => if snd entry <=? count then fst entry else best)
    tierThresholds "associate".

(** ** Asynchronous computations

    An [async] function runs against a world, and its promise either resolves
    with a value or rejects with an error (kept as its [message]).  [await]
    sequences; a rejection skips the rest, as an exception does. *)

Inductive Completion (A : Type) : Type :=
| Resolved (value : A)
| Rejected (error : string).
Arguments Resolved {A} value.
Arguments Rejected {A} error.

Definition Async (W A : Type) : Type := W -> Completion A * W.

Definition ret {W A : Type} (a : A) : Async W A := fun w => (Resolved a, w).

Definition throw {W A : Type} (error : string) : Async W A :=
  fun w => (Rejected error, w).

Definition bind {W A B : Type} (m : Async W A) (k : A -> Async W B)
  : Async W B :=
  fun w =>
    match m w with
    | (Resolved a, w') => k a w'
    | (Rejected error, w') => (Rejected error, w')
    end.

(** [try { m } catch (error) { h }], and [m.catch(h)] on a promise. *)
Definition try_catch {W A : Type} (m : Async W A) (h : string -> Async W A)
  : Async W A :=
  fun w =>
    match m w with
    | (Resolved a, w') => (Resolved a, w')
    | (Rejected error, w') => h error w'
    end.

Declare Scope async_scope.
Delimit Scope async_scope with async.
Notation "'await' x ':=' m 'in' k" := (bind m (fun x => k))
  (at level 10, x name, m at level 100, k at level 200) : async_scope.
Notation "'await_' m 'in' k" := (bind m (fun _ => k))
  (at level 10, m at level 100, k at level 200) : async_scope.

(** What a JavaScript function hands back: the operand of a [return], or
    [undefined] when control falls off its end. *)
Inductive JsReturn (A : Type) : Type :=
| Value (a : A)
| Undefined.
Arguments Value {A} a.
Arguments Undefined {A}.

(** ** Retry executor *)

(** Rate limiting delays (in milliseconds). *)
Definition OPENSEA_DELAY : Z := 250.
Definition TWITTER_DELAY : Z := 5000.
Definition RETRY_DELAY : Z := 2000.

(** What the executor does, in order: [Invoked k err] is [await apiCall()] on
    attempt [k] with the error it raised, if any; [Waited ms] is the
    [setTimeout(resolve, ms)] of the backoff. *)
Inductive RetryEvent : Type :=
| Invoked (attempt : Z) (failure : option string)
| Waited (waitTime : Z).

Section RetryExecutor.
Context {W A : Type}.
(** [pause ms] is what awaiting a timer of [ms] does to the world. *)
Variable pause : Z -> W -> W.
Variable apiCall : Async W A.
Variables maxRetries delay : Z.

(** The [for] loop of [apiCallWithRetry], from a given value of [attempt].
    [maxRetries] is an integer here; the loop variable climbs to it, which is
    the measure. The [console.error] line only logs and is left out. *)
Equations? retryLoop (attempt : Z) (w : W)
  : Completion (JsReturn A) * W * list RetryEvent
  by wf (Z.to_nat (maxRetries + 1 - attempt)) lt :=
retryLoop attempt w with Z_le_gt_dec attempt maxRetries := {
  | right _ => (Resolved Undefined, w, [])
  | left _ with apiCall w := {
    | (Resolved result, w') =>
        (Resolved (Value result), w', [Invoked attempt None])
    | (Rejected error, w') with Z.eq_dec attempt maxRetries := {
      | left _ => (Rejected error, w', [Invoked attempt (Some error)])
      | right _ =>
          let waitTime := delay * 2 ^ (attempt - 1) in
          let '(r, w'', tr) := retryLoop (attempt + 1) (pause waitTime w') in
          (r, w'', Invoked attempt (Some error) :: Waited waitTime :: tr) } } }.
Proof. lia. Qed.

(** [apiCallWithRetry(apiCall, maxRetries, delay)], with the trace of what it
    did. *)
Definition apiCallWithRetry_traced (w : W)
  : Completion (JsReturn A) * W * list RetryEvent :=
  retryLoop 1 w.

Definition apiCallWithRetry : Async W (JsReturn A) :=
  fun w => fst (apiCallWithRetry_traced w).

End RetryExecutor.

(** ** JavaScript values of the marketplace payloads *)

(** A JSON scalar as the code reads it.  [JsNumber n] is the Number that
    the integer [n] in the response text reads as: [n] itself below 2^53,
    the nearest Number from there on.  A string holds the UTF-8 bytes of
    its text. *)
Inductive JsPrim : Type :=
| JsUndefined
| JsNull
| JsNumber (n : Z)
| JsString (s : string).

(** Truthiness: [undefined], [null], [0] and the empty string are falsy. *)
Definition truthy (v : JsPrim) : bool :=
  match v with
  | JsUndefined | JsNull => false
  | JsNumber n => negb (n =? 0)
  | JsString s => negb (String.eqb s "")
  end.

(** Truthiness of an optional object field: an object is truthy, a missing
    field is not. *)
Definition isSome {A : Type} (o : option A) : bool :=
  match o with
  | Some _ => true
  | None => false
  end.

(** Truthiness of an optional string field (missing reads [undefined]). *)
Definition truthyStr (o : option string) : bool :=
  match o with
  | Some s => negb (String.eqb s "")
  | None => false
  end.

(** [a > b] on optional numbers; a missing operand turns into [NaN], and
    every comparison with [NaN] is false. *)
Definition jsGt (a b : option Z) : bool :=
  match a, b with
  | Some x, Some y => x >? y
  | _, _ => false
  end.

(** [v === 'text'] against a string literal. *)
Definition strictEqString (v : JsPrim) (text : string) : bool :=
  match v with
  | JsString s => String.eqb s text
  | _ => false
  end.

(** White space of one byte: TAB, LF, VT, FF, CR and the space. *)
Definition isWhiteSpace (c : ascii) : bool :=
  let n := nat_of_ascii c in
  ((9 <=? n) && (n <=? 13) || (n =? 32))%nat.

(** White space of two bytes: the no-break space U+00A0. *)
Definition isWhiteSpace2 (c1 c2 : ascii) : bool :=
  ((nat_of_ascii c1 =? 194) && (nat_of_ascii c2 =? 160))%nat.

(** White space of three bytes: U+1680, U+2000 to U+200A, the line and
    paragraph separators U+2028 and U+2029, U+202F, U+205F, U+3000 and the
    byte order mark U+FEFF. *)
Definition isWhiteSpace3 (c1 c2 c3 : ascii) : bool :=
  let n1 := nat_of_ascii c1 in
  let n2 := nat_of_ascii c2 in
  let n3 := nat_of_ascii c3 in
  ((n1 =? 225) && (n2 =? 154) && (n3 =? 128)
   || (n1 =? 226) && (n2 =? 128)
      && ((128 <=? n3) && (n3 <=? 138) || (n3 =? 168) || (n3 =? 169)
          || (n3 =? 175))
   || (n1 =? 226) && (n2 =? 129) && (n3 =? 159)
   || (n1 =? 227) && (n2 =? 128) && (n3 =? 128)
   || (n1 =? 239) && (n2 =? 187) && (n3 =? 191))%nat.

(** The text without its leading white space and line terminators. *)
Fixpoint skipWhiteSpace (s : string) : string :=
  match s with
  | String c1 r1 =>
      if isWhiteSpace c1 then skipWhiteSpace r1
      else
        match r1 with
        | String c2 r2 =>
            if isWhiteSpace2 c1 c2 then skipWhiteSpace r2
            else
              match r2 with
              | String c3 r3 =>
                  if isWhiteSpace3 c1 c2 c3 then skipWhiteSpace r3 else s
              | EmptyString => s
              end
        | EmptyString => s
        end
  | EmptyString => s
  end.

(** Value of a character as a digit in the given radix. *)
Definition digitValue (radix : Z) (c : ascii) : option Z :=
  let n := Z.of_nat (nat_of_ascii c) in
  let v :=
    if (48 <=? n) && (n <=? 57) then n - 48
    else if (97 <=? n) && (n <=? 122) then n - 87
    else if (65 <=? n) && (n <=? 90) then n - 55
    else radix in
  if v <? radix then Some v else None.

(** The longest prefix of digits, as a number; [None] when there is none. *)
Fixpoint digitsPrefix (radix : Z) (s : string) (acc : option Z) : option Z :=
  match s with
  | String c rest =>
      match digitValue radix c with
      | Some d => digitsPrefix radix rest (Some (radix * default 0 acc + d))
      | None => acc
      end
  | EmptyString => acc
  end.

(** [parseInt(string)] without a radix argument: leading white space, a
    sign, [0x] or [0X] for hexadecimal, then digits; [None] is [NaN]. *)
Definition parseIntString (s : string) : option Z :=
  let s1 := skipWhiteSpace s in
  let '(sign, s2) :=
    match s1 with
    | String "-"%char r => (-1, r)
    | String "+"%char r => (1, r)
    | _ => (1, s1)
    end in
  let '(radix, s3) :=
    match s2 with
    | String "0"%char (String "x"%char r) => (16, r)
    | String "0"%char (String "X"%char r) => (16, r)
    | _ => (10, s2)
    end in
  match digitsPrefix radix s3 None with
  | Some n => Some (sign * n)
  | None => None
  end.

(** The Number nearest to an integer that is not negative, a tie going to
    the even significand; [None] is [Infinity].  An integer below 2^53 is a
    Number. *)
Definition nearestNumber (v : Z) : option Z :=
  if v <? 2 ^ 53 then Some v
  else
    let ulp := 2 ^ (Z.log2 v - 52) in
    let q := v / ulp in
    let r := v mod ulp in
    let q' :=
      if 2 * r <? ulp then q
      else if ulp <? 2 * r then q + 1
      else if Z.even q then q else q + 1 in
    if q' * ulp <? 2 ^ 1024 then Some (q' * ulp) else None.

(** The number of decimal digits of [x >= 1], less one. *)
Fixpoint decimalExponent (fuel : nat) (x : Z) : Z :=
  match fuel with
  | O => 0
  | S fuel' => if x <? 10 then 0 else 1 + decimalExponent fuel' (x / 10)
  end.

(** The first digit of what a Number [x >= 1e21] prints as.  It prints in
    exponent form with the fewest digits that read back as [x]: one digit
    when [d * 10^e] reads back as [x], and then that digit is the first
    digit of [x] or the one above it; the first digit of [x] otherwise. *)
Definition firstDigitPrinted (x : Z) : Z :=
  let e := decimalExponent (Z.to_nat (Z.log2 x)) x in
  let d := x / 10 ^ e in
  match nearestNumber ((d + 1) * 10 ^ e) with
  | Some y => if y =? x then (if d + 1 =? 10 then 1 else d + 1) else d
  | None => d
  end.

(** [parseInt(v)]: the argument is first turned into a string.  A Number
    below 1e21 prints as an integer that reads back as the Number; from
    1e21 on it prints in exponent form, of which [parseInt] reads the first
    digit; [Infinity], [undefined] and [null] print as words and parse to
    [NaN]. *)
Definition parseInt (v : JsPrim) : option Z :=
  match v with
  | JsNumber n =>
      match nearestNumber (Z.abs n) with
      | Some x =>
          Some (Z.sgn n * (if x <? 10 ^ 21 then x else firstDigitPrinted x))
      | None => None
      end
  | JsString s => parseIntString s
  | JsUndefined | JsNull => None
  end.

(** ** Sale events and their validation *)

Record Nft : Type := {
  nft_name : option string;
  nft_identifier : option string;
  nft_image_url : option string;
  nft_opensea_url : option string
}.

Record Payment : Type := {
  pay_quantity : JsPrim;
  pay_decimals : option Z;
  pay_symbol : option string
}.

(** One entry of [asset_events], with the fields the bot reads.  A field the
    response may lack is an [option]; [None] reads as [undefined].
    [asset_name] is [sale.asset] with its [name], [winner_account] is
    [sale.winner_account] with its [address]: the outer [None] is a missing
    object. *)
Record SaleEvent : Type := {
  event_type : JsPrim;
  nft : option Nft;
  asset_name : option (option string);
  winner_account : option (option string);
  buyer : option string;
  seller : option string;
  quantity : JsPrim;
  payment : option Payment;
  event_timestamp : option Z
}.

(** [isValidSaleEvent(sale)]. *)
Definition isValidSaleEvent (sale : SaleEvent) : bool :=
  (* Must be a sale event *)
  if negb (strictEqString (event_type sale) "sale") then false
  (* Must have NFT and buyer information *)
  else if negb (isSome (nft sale)) || negb (truthyStr (buyer sale))
  then false
  (* Skip bundle sales (multiple assets) *)
  else if truthy (quantity sale) && jsGt (parseInt (quantity sale)) (Some 1)
  then false
  (* Must have payment information for meaningful posts *)
  else
    match payment sale with
    | None => false
    | Some p => if negb (truthy (pay_quantity p)) then false else true
    end.

(** What [formatPrice] prints: the fixed text, or the amount scaled by the
    decimals together with the symbol (the decimal rendering by [toFixed] is
    not needed here). *)
Inductive Price : Type :=
| PriceUndisclosed
| PriceOf (quantity : JsPrim) (decimals : Z) (symbol : string).

(** [formatPrice(sale)], on the [payment] field of its argument. *)
Definition formatPrice (payment : option Payment) : Price :=
  match payment with
  | None => PriceUndisclosed
  | Some p =>
      if negb (truthy (pay_quantity p))
         || strictEqString (pay_quantity p) "0"
      then PriceUndisclosed
      else
        let decimals :=
          match pay_decimals p with
          | Some d => if d =? 0 then 18 else d
          | None => 18
          end in
        let symbol := if truthyStr (pay_symbol p)
                      then default "ETH" (pay_symbol p) else "ETH" in
        PriceOf (pay_quantity p) decimals symbol
  end.

(** ** External collaborators and the world of a run *)

(** One entry of [listings], flattened to what [getFloorPriceNFT] reads:
    [protocol_data.parameters.offer[0].token] and [.identifierOrCriteria],
    [maker.address || protocol_data.parameters.offerer], [price.current]. *)
Record Listing : Type := {
  offer_token : option string;
  offer_identifier : option string;
  maker_address : option string;
  price_value : JsPrim;
  price_decimals : option Z;
  price_currency : option string
}.

(** The object [getFloorPriceNFT] builds. *)
Record FloorNFT : Type := {
  floor_name : string;
  floor_token_id : option string;
  floor_seller_address : option string;
  floor_payment : Payment
}.

Record EventsQuery : Type := {
  q_limit : Z;
  q_occurred_after : option (option Z)
}.

Record EventsResponse : Type := {
  asset_events : option (list SaleEvent);
  events : option (list SaleEvent)
}.

Record AssetsPage : Type := {
  assets : option (list Nft);
  next : option string
}.

Record NftResponse : Type := {
  resp_image_url : option string;
  resp_metadata_image : option string
}.

(** What is handed to [uploadMedia]: a rendered card or [null] when canvas
    is missing, or the bytes of the NFT image. *)
Inductive Media : Type :=
| SaleCard (sale : SaleEvent) (rendered : bool)
| FloorCard (rendered : bool)
| NftImage (url : string).

(** The fields interpolated into the text of a sale post (the case number
    is random and left out). *)
Record SalePost : Type := {
  post_buyer : string;
  post_buyerTier : string;
  post_buyerCount : JsReturn Z;
  post_nftName : string;
  post_sellerTier : string;
  post_sellerCount : JsReturn Z;
  post_status : string;
  post_price : Price
}.

(** The text of a tweet, as what its template interpolates.  The floor
    alert of draft 3 names the seller's tier and count and picks one of two
    wordings by [getFloorNarrative]. *)
Inductive TweetText : Type :=
| FloorAlert (floor : FloorNFT) (price : Price)
    (seller : option (string * JsReturn Z * bool))
| SaleAlert (sale : SaleEvent) (post : SalePost).

Record Tweet : Type := {
  text : TweetText;
  media_ids : list string
}.

(** Calls on the Twitter client, with whether they succeeded. *)
Inductive TwitterCall : Type :=
| UploadMedia (m : Media) (ok : bool)
| PostTweet (t : Tweet) (ok : bool).

(** The answers of the outside world.  Each oracle takes the number of
    external calls made so far in the run, so that the same request can be
    answered differently over time. *)
Record Env : Type := {
  canvas : bool;
  renderCanvas : nat -> Completion unit;
  httpEvents : nat -> EventsQuery -> Completion EventsResponse;
  httpAssets : nat -> option string -> option string -> Completion AssetsPage;
  httpAccountNfts : nat -> string -> Completion (option (list Nft));
  httpNft : nat -> string -> option string -> Completion NftResponse;
  httpListings : nat -> Completion (option (list Listing));
  httpImage : nat -> string -> Completion unit;
  twitterUpload : nat -> Media -> Completion string;
  twitterTweet : nat -> Tweet -> Completion unit;
  fsWritable : bool
}.

(** The state a run works on: [last-check.json] as the parsed object
    ([None] when the file is missing or does not parse; a time stamp is kept
    as milliseconds rather than as its ISO text), the clock in milliseconds,
    the number of external calls made, and the calls on the Twitter client. *)
Record World : Type := {
  file : option (gmap string Z);
  now : Z;
  calls : nat;
  twitter : list TwitterCall
}.

Definition isResolved {A : Type} (c : Completion A) : bool :=
  match c with
  | Resolved _ => true
  | Rejected _ => false
  end.

(** Awaiting a timer. *)
Definition advance (ms : Z) (w : World) : World :=
  {| file := file w; now := now w + ms; calls := calls w;
     twitter := twitter w |}.

Definition sleep (ms : Z) : Async World unit :=
  fun w => (Resolved tt, advance ms w).

(** [new Date()] or [Date.now()]. *)
Definition clock : Async World Z := fun w => (Resolved (now w), w).

(** A call answered by the outside world. *)
Definition external {A : Type} (oracle : nat -> Completion A)
  : Async World A :=
  fun w =>
    (oracle (calls w),
     {| file := file w; now := now w; calls := S (calls w);
        twitter := twitter w |}).

(** [twitterClient.v1.uploadMedia(buffer, ...)]. *)
Definition uploadMedia (env : Env) (m : Media) : Async World string :=
  fun w =>
    let r := twitterUpload env (calls w) m in
    (r, {| file := file w; now := now w; calls := S (calls w);
           twitter := twitter w ++ [UploadMedia m (isResolved r)] |}).

(** [twitterClient.v2.tweet(...)]. *)
Definition tweet (env : Env) (t : Tweet) : Async World unit :=
  fun w =>
    let r := twitterTweet env (calls w) t in
    (r, {| file := file w; now := now w; calls := S (calls w);
           twitter := twitter w ++ [PostTweet t (isResolved r)] |}).

(** [for (const x of l) body]; a [continue] is a body that returns. *)
Fixpoint forOf {W A : Type} (l : list A) (body : A -> Async W unit)
  : Async W unit :=
  match l with
  | [] => ret tt
  | x :: rest => bind (body x) (fun _ => forOf rest body)
  end.

(** [apiCallWithRetry(apiCall)] with its default arguments
    [maxRetries = 3, delay = RETRY_DELAY]. *)
Definition withRetry {A : Type} (apiCall : Async World A)
  : Async World (JsReturn A) :=
  apiCallWithRetry advance apiCall 3 RETRY_DELAY.

(** ** Checkpoint store *)

(** [JSON.parse(await fs.readFile('last-check.json', 'utf8'))]. *)
Definition readCheckpoint : Async World (gmap string Z) :=
  fun w =>
    match file w with
    | Some data => (Resolved data, w)
    | None => (Rejected "ENOENT", w)
    end.

(** [fs.writeFile('last-check.json', JSON.stringify(data, null, 2))]; a
    write that is refused leaves the document as it was. *)
Definition writeCheckpoint (env : Env) (data : gmap string Z)
  : Async World unit :=
  fun w =>
    if fsWritable env
    then (Resolved tt,
          {| file := Some data; now := now w; calls := calls w;
             twitter := twitter w |})
    else (Rejected "EACCES", w).

(** [getLastCheckTime()]: the stored [lastCheck] ([None] when the object
    lacks the field), or one hour ago when the file cannot be read. *)
Definition getLastCheckTime : Async World (option Z) :=
  try_catch
    (await data := readCheckpoint in ret (data !! "lastCheck"))%async
    (fun _ => await t := clock in ret (Some (t - 60 * 60 * 1000)))%async.

(** [shouldPostFloorAlert()], with the number of hours of the draft;
    [hoursSinceLastAlert >= hours] is compared in milliseconds. *)
Definition shouldPostFloorAlertAfter (hours : Z) : Async World bool :=
  try_catch
    (await data := readCheckpoint in
     match data !! "lastFloorAlert" with
     | None => ret true
     | Some lastAlert =>
         await t := clock in
         ret (t - lastAlert >=? hours * (1000 * 60 * 60))
     end)%async
    (fun _ => ret true).

(** [updateLastFloorAlert()], the same in the three drafts. *)
Definition updateLastFloorAlert (env : Env) : Async World unit :=
  try_catch
    (await data := try_catch readCheckpoint (fun _ => ret ∅) in
     await t := clock in
     writeCheckpoint env (<["lastFloorAlert" := t]> data))%async
    (fun _ => ret tt).

(** ** Marketplace readers shared by the drafts *)

Definition AL_CABONE_CONTRACT : string :=
  "0x8Ca5209d8CCe34b0de91C2C4b4B14F20AFf8BA23".

(** [a || b] on optional strings. *)
Definition orElse (a b : option string) : option string :=
  if truthyStr a then a else b.

(** [response.data.asset_events || response.data.events || []]; an array,
    even an empty one, is truthy. *)
Definition eventsOf (response : EventsResponse) : list SaleEvent :=
  match asset_events response with
  | Some l => l
  | None => default [] (events response)
  end.

(** The object literal returned by [getFloorPriceNFT]; [seller_address] is
    set in draft 3 only. *)
Definition floorOfListing (withSeller : bool) (listing : Listing) : FloorNFT :=
  {| floor_name := default "Al Cabone NFT"
                     (orElse (offer_token listing) (Some "Al Cabone NFT"));
     floor_token_id := offer_identifier listing;
     floor_seller_address :=
       if withSeller then maker_address listing else None;
     floor_payment :=
       {| pay_quantity := price_value listing;
          pay_decimals :=
            Some match price_decimals listing with
                 | Some d => if d =? 0 then 18 else d
                 | None => 18
                 end;
          pay_symbol := orElse (price_currency listing) (Some "ETH") |} |}.

(** [getFloorPriceNFT()]; [None] is [null]. *)
Definition getFloorPriceNFT (withSeller : bool) (env : Env)
  : Async World (JsReturn (option FloorNFT)) :=
  try_catch
    (withRetry
       (await_ sleep OPENSEA_DELAY in
        await listings := external (httpListings env) in
        match default [] listings with
        | listing :: _ => ret (Some (floorOfListing withSeller listing))
        | [] => ret None
        end)%async)
    (fun _ => ret (Value None)).

(** [getHolderNFTCount] of drafts 2 and 3 (OpenSea API v2, one page). *)
Definition getHolderNFTCount_v2 (env : Env) (walletAddress : string)
  : Async World (JsReturn Z) :=
  try_catch
    (withRetry
       (await_ sleep OPENSEA_DELAY in
        await nfts := external (fun k => httpAccountNfts env k walletAddress) in
        ret (Z.max (Z.of_nat (length (default [] nfts))) 1))%async)
    (fun _ => ret (Value 1)).

(** [getSellerNFTCount] of drafts 2 and 3. *)
Definition getSellerNFTCount_v2 (env : Env) (walletAddress : string)
  : Async World (JsReturn Z) :=
  try_catch
    (withRetry
       (await_ sleep OPENSEA_DELAY in
        await nfts := external (fun k => httpAccountNfts env k walletAddress) in
        ret (Z.of_nat (length (default [] nfts))))%async)
    (fun _ => ret (Value 0)).

(** [getHolderTier(count)] on what an [await] of a count function gave;
    every [undefined >= n] is false, which leaves the last [return]. *)
Definition tierOfCount (count : JsReturn Z) : string :=
  match count with
  | Value n => getHolderTier n
  | Undefined => "associate"
  end.

(** [new Date(lastCheck).toISOString()], evaluated for the log line of
    [fetchRecentSales]: an invalid date raises a [RangeError]. *)
Definition toISOString (t : option Z) : Async World unit :=
  match t with
  | Some _ => ret tt
  | None => throw "Invalid time value"
  end.

(** [if (nftImageUrl) { try { fetch the image, upload it, push its id }
    catch { log } }]: the media ids gained. *)
Definition uploadNftImage (env : Env) (nftImageUrl : option string)
  : Async World (list string) :=
  match nftImageUrl with
  | Some url =>
      if truthyStr nftImageUrl
      then try_catch
             (await_ external (fun k => httpImage env k url) in
              await nftUpload := uploadMedia env (NftImage url) in
              ret [nftUpload])%async
             (fun _ => ret [])
      else ret []
  | None => ret []
  end.

(** The posting step of drafts 2 and 3: tweet with the media; when that
    fails and there were media, once more without. *)
Definition tweetWithFallback (env : Env) (body : TweetText)
    (mediaIds : list string) : Async World unit :=
  try_catch
    (tweet env {| text := body; media_ids := mediaIds |})
    (fun _ =>
       if (0 <? length mediaIds)%nat
       then try_catch (tweet env {| text := body; media_ids := [] |})
              (fun _ => ret tt)
       else ret tt).

(** The seller of a sale as [runBot] resolves it: count 0 and tier
    ['unknown'] without a seller address. *)
Definition sellerInfo (count : string -> Async World (JsReturn Z))
    (sellerAddress : option string) : Async World (JsReturn Z * string) :=
  match sellerAddress with
  | Some address =>
      if truthyStr sellerAddress
      then (await sellerCount := count address in
            ret (sellerCount, tierOfCount sellerCount))%async
      else ret (Value 0, "unknown")
  | None => ret (Value 0, "unknown")
  end.

(** The body of the [for] loop of [runBot] in drafts 2 and 3, which differ
    in the status line only. *)
Definition processSale_v2 (status : string -> string -> string) (env : Env)
    (sale : SaleEvent) : Async World unit :=
  match buyer sale with
  | Some buyerAddress =>
      if negb (truthyStr (buyer sale)) then ret tt
      else
        (await buyerCount := getHolderNFTCount_v2 env buyerAddress in
         let buyerTier := tierOfCount buyerCount in
         await sellerPair :=
           sellerInfo (getSellerNFTCount_v2 env) (seller sale) in
         let nftName :=
           default "Unknown NFT"
             (orElse (nft sale ≫= nft_name)
                (orElse (asset_name sale ≫= id) (Some "Unknown NFT"))) in
         let message :=
           {| post_buyer := buyerAddress; post_buyerTier := buyerTier;
              post_buyerCount := buyerCount;
              post_nftName := nftName;
              post_sellerTier := snd sellerPair;
              post_sellerCount := fst sellerPair;
              post_status := status buyerTier (snd sellerPair);
              post_price := formatPrice (payment sale) |} in
         match nft sale with
         | None =>
             throw "TypeError: Cannot read properties of undefined"
         | Some saleNft =>
             try_catch
               (await mediaIds := uploadNftImage env (nft_image_url saleNft) in
                await_ tweetWithFallback env (SaleAlert sale message)
                         mediaIds in
                sleep TWITTER_DELAY)
               (fun _ => ret tt)
         end)%async
  | None => ret tt
  end.

(** [updateLastCheckTime()] of drafts 1 and 2: a fresh object with the one
    field. *)
Definition updateLastCheckTime_overwrite (env : Env) : Async World unit :=
  (await t := clock in
   writeCheckpoint env (<["lastCheck" := t]> ∅))%async.

(** ** Draft 1: [src/bot.js], lines 1-866 *)

Module Draft1.

(** [fetchRecentSales()]: the last ten events, validated; the checkpoint is
    not consulted.  [fetchRecentSales_call] is the arrow function handed to
    [apiCallWithRetry]. *)
Definition fetchRecentSales_call (env : Env) : Async World (list SaleEvent) :=
  (await_ sleep OPENSEA_DELAY in
   await response :=
     external (fun k => httpEvents env k
                 {| q_limit := 10; q_occurred_after := None |}) in
   let events := eventsOf response in
   ret (List.filter isValidSaleEvent events))%async.

Definition fetchRecentSales (env : Env)
  : Async World (JsReturn (list SaleEvent)) :=
  try_catch (withRetry (fetchRecentSales_call env)) (fun _ => ret (Value [])).

(** The [while (hasMore && totalCount < 1000)] loop of [getHolderNFTCount],
    from given values of its three variables; it yields [totalCount] at the
    exit.  A continuing round adds a full page of 200, which is the
    measure. *)
Equations? paginate (env : Env) (walletAddress : option string)
    (totalCount : Z) (cursor : option string) (hasMore : bool) (w : World)
  : Completion Z * World
  by wf (if hasMore && (totalCount <? 1000)
         then S (Z.to_nat (1000 - totalCount)) else O) lt :=
paginate env walletAddress totalCount cursor hasMore w
  with sumbool_of_bool (hasMore && (totalCount <? 1000)) := {
  | right Hexit => (Resolved totalCount, w)
  | left Hloop
      with external
             (fun k => httpAssets env k walletAddress
                         (if truthyStr cursor then cursor else None)) w := {
    | (Rejected error, w') => (Rejected error, w')
    | (Resolved response, w') =>
        paginate env walletAddress
          (totalCount + Z.of_nat (length (default [] (assets response))))
          (next response)
          (truthyStr (next response)
           && (Z.of_nat (length (default [] (assets response))) =? 200))
          (if truthyStr (next response)
              && (Z.of_nat (length (default [] (assets response))) =? 200)
           then advance OPENSEA_DELAY w' else w') } }.
Proof.
  rewrite Hloop.
  apply andb_prop in Hloop as [_ Hlt]. apply Z.ltb_lt in Hlt.
  destruct (truthyStr (next response)); cbn [andb]; cbv iota; [ | lia ].
  destruct (Z.eqb_spec (Z.of_nat (length (default [] (assets response)))) 200)
    as [E | E]; cbn [andb]; cbv iota; [ | lia ].
  destruct (Z.ltb_spec (totalCount
                        + Z.of_nat (length (default [] (assets response))))
              1000); lia.
Qed.

(** [getHolderNFTCount(walletAddress)]; [getHolderNFTCount_call] is the
    arrow function handed to [apiCallWithRetry]. *)
Definition getHolderNFTCount_call (env : Env) (walletAddress : option string)
  : Async World Z :=
  (await_ sleep OPENSEA_DELAY in
   await totalCount := paginate env walletAddress 0 None true in
   ret (Z.max totalCount 1))%async.

Definition getHolderNFTCount (env : Env) (walletAddress : option string)
  : Async World (JsReturn Z) :=
  try_catch (withRetry (getHolderNFTCount_call env walletAddress))
    (fun _ => ret (Value 1)).

(** [getSellerNFTCount(walletAddress)]:
    [response.data.assets?.length || 0]. *)
Definition getSellerNFTCount (env : Env) (walletAddress : option string)
  : Async World (JsReturn Z) :=
  try_catch
    (withRetry
       (await_ sleep OPENSEA_DELAY in
        await response :=
          external (fun k => httpAssets env k walletAddress None) in
        ret (Z.of_nat (length (default [] (assets response)))))%async)
    (fun _ => ret (Value 0)).

(** [getNFTImageUrl(contractAddress, tokenId)]; [None] is [null] or
    [undefined]. *)
Definition getNFTImageUrl (env : Env) (contractAddress : string)
    (tokenId : option string) : Async World (JsReturn (option string)) :=
  try_catch
    (withRetry
       (await_ sleep OPENSEA_DELAY in
        await response :=
          external (fun k => httpNft env k contractAddress tokenId) in
        ret (orElse (resp_image_url response)
               (resp_metadata_image response)))%async)
    (fun _ => ret (Value None)).

Definition shouldPostFloorAlert : Async World bool :=
  shouldPostFloorAlertAfter 20.

Definition updateLastCheckTime : Env -> Async World unit :=
  updateLastCheckTime_overwrite.

(** [createSaleImage(sale, ...)]: [null] ([false]) without canvas; with it,
    the card reads [sale.winner_account.address] and [sale.asset.name] on
    its way, and the drawing itself is left to the canvas. *)
Definition createSaleImage (env : Env) (sale : SaleEvent)
  : Async World bool :=
  if negb (canvas env) then ret false
  else
    match winner_account sale with
    | Some (Some _) =>
        match asset_name sale with
        | Some _ => (await_ external (renderCanvas env) in ret true)%async
        | None => throw "TypeError: Cannot read properties of undefined"
        end
    | _ => throw "TypeError: Cannot read properties of undefined"
    end.

(** [createFloorAlertImage(floorNFT, floorPrice, nftImageUrl)]. *)
Definition createFloorAlertImage (env : Env) : Async World bool :=
  if negb (canvas env) then ret false
  else (await_ external (renderCanvas env) in ret true)%async.

(** The [if (shouldAlert) { try { ... } catch { ... } }] block of [runBot]. *)
Definition postFloorAlert (env : Env) : Async World unit :=
  try_catch
    (await floorNFT := getFloorPriceNFT false env in
     match floorNFT with
     | Value (Some floorNFT) =>
         let floorPrice := formatPrice (Some (floor_payment floorNFT)) in
         await nftImageUrl :=
           getNFTImageUrl env AL_CABONE_CONTRACT (floor_token_id floorNFT) in
         await floorImage := createFloorAlertImage env in
         await cardUpload := uploadMedia env (FloorCard floorImage) in
         await_ tweet env {| text := FloorAlert floorNFT floorPrice None;
                             media_ids := [cardUpload] |} in
         await_ updateLastFloorAlert env in
         sleep TWITTER_DELAY
     | _ => ret tt
     end)%async
    (fun _ => ret tt).

(** The body of [for (const sale of salesToProcess)]. *)
Definition processSale (env : Env) (sale : SaleEvent) : Async World unit :=
  match nft sale with
  | None => throw "TypeError: Cannot read properties of undefined"
  | Some saleNft =>
      (await buyerCount := getHolderNFTCount env (buyer sale) in
       let buyerTier := tierOfCount buyerCount in
       await sellerPair :=
         sellerInfo (fun address => getSellerNFTCount env (Some address))
           (seller sale) in
       match buyer sale with
       | None => throw "TypeError: Cannot read properties of undefined"
       | Some buyerAddress =>
           let message :=
             {| post_buyer := buyerAddress; post_buyerTier := buyerTier;
                post_buyerCount := buyerCount;
                post_nftName := default "undefined" (nft_name saleNft);
                post_sellerTier := snd sellerPair;
                post_sellerCount := fst sellerPair;
                post_status := "ACTIVE INVESTIGATION";
                post_price := formatPrice (payment sale) |} in
           await nftImageUrl :=
             getNFTImageUrl env AL_CABONE_CONTRACT (nft_identifier saleNft) in
           await investigationCardBuffer := createSaleImage env sale in
           try_catch
             (await cardUpload :=
                uploadMedia env (SaleCard sale investigationCardBuffer) in
              await nftUploads :=
                uploadNftImage env
                  match nftImageUrl with
                  | Value url => url
                  | Undefined => None
                  end in
              await_ tweet env {| text := SaleAlert sale message;
                                  media_ids := cardUpload :: nftUploads |} in
              (* console.log(`... ${sale.asset.name}`) *)
              await_ match asset_name sale with
                     | Some _ => ret tt
                     | None =>
                         throw "TypeError: Cannot read properties of undefined"
                     end in
              sleep TWITTER_DELAY)
             (fun _ => ret tt)
       end)%async
  end.

(** [runBot()]. *)
Definition runBot (env : Env) : Async World unit :=
  try_catch
    (await sales := fetchRecentSales env in
     match sales with
     | Undefined => throw "TypeError: Cannot read properties of undefined"
     | Value sales =>
         await shouldAlert := shouldPostFloorAlert in
         if (length sales =? 0)%nat && negb shouldAlert
         then updateLastCheckTime env
         else
           await_ (if shouldAlert then postFloorAlert env else ret tt) in
           if (length sales =? 0)%nat then updateLastCheckTime env
           else
             let salesToProcess := take 3 sales in
             await_ forOf salesToProcess (processSale env) in
             updateLastCheckTime env
     end)%async
    (fun _ => ret tt).

End Draft1.

(** ** Draft 2: [src/bot.js], lines 867-1548 *)

Module Draft2.

(** [fetchRecentSales()]: the checkpoint goes to the marketplace as
    [occurred_after]; what comes back is validated, not filtered by time.
    [Math.floor(ms / 1000)] is [ms / 1000] on integers. *)
Definition fetchRecentSales_call (env : Env) : Async World (list SaleEvent) :=
  (await_ sleep OPENSEA_DELAY in
   await lastCheck := getLastCheckTime in
   let lastCheckTimestamp := (fun t => t / 1000) <$> lastCheck in
   await response :=
     external (fun k => httpEvents env k
                 {| q_limit := 20;
                    q_occurred_after := Some lastCheckTimestamp |}) in
   let events := eventsOf response in
   await_ toISOString lastCheck in
   ret (List.filter isValidSaleEvent events))%async.

Definition fetchRecentSales (env : Env)
  : Async World (JsReturn (list SaleEvent)) :=
  try_catch (withRetry (fetchRecentSales_call env)) (fun _ => ret (Value [])).

Definition getHolderNFTCount := getHolderNFTCount_v2.
Definition getSellerNFTCount := getSellerNFTCount_v2.

Definition shouldPostFloorAlert : Async World bool :=
  shouldPostFloorAlertAfter 20.

Definition updateLastCheckTime : Env -> Async World unit :=
  updateLastCheckTime_overwrite.

(** The [if (shouldAlert && sales.length === 0) { try { ... } }] block;
    [nftImageUrl] is [null] here, so [mediaIds] stays empty. *)
Definition postFloorAlert (env : Env) : Async World unit :=
  try_catch
    (await floorNFT := getFloorPriceNFT false env in
     match floorNFT with
     | Value (Some floorNFT) =>
         let floorPrice := formatPrice (Some (floor_payment floorNFT)) in
         await mediaIds := uploadNftImage env None in
         await_ tweetWithFallback env (FloorAlert floorNFT floorPrice None)
                  mediaIds in
         await_ updateLastFloorAlert env in
         sleep TWITTER_DELAY
     | _ => ret tt
     end)%async
    (fun _ => ret tt).

(** The body of the loop; the status line is fixed text. *)
Definition processSale : Env -> SaleEvent -> Async World unit :=
  processSale_v2 (fun _ _ => "FAMILY BUSINESS").

(** [runBot()]. *)
Definition runBot (env : Env) : Async World unit :=
  try_catch
    (await sales := fetchRecentSales env in
     match sales with
     | Undefined => throw "TypeError: Cannot read properties of undefined"
     | Value sales =>
         await shouldAlert := shouldPostFloorAlert in
         if (length sales =? 0)%nat && negb shouldAlert
         then updateLastCheckTime env
         else
           await_ (if shouldAlert && (length sales =? 0)%nat
                   then postFloorAlert env else ret tt) in
           if (length sales =? 0)%nat then updateLastCheckTime env
           else
             let salesToProcess := take 3 sales in
             await_ forOf salesToProcess (processSale env) in
             updateLastCheckTime env
     end)%async
    (fun _ => ret tt).

End Draft2.

(** ** Draft 3: [src/unnamed/part_000] *)

Module Draft3.

(** [getFloorNarrative(sellerTier, sellerCount)]. *)
Definition getFloorNarrative (sellerTier : string)
    (sellerCount : JsReturn Z) : bool :=
  bool_decide
    (sellerTier ∈ ["caporegime"; "consigliere"; "underboss"; "godfather";
                   "commission"]).

(** [fetchRecentSales()]: fifty events are asked for, and the ones after the
    checkpoint are picked here. *)
Definition fetchRecentSales_call (env : Env) : Async World (list SaleEvent) :=
  (await_ sleep OPENSEA_DELAY in
   await lastCheck := getLastCheckTime in
   let lastCheckTimestamp := (fun t => t / 1000) <$> lastCheck in
   await response :=
     external (fun k => httpEvents env k
                 {| q_limit := 50; q_occurred_after := None |}) in
   let events := eventsOf response in
   let recentEvents :=
     List.filter
       (fun event => jsGt (event_timestamp event) lastCheckTimestamp)
       events in
   await_ toISOString lastCheck in
   ret (List.filter isValidSaleEvent recentEvents))%async.

Definition fetchRecentSales (env : Env)
  : Async World (JsReturn (list SaleEvent)) :=
  try_catch (withRetry (fetchRecentSales_call env)) (fun _ => ret (Value [])).

Definition getHolderNFTCount := getHolderNFTCount_v2.
Definition getSellerNFTCount := getSellerNFTCount_v2.

Definition shouldPostFloorAlert : Async World bool :=
  shouldPostFloorAlertAfter 72.

(** [updateLastCheckTime()]: read the stored object, set the one field,
    store it. *)
Definition updateLastCheckTime (env : Env) : Async World unit :=
  try_catch
    (await data := try_catch readCheckpoint (fun _ => ret ∅) in
     await t := clock in
     writeCheckpoint env (<["lastCheck" := t]> data))%async
    (fun _ => ret tt).

(** The [if (shouldAlert && sales.length === 0) { try { ... } }] block. *)
Definition postFloorAlert (env : Env) : Async World unit :=
  try_catch
    (await floorNFT := getFloorPriceNFT true env in
     match floorNFT with
     | Value (Some floorNFT) =>
         let floorPrice := formatPrice (Some (floor_payment floorNFT)) in
         await sellerPair :=
           sellerInfo (getSellerNFTCount env)
             (floor_seller_address floorNFT) in
         await mediaIds := uploadNftImage env None in
         await_ tweetWithFallback env
                  (FloorAlert floorNFT floorPrice
                     (Some (snd sellerPair, fst sellerPair,
                            getFloorNarrative (snd sellerPair)
                              (fst sellerPair))))
                  mediaIds in
         await_ updateLastFloorAlert env in
         sleep TWITTER_DELAY
     | _ => ret tt
     end)%async
    (fun _ => ret tt).

(** The body of the loop; the status line comes from
    [getTransactionStatus]. *)
Definition processSale : Env -> SaleEvent -> Async World unit :=
  processSale_v2 getTransactionStatus.

(** [runBot()]. *)
Definition runBot (env : Env) : Async World unit :=
  try_catch
    (await sales := fetchRecentSales env in
     match sales with
     | Undefined => throw "TypeError: Cannot read properties of undefined"
     | Value sales =>
         await shouldAlert := shouldPostFloorAlert in
         if (length sales =? 0)%nat && negb shouldAlert
         then updateLastCheckTime env
         else
           await_ (if shouldAlert && (length sales =? 0)%nat
                   then postFloorAlert env else ret tt) in
           if (length sales =? 0)%nat then updateLastCheckTime env
           else
             let salesToProcess := take 3 sales in
             await_ forOf salesToProcess (processSale env) in
             updateLastCheckTime env
     end)%async
    (fun _ => ret tt).

End Draft3.

(** ** Test mode

    [runTests], which the file runs in place of [runBot] when its arguments
    hold [--test]. *)

Module TestMode.

(** The first block: [fetchRecentSales], the read of [sales.length] and
    [getFloorPriceNFT]; [formatPrice] is evaluated for the log line only. *)
Definition testOpenSea
    (fetchRecentSales : Async World (JsReturn (list SaleEvent)))
    (floorPriceNFT : Async World (JsReturn (option FloorNFT)))
  : Async World unit :=
  try_catch
    (await sales := fetchRecentSales in
     match sales with
     | Undefined => throw "TypeError: Cannot read properties of undefined"
     | Value _ => await_ floorPriceNFT in ret tt
     end)%async
    (fun _ => ret tt).

(** The second block: [twitterClient.v2.me()] and the read of
    [me.data.username].  [twitterMe] answers the call with the [data] of the
    answer, [None] when it has none. *)
Definition testTwitter (twitterMe : nat -> Completion (option string))
  : Async World unit :=
  try_catch
    (await me := external twitterMe in
     match me with
     | Some _ => ret tt
     | None => throw "TypeError: Cannot read properties of undefined"
     end)%async
    (fun _ => ret tt).

(** The third block of draft 1: [require('canvas')]. *)
Definition testCanvas (env : Env) : Async World unit :=
  try_catch
    (if canvas env then ret tt else throw "Cannot find module 'canvas'")
    (fun _ => ret tt).

(** The third block of drafts 2 and 3:
    [getNFTImageUrl(AL_CABONE_CONTRACT, '1')], whose text is that of
    draft 1. *)
Definition testImage (env : Env) : Async World unit :=
  try_catch
    (await_ Draft1.getNFTImageUrl env AL_CABONE_CONTRACT (Some "1") in
     ret tt)%async
    (fun _ => ret tt).

Definition runTests1 (env : Env) (twitterMe : nat -> Completion (option string))
  : Async World unit :=
  (await_ testOpenSea (Draft1.fetchRecentSales env)
            (getFloorPriceNFT false env) in
   await_ testTwitter twitterMe in
   testCanvas env)%async.

Definition runTests2 (env : Env) (twitterMe : nat -> Completion (option string))
  : Async World unit :=
  (await_ testOpenSea (Draft2.fetchRecentSales env)
            (getFloorPriceNFT false env) in
   await_ testTwitter twitterMe in
   testImage env)%async.

Definition runTests3 (env : Env) (twitterMe : nat -> Completion (option string))
  : Async World unit :=
  (await_ testOpenSea (Draft3.fetchRecentSales env)
            (getFloorPriceNFT true env) in
   await_ testTwitter twitterMe in
   testImage env)%async.

(** The last statement of the file:
    [if (process.argv.includes('--test')) runTests() else runBot()]. *)
Definition main (runTests runBot : Async World unit) (argv : list string)
  : Async World unit :=
  if bool_decide ("--test" ∈ argv) then runTests else runBot.

End TestMode.

(** ** Reading a trace of the retry executor *)

(** The attempt numbers on which the action was invoked, in order. *)
Definition invocations (trace : list RetryEvent) : list Z :=
  omap (fun ev => match ev with
                  | Invoked attempt _ => Some attempt
                  | Waited _ => None
                  end) trace.

(** The backoff waits, in order. *)
Definition waits (trace : list RetryEvent) : list Z :=
  omap (fun ev => match ev with
                  | Invoked _ _ => None
                  | Waited waitTime => Some waitTime
                  end) trace.

(** The run the specification describes for an action that keeps failing,
    from a given attempt number and for the errors raised in turn: each
    failed attempt but the last is followed by a wait of
    [delay * 2^(attempt-1)], and then by the next attempt. *)
Fixpoint failedTrace (delay attempt : Z) (errors : list string)
  : list RetryEvent :=
  match errors with
  | [] => []
  | [error] => [Invoked attempt (Some error)]
  | error :: rest =>
      Invoked attempt (Some error)
        :: Waited (delay * 2 ^ (attempt - 1))
        :: failedTrace delay (attempt + 1) rest
  end.

(** The attempts of such a run, each with the error it raised and the
    world it left: the action is called in [w] and fails; the next attempt
    is made in the world it left, once the timer of
    [delay * 2^(attempt-1)] has been awaited. *)
Fixpoint failedAttempts {W A : Type} (pause : Z -> W -> W)
    (apiCall : Async W A) (delay attempt : Z) (w : W)
    (steps : list (string * W)) : Prop :=
  match steps with
  | [] => True
  | (error, after) :: rest =>
      apiCall w = (Rejected error, after) /\
      failedAttempts pause apiCall delay (attempt + 1)
        (pause (delay * 2 ^ (attempt - 1)) after) rest
  end.

(** The integers [from, from + 1, ...], [count] of them. *)
Fixpoint countFrom (from : Z) (count : nat) : list Z :=
  match count with
  | O => []
  | S n => from :: countFrom (from + 1) n
  end.

(** The sum of the waits of a run of the retry executor, in milliseconds. *)
Definition totalWait (trace : list RetryEvent) : Z :=
  fold_right Z.add 0 (waits trace).

(** ** Effects of a computation on the world *)

(** Every run of [m] takes a world to one related to it by [R]. *)
Definition Keeps {A : Type} (R : World -> World -> Prop) (m : Async World A)
  : Prop :=
  forall w, R w (snd (m w)).

(** A computation that never rejects. *)
Definition Resolves {A : Type} (m : Async World A) : Prop :=
  forall w, exists a w', m w = (Resolved a, w').

(** The stored document and the Twitter journal are as they were, and the
    clock has not gone back. *)
Definition quiet (w w' : World) : Prop :=
  file w' = file w /\ twitter w' = twitter w /\ now w <= now w'.

(** The Twitter journal grew by calls that all satisfy [Q]. *)
Definition journal (Q : TwitterCall -> Prop) (w w' : World) : Prop :=
  exists new, twitter w' = twitter w ++ new /\ Forall Q new.

(** The stored value of a field of [last-check.json]; [None] when the file
    or the field is missing. *)
Definition stored (field : string) (w : World) : option Z :=
  file w ≫= fun data => data !! field.

(** The marketplace honours the [limit: 200] of the assets request: no page
    holds more than 200 assets. *)
Definition honoursPageLimit (env : Env) : Prop :=
  forall k owner cursor page,
    httpAssets env k owner cursor = Resolved page ->
    (length (default [] (assets page)) <= 200)%nat.

(** The world after one request to the outside: one more external call
    was made and [ms] more milliseconds were slept; nothing else moved. *)
Definition afterRequest (ms : Z) (w : World) : World :=
  {| file := file w; now := now w + ms; calls := S (calls w);
     twitter := twitter w |}.

(** The world after the three attempts of a reader that fails each time:
    three requests, three sleeps of [OPENSEA_DELAY] and the two waits of the
    backoff, 2000 ms and 4000 ms. *)
Definition afterThreeRequests (w : World) : World :=
  {| file := file w; now := now w + 6750; calls := (calls w + 3)%nat;
     twitter := twitter w |}.

(** The marketplace is down: it refuses every request, whenever made. *)
Definition marketplaceDown (env : Env) : Prop :=
  (forall k query, isResolved (httpEvents env k query) = false) /\
  (forall k owner cursor, isResolved (httpAssets env k owner cursor) = false) /\
  (forall k address, isResolved (httpAccountNfts env k address) = false) /\
  (forall k contract tokenId,
     isResolved (httpNft env k contract tokenId) = false) /\
  (forall k, isResolved (httpListings env k) = false).

(** ** Reading the Twitter journal *)

(** A call made for the floor alert: the upload of its card, or its tweet. *)
Definition isFloorCall (c : TwitterCall) : bool :=
  match c with
  | UploadMedia (FloorCard _) _ => true
  | UploadMedia _ _ => false
  | PostTweet t _ =>
      match text t with
      | FloorAlert _ _ _ => true
      | SaleAlert _ _ => false
      end
  end.

(** Not a call of the floor alert. *)
Definition noFloorCall (c : TwitterCall) : Prop := isFloorCall c = false.

(** No call at all: the relation [journal] with a predicate no call meets. *)
Definition noCall (c : TwitterCall) : Prop := False.

(** A floor alert that went out: its tweet succeeded. *)
Definition floorPublished (c : TwitterCall) : bool :=
  match c with
  | PostTweet t ok =>
      match text t with
      | FloorAlert _ _ _ => ok
      | SaleAlert _ _ => false
      end
  | UploadMedia _ _ => false
  end.

(** The calls a run added to the journal: what follows the calls that were
    there at its start. *)
Definition newCalls (w w' : World) : list TwitterCall :=
  drop (length (twitter w)) (twitter w').

(** The sale a call on the Twitter client is made for, if any. *)
Definition callSale (c : TwitterCall) : option SaleEvent :=
  match c with
  | UploadMedia (SaleCard sale _) _ => Some sale
  | UploadMedia _ _ => None
  | PostTweet t _ =>
      match text t with
      | SaleAlert sale _ => Some sale
      | FloorAlert _ _ _ => None
      end
  end.

(** Every call made for a sale is made for a sale of [batch]. *)
Definition withinBatch (batch : list SaleEvent) (c : TwitterCall) : Prop :=
  forall sale, callSale c = Some sale -> sale ∈ batch.

(** A tweet for the given sale, with or without media. *)
Definition tweetFor (sale : SaleEvent) (c : TwitterCall) : Prop :=
  exists post mediaIds ok,
    c = PostTweet {| text := SaleAlert sale post; media_ids := mediaIds |} ok.

(** The upload of the image of an NFT. *)
Definition imageUpload (c : TwitterCall) : Prop :=
  exists url ok, c = UploadMedia (NftImage url) ok.

(** The calls of one publishing attempt of drafts 2 and 3 for a sale: at most
    the upload of the NFT image, then the tweet for that sale, then at most
    the tweet again without media. *)
Definition publishAttempt (sale : SaleEvent) (segment : list TwitterCall)
  : Prop :=
  exists uploads tweets,
    segment = uploads ++ tweets /\
    Forall imageUpload uploads /\
    tweets <> [] /\
    Forall (tweetFor sale) tweets.

(** A tweet that went out: the call on [v2.tweet] succeeded. *)
Definition tweetPosted (c : TwitterCall) : bool :=
  match c with
  | PostTweet _ ok => ok
  | UploadMedia _ _ => false
  end.

(** The Twitter journal grew by calls of which at most [n] are tweets that
    went out. *)
Definition atMostPosted (n : nat) (w w' : World) : Prop :=
  exists new,
    twitter w' = twitter w ++ new /\
    (length (List.filter tweetPosted new) <= n)%nat.

(** Every run of [m] posts at most [n] tweets. *)
Definition Spends {A : Type} (n : nat) (m : Async World A) : Prop :=
  forall w, atMostPosted n w (snd (m w)).

(** ** Reading a sale post *)

(** The fields of a sale post agree with the sale and with each other: the
    buyer is the buyer of the sale and holds at least 1, the tier shown for a
    party is the tier of the count shown beside it (a sale without a seller
    address shows ['unknown'] and 0), the status is the one the function
    [status] of the draft gives for the two tiers, and the price is
    [formatPrice] of the sale. *)
Definition coherentPost (status : string -> string -> string)
    (sale : SaleEvent) (post : SalePost) : Prop :=
  buyer sale = Some (post_buyer post) /\
  (exists count, post_buyerCount post = Value count /\ 1 <= count) /\
  post_buyerTier post = tierOfCount (post_buyerCount post) /\
  (exists count, post_sellerCount post = Value count /\ 0 <= count) /\
  (if truthyStr (seller sale)
   then post_sellerTier post = tierOfCount (post_sellerCount post)
   else post_sellerTier post = "unknown" /\ post_sellerCount post = Value 0) /\
  post_status post = status (post_buyerTier post) (post_sellerTier post) /\
  post_price post = formatPrice (payment sale).

(** A call on the Twitter client that, if it is the tweet of a sale,
    carries a coherent post. *)
Definition coherentCall (status : string -> string -> string)
    (c : TwitterCall) : Prop :=
  match c with
  | PostTweet t _ =>
      match text t with
      | SaleAlert sale post => coherentPost status sale post
      | FloorAlert _ _ _ => True
      end
  | UploadMedia _ _ => True
  end.

(** ** Sample payloads *)

(** An event as OpenSea's API v2 returns them: [nft], [buyer], [seller],
    [payment] with the amount as a decimal string, time in seconds. *)
Definition sampleSale (paid : JsPrim) (timestamp : Z) : SaleEvent :=
  {| event_type := JsString "sale";
     nft := Some {| nft_name := Some "Al Cabone #4521";
                    nft_identifier := Some "4521";
                    nft_image_url := None;
                    nft_opensea_url := None |};
     asset_name := None;
     winner_account := None;
     buyer := Some "0x7a9b000000000000000000000000000000001234";
     seller := Some "0x51e1000000000000000000000000000000005678";
     quantity := JsNumber 1;
     payment := Some {| pay_quantity := paid;
                        pay_decimals := Some 18;
                        pay_symbol := Some "ETH" |};
     event_timestamp := Some timestamp |}.

(** A sale whose payment amount is zero, as the string ['0']. *)
Definition zeroPaymentSale : SaleEvent :=
  sampleSale (JsString "0") 1700000010.

(** A sale ten thousand seconds before the checkpoint of [sampleWorld]. *)
Definition oldSale : SaleEvent :=
  sampleSale (JsString "50000000000000000") 1699990000.

(** A sale ten seconds after the checkpoint of [sampleWorld]. *)
Definition newSale : SaleEvent :=
  sampleSale (JsString "50000000000000000") 1700000010.

(** Ten valid sales after the checkpoint of [sampleWorld]. *)
Definition tenSales : list SaleEvent :=
  map (fun k => sampleSale (JsString "50000000000000000") (1700000010 + k))
    [0; 1; 2; 3; 4; 5; 6; 7; 8; 9].

Definition sampleNft : Nft :=
  {| nft_name := Some "Al Cabone #1"; nft_identifier := Some "1";
     nft_image_url := None; nft_opensea_url := None |}.

Definition sampleListing : Listing :=
  {| offer_token := Some "0x8Ca5209d8CCe34b0de91C2C4b4B14F20AFf8BA23";
     offer_identifier := Some "77";
     maker_address := Some "0x51e1000000000000000000000000000000005678";
     price_value := JsString "50000000000000000";
     price_decimals := Some 18;
     price_currency := Some "ETH" |}.

(** A stored checkpoint with both fields, half an hour before [sampleWorld]'s
    clock. *)
Definition storedCheckpoint : gmap string Z :=
  <["lastFloorAlert" := 1699990000000]> (<["lastCheck" := 1700000000000]> ∅).

Definition sampleWorld : World :=
  {| file := Some storedCheckpoint; now := 1700001800000; calls := 0;
     twitter := [] |}.

(** A world without a stored document, so that the floor alert is due. *)
Definition freshWorld : World :=
  {| file := None; now := 1700001800000; calls := 0; twitter := [] |}.

(** A marketplace that answers every events request with the same window,
    whatever the query, an account without holdings, one floor listing, and
    a Twitter client that accepts every call. *)
Definition sampleEnv (withCanvas : bool) (window : list SaleEvent) : Env :=
  {| canvas := withCanvas;
     renderCanvas := fun _ => Resolved tt;
     httpEvents := fun _ _ =>
       Resolved {| asset_events := Some window; events := None |};
     httpAssets := fun _ _ _ => Resolved {| assets := Some []; next := None |};
     httpAccountNfts := fun _ _ => Resolved (Some []);
     httpNft := fun _ _ _ =>
       Resolved {| resp_image_url := None; resp_metadata_image := None |};
     httpListings := fun _ => Resolved (Some [sampleListing]);
     httpImage := fun _ _ => Resolved tt;
     twitterUpload := fun _ _ => Resolved "media-id";
     twitterTweet := fun _ _ => Resolved tt;
     fsWritable := true |}.

(** A marketplace whose every assets page is full and names a next page. *)
Definition fullPagesEnv : Env :=
  {| canvas := false;
     renderCanvas := fun _ => Resolved tt;
     httpEvents := fun _ _ =>
       Resolved {| asset_events := None; events := None |};
     httpAssets := fun _ _ _ =>
       Resolved {| assets := Some (repeat sampleNft 200);
                   next := Some "LXBrPTIwMA==" |};
     httpAccountNfts := fun _ _ => Resolved None;
     httpNft := fun _ _ _ =>
       Resolved {| resp_image_url := None; resp_metadata_image := None |};
     httpListings := fun _ => Resolved None;
     httpImage := fun _ _ => Resolved tt;
     twitterUpload := fun _ _ => Resolved "media-id";
     twitterTweet := fun _ _ => Resolved tt;
     fsWritable := true |}.

(** A marketplace that ignores the [limit] of the assets request and
    answers with all 1200 assets of an account on one page. *)
Definition oversizedPageEnv : Env :=
  {| canvas := false;
     renderCanvas := fun _ => Resolved tt;
     httpEvents := fun _ _ =>
       Resolved {| asset_events := None; events := None |};
     httpAssets := fun _ _ _ =>
       Resolved {| assets := Some (repeat sampleNft 1200); next := None |};
     httpAccountNfts := fun _ _ => Resolved None;
     httpNft := fun _ _ _ =>
       Resolved {| resp_image_url := None; resp_metadata_image := None |};
     httpListings := fun _ => Resolved None;
     httpImage := fun _ _ => Resolved tt;
     twitterUpload := fun _ _ => Resolved "media-id";
     twitterTweet := fun _ _ => Resolved tt;
     fsWritable := true |}.

(** An action that fails on every call, on a world that counts the calls
    made and the milliseconds waited, and the timer of that world. *)
Definition failingCall : Async (nat * Z) unit :=
  fun w => (Rejected "429", (S (fst w), snd w)).

Definition timer (ms : Z) (w : nat * Z) : nat * Z := (fst w, snd w + ms).

(** A flaky action on a counter: it fails on its first [failures] calls
    and resolves with the number of the call from then on. *)
Definition flakyCall (failures : nat) : Async nat nat :=
  fun n => if (n <? failures)%nat then (Rejected "429", S n)
           else (Resolved n, S n).

(** An outage: the marketplace and the Twitter client refuse every call,
    and the file system refuses to write. *)
Definition offlineEnv : Env :=
  {| canvas := false;
     renderCanvas := fun _ => Resolved tt;
     httpEvents := fun _ _ => Rejected "503";
     httpAssets := fun _ _ _ => Rejected "503";
     httpAccountNfts := fun _ _ => Rejected "503";
     httpNft := fun _ _ _ => Rejected "503";
     httpListings := fun _ => Rejected "503";
     httpImage := fun _ _ => Rejected "503";
     twitterUpload := fun _ _ => Rejected "403";
     twitterTweet := fun _ _ => Rejected "403";
     fsWritable := false |}.

(** The marketplace of [sampleEnv] with a writable store and a Twitter
    client that refuses every upload and every tweet. *)
Definition refusedEnv (window : list SaleEvent) : Env :=
  {| canvas := false;
     renderCanvas := renderCanvas (sampleEnv false window);
     httpEvents := httpEvents (sampleEnv false window);
     httpAssets := httpAssets (sampleEnv false window);
     httpAccountNfts := httpAccountNfts (sampleEnv false window);
     httpNft := httpNft (sampleEnv false window);
     httpListings := httpListings (sampleEnv false window);
     httpImage := httpImage (sampleEnv false window);
     twitterUpload := fun _ _ => Rejected "403";
     twitterTweet := fun _ _ => Rejected "403";
     fsWritable := true |}.

(** * Properties *)

Lemma getTierRank_names :
  map getTierRank tierLabels = [1; 2; 3; 4; 5; 6; 7; 1].
Proof. vm_compute. reflexivity. Qed.

Lemma tierLabels_cases (t : string) :
  t ∈ tierLabels ->
  t = "associate" \/ t = "soldier" \/ t = "caporegime" \/ t = "consigliere" \/
  t = "underboss" \/ t = "godfather" \/ t = "commission" \/ t = "unknown".
Proof.
  unfold tierLabels, tierNames; cbn [app].
  rewrite !elem_of_cons, elem_of_nil. tauto.
Qed.

Lemma getHolderTier_label (count : Z) : getHolderTier count ∈ tierNames.
Proof.
  unfold getHolderTier, tierNames.
  repeat (case (_ >=? _); [ rewrite !elem_of_cons; tauto | ]).
  rewrite !elem_of_cons; tauto.
Qed.

(** ** Tier and narrative classifier *)

Lemma getTransactionStory_cases (b s : string) (bc sc : Z) :
  let d := getTierRank s - getTierRank b in
  (getTransactionStory b s bc sc = "empire_falls" <-> d > 1) /\
  (getTransactionStory b s bc sc = "consolidation" <-> d < -1) /\
  (getTransactionStory b s bc sc = "business_as_usual" <-> -1 <= d <= 1).
Proof.
  cbv zeta. unfold getTransactionStory.
  destruct (Z.gtb_spec (getTierRank s) (getTierRank b + 1));
    [ | destruct (Z.gtb_spec (getTierRank b) (getTierRank s + 1)) ];
    repeat split; intros; try lia; try discriminate; reflexivity.
Qed.

Lemma getTransactionStatus_cases (b s : string) :
  let d := getTierRank s - getTierRank b in
  (getTransactionStatus b s = statusTemplates empire_falls <-> d > 1) /\
  (getTransactionStatus b s = statusTemplates consolidation <-> d < -1) /\
  (getTransactionStatus b s = statusTemplates business_as_usual
   <-> -1 <= d <= 1).
Proof.
  cbv zeta. unfold getTransactionStatus.
  destruct (Z.gtb_spec (getTierRank s) (getTierRank b + 1));
    [ | destruct (Z.gtb_spec (getTierRank b) (getTierRank s + 1)) ];
    repeat split; intros; try lia; try discriminate; reflexivity.
Qed.



Ltac pick_range :=
  first [ split; [ lia | reflexivity ]
        | left; split; [ lia | reflexivity ]
        | right; pick_range ].

Lemma getHolderTier_ranges (count : Z) :
  (count < 5 /\ getHolderTier count = "associate") \/
  (5 <= count < 10 /\ getHolderTier count = "soldier") \/
  (10 <= count < 15 /\ getHolderTier count = "caporegime") \/
  (15 <= count < 20 /\ getHolderTier count = "consigliere") \/
  (20 <= count < 25 /\ getHolderTier count = "underboss") \/
  (25 <= count < 100 /\ getHolderTier count = "godfather") \/
  (100 <= count /\ getHolderTier count = "commission").
Proof.
  unfold getHolderTier.
  repeat (match goal with
          | |- context [?a >=? ?b] => destruct (Z.geb_spec a b)
          end);
    pick_range.
Qed.

Lemma classifyTier_spec_ranges (count : Z) :
  (count < 5 /\ classifyTier_spec count = "associate") \/
  (5 <= count < 10 /\ classifyTier_spec count = "soldier") \/
  (10 <= count < 15 /\ classifyTier_spec count = "caporegime") \/
  (15 <= count < 20 /\ classifyTier_spec count = "consigliere") \/
  (20 <= count < 25 /\ classifyTier_spec count = "underboss") \/
  (25 <= count < 100 /\ classifyTier_spec count = "godfather") \/
  (100 <= count /\ classifyTier_spec count = "commission").
Proof.
  unfold classifyTier_spec, tierThresholds. cbn [fold_left fst snd].
  repeat (match goal with
          | |- context [?a <=? ?b] => destruct (Z.leb_spec a b)
          end);
    first [ pick_range | lia ].
Qed.

Lemma tierThresholds_cases (tier : string) (threshold : Z) :
  (tier, threshold) ∈ tierThresholds ->
  (tier = "associate" /\ threshold = 0) \/
  (tier = "soldier" /\ threshold = 5) \/
  (tier = "caporegime" /\ threshold = 10) \/
  (tier = "consigliere" /\ threshold = 15) \/
  (tier = "underboss" /\ threshold = 20) \/
  (tier = "godfather" /\ threshold = 25) \/
  (tier = "commission" /\ threshold = 100).
Proof.
  unfold tierThresholds. rewrite !elem_of_cons, elem_of_nil.
  intros H. repeat destruct H as [H | H]; try contradiction;
    injection H as -> ->; tauto.
Qed.

(** C2. For every integer holding count, [getHolderTier] returns a tier (it
    is total), namely the highest tier of the table associate 0, soldier 5,
    caporegime 10, consigliere 15, underboss 20, godfather 25, commission 100
    (ranks 1 to 7) whose threshold is at most the count: no tier of the
    table with a threshold met by the count outranks the result, and from
    count 0 on the threshold of the result is itself met.  Every count at
    most 0 maps to associate and every count from 100 on to commission. *)
Theorem getHolderTier_highest_threshold (count : Z) :
  getHolderTier count = classifyTier_spec count /\
  getHolderTier count ∈ tierNames /\
  (forall tier threshold,
     (tier, threshold) ∈ tierThresholds -> threshold <= count ->
     getTierRank tier <= getTierRank (getHolderTier count)) /\
  (0 <= count ->
   exists threshold,
     (getHolderTier count, threshold) ∈ tierThresholds /\
     threshold <= count) /\
  map (fun entry => getTierRank (fst entry)) tierThresholds
    = [1; 2; 3; 4; 5; 6; 7] /\
  (count <= 0 -> getHolderTier count = "associate") /\
  (100 <= count -> getHolderTier count = "commission").
Proof.
  pose proof (getHolderTier_ranges count) as Hcode.
  pose proof (classifyTier_spec_ranges count) as Hspec.
  split; [ | split; [ apply getHolderTier_label | ] ].
  { repeat destruct Hcode as [Hcode | Hcode];
      repeat destruct Hspec as [Hspec | Hspec];
      destruct Hcode as [Hc ->]; destruct Hspec as [Hs ->];
      first [ reflexivity | lia ]. }
  split.
  { intros tier threshold Hin Hle.
    apply tierThresholds_cases in Hin.
    repeat destruct Hcode as [Hcode | Hcode];
      destruct Hcode as [Hc ->];
      repeat destruct Hin as [Hin | Hin];
      destruct Hin as [-> ->];
      first [ lia | vm_compute; discriminate ]. }
  split.
  { intros Hpos.
    repeat destruct Hcode as [Hcode | Hcode];
      destruct Hcode as [Hc ->];
      [ exists 0 | exists 5 | exists 10 | exists 15 | exists 20
      | exists 25 | exists 100 ];
      (split; [ unfold tierThresholds; rewrite !elem_of_cons; tauto | lia ]). }
  split; [ vm_compute; reflexivity | ].
  split; intros H;
    repeat destruct Hcode as [Hcode | Hcode];
    destruct Hcode as [Hc ->]; first [ reflexivity | lia ].
Qed.

(** ** Retry executor *)

Section RetryFacts.
Context {W A : Type}.
Variable pause : Z -> W -> W.
Variable apiCall : Async W A.
Variables maxRetries delay : Z.

(** One round of the loop, as the source reads. *)
Lemma retryLoop_unroll (attempt : Z) (w : W) :
  retryLoop pause apiCall maxRetries delay attempt w =
  if Z_le_gt_dec attempt maxRetries then
    match apiCall w with
    | (Resolved result, w') =>
        (Resolved (Value result), w', [Invoked attempt None])
    | (Rejected error, w') =>
        if Z.eq_dec attempt maxRetries
        then (Rejected error, w', [Invoked attempt (Some error)])
        else
          let waitTime := delay * 2 ^ (attempt - 1) in
          let '(r, w'', tr) :=
            retryLoop pause apiCall maxRetries delay (attempt + 1)
              (pause waitTime w') in
          (r, w'', Invoked attempt (Some error) :: Waited waitTime :: tr)
    end
  else (Resolved Undefined, w, []).
Proof.
  funelim (retryLoop pause apiCall maxRetries delay attempt w).
  - rewrite Heq. reflexivity.
  - rewrite Heq0, Heq. reflexivity.
  - rewrite Heq1, Heq0, Heq. reflexivity.
  - rewrite Heq1, Heq0, Heq. reflexivity.
Qed.

(** The loop from [attempt] with [n + 1] attempts left, for an action that
    fails whenever it is called. *)
Lemma retryLoop_failing (n : nat) :
  (forall w0, exists error, fst (apiCall w0) = Rejected error) ->
  forall (attempt : Z) (w : W),
    attempt + Z.of_nat n = maxRetries ->
    exists (steps : list (string * W)) (error : string) (w' : W),
      retryLoop pause apiCall maxRetries delay attempt w
        = (Rejected error, w', failedTrace delay attempt (map fst steps)) /\
      failedAttempts pause apiCall delay attempt w steps /\
      length steps = S n /\
      last steps = Some (error, w').
Proof.
  intros Hfail. induction n as [ | n IH ]; intros attempt w Hn.
  - rewrite retryLoop_unroll.
    destruct (Z_le_gt_dec attempt maxRetries) as [ _ | ? ]; [ | lia ].
    destruct (Hfail w) as [error He].
    destruct (apiCall w) as [c w'] eqn:Hcall; cbn [fst] in He; subst c.
    destruct (Z.eq_dec attempt maxRetries) as [ _ | ? ]; [ | lia ].
    exists [(error, w')], error, w'.
    split; [ reflexivity | ].
    split; [ cbn [failedAttempts]; split; [ exact Hcall | exact I ] | ].
    split; reflexivity.
  - rewrite retryLoop_unroll.
    destruct (Z_le_gt_dec attempt maxRetries) as [ _ | ? ]; [ | lia ].
    destruct (Hfail w) as [error He].
    destruct (apiCall w) as [c w'] eqn:Hcall; cbn [fst] in He; subst c.
    destruct (Z.eq_dec attempt maxRetries) as [ ? | _ ]; [ lia | ].
    cbv zeta.
    destruct (IH (attempt + 1) (pause (delay * 2 ^ (attempt - 1)) w'))
      as (steps & last_error & w'' & Hrun & Hsteps & Hlen & Hlast); [ lia | ].
    rewrite Hrun.
    exists ((error, w') :: steps), last_error, w''.
    destruct steps as [ | step steps ]; [ discriminate | ].
    split; [ reflexivity | ].
    split; [ cbn [failedAttempts]; split; [ exact Hcall | exact Hsteps ] | ].
    split; [ cbn [length] in *; congruence | exact Hlast ].
Qed.

End RetryFacts.

Lemma invocations_failedTrace (delay : Z) (errors : list string) :
  forall attempt,
    invocations (failedTrace delay attempt errors)
      = countFrom attempt (length errors).
Proof.
  induction errors as [ | error [ | e2 rest ] IH ]; intros attempt.
  - reflexivity.
  - reflexivity.
  - change (invocations (failedTrace delay attempt (error :: e2 :: rest)))
      with (attempt
              :: invocations (failedTrace delay (attempt + 1) (e2 :: rest))).
    rewrite IH. reflexivity.
Qed.

Lemma waits_failedTrace (delay : Z) (errors : list string) :
  forall attempt,
    waits (failedTrace delay attempt errors)
      = map (fun k => delay * 2 ^ (k - 1))
          (countFrom attempt (length errors - 1)).
Proof.
  induction errors as [ | error [ | e2 rest ] IH ]; intros attempt.
  - reflexivity.
  - reflexivity.
  - change (waits (failedTrace delay attempt (error :: e2 :: rest)))
      with (delay * 2 ^ (attempt - 1)
              :: waits (failedTrace delay (attempt + 1) (e2 :: rest))).
    rewrite IH. cbn [length Nat.sub]. rewrite Nat.sub_0_r. reflexivity.
Qed.

Lemma length_countFrom (count : nat) :
  forall from, length (countFrom from count) = count.
Proof.
  induction count as [ | count IH ]; intros from; cbn [countFrom length];
    [ reflexivity | rewrite IH; reflexivity ].
Qed.

(** C3. For an action that fails on every invocation and [maxRetries >= 1],
    [apiCallWithRetry] invokes the action on attempts [1 .. maxRetries] and no
    more ([maxRetries] invocations): the first in the world it was called
    in, each further one in the world the failed attempt before it left,
    after a wait of [delay * 2^(attempt-1)].  It rejects with the failure of
    the last attempt, in the world that attempt left. *)
Theorem apiCallWithRetry_exhausts_attempts
    {W A : Type} (pause : Z -> W -> W) (apiCall : Async W A)
    (maxRetries delay : Z) (w : W) :
  1 <= maxRetries ->
  (forall w0, exists error, fst (apiCall w0) = Rejected error) ->
  exists (steps : list (string * W)) (error : string) (w' : W),
    apiCallWithRetry_traced pause apiCall maxRetries delay w
      = (Rejected error, w', failedTrace delay 1 (map fst steps)) /\
    apiCallWithRetry pause apiCall maxRetries delay w = (Rejected error, w') /\
    failedAttempts pause apiCall delay 1 w steps /\
    last steps = Some (error, w') /\
    Z.of_nat (length steps) = maxRetries /\
    invocations (failedTrace delay 1 (map fst steps))
      = countFrom 1 (Z.to_nat maxRetries) /\
    Z.of_nat (length (invocations (failedTrace delay 1 (map fst steps))))
      = maxRetries /\
    waits (failedTrace delay 1 (map fst steps))
      = map (fun attempt => delay * 2 ^ (attempt - 1))
          (countFrom 1 (Z.to_nat maxRetries - 1)).
Proof.
  intros Hmax Hfail.
  destruct (retryLoop_failing pause apiCall maxRetries delay
              (Z.to_nat (maxRetries - 1)) Hfail 1 w)
    as (steps & error & w' & Hrun & Hsteps & Hlen & Hlast); [ lia | ].
  assert (Hn : length (map fst steps) = Z.to_nat maxRetries)
    by (rewrite length_map; lia).
  exists steps, error, w'.
  unfold apiCallWithRetry, apiCallWithRetry_traced. rewrite Hrun.
  split; [ reflexivity | ]. split; [ reflexivity | ].
  split; [ exact Hsteps | ]. split; [ exact Hlast | ]. split; [ lia | ].
  rewrite invocations_failedTrace, waits_failedTrace, length_countFrom, Hn.
  repeat split; lia.
Qed.

Lemma apiCallWithRetry_exhausts_attempts_witness :
  exists tr : list RetryEvent,
    apiCallWithRetry_traced timer failingCall 3 RETRY_DELAY (0%nat, 0)
      = (Rejected "429", (3%nat, 6000), tr) /\
    invocations tr = [1; 2; 3] /\
    waits tr = [2000; 4000].
Proof.
  destruct (apiCallWithRetry_exhausts_attempts timer failingCall 3
              RETRY_DELAY (0%nat, 0))
    as (steps & error & w' & Hrun & _ & _ & _ & _ & Hinv & _ & Hwaits).
  - lia.
  - intros w0. exists "429". reflexivity.
  - exists (failedTrace RETRY_DELAY 1 (map fst steps)).
    pose proof Hrun as Hvalue. vm_compute in Hvalue.
    injection Hvalue as <- <- _.
    split; [ exact Hrun | ]. split; [ exact Hinv | exact Hwaits ].
Defined.

(** C9. For every [maxRetries <= 0], [apiCallWithRetry] resolves with
    [undefined]: the loop body never runs, so the action is not invoked, the
    world is as it was, and nothing is raised. *)
Theorem apiCallWithRetry_no_attempt
    {W A : Type} (pause : Z -> W -> W) (apiCall : Async W A)
    (maxRetries delay : Z) (w : W) :
  maxRetries <= 0 ->
  apiCallWithRetry_traced pause apiCall maxRetries delay w
    = (Resolved Undefined, w, []) /\
  apiCallWithRetry pause apiCall maxRetries delay w = (Resolved Undefined, w).
Proof.
  intros Hmax.
  unfold apiCallWithRetry, apiCallWithRetry_traced.
  rewrite retryLoop_unroll.
  destruct (Z_le_gt_dec 1 maxRetries); [ lia | ].
  split; reflexivity.
Qed.

Lemma apiCallWithRetry_no_attempt_witness :
  apiCallWithRetry (fun _ n => n) (fun n : nat => (Resolved 7, S n))
    0 RETRY_DELAY 0%nat
  = (Resolved Undefined, 0%nat).
Proof.
  apply (apiCallWithRetry_no_attempt (fun _ n => n)
           (fun n : nat => (Resolved 7, S n)) 0 RETRY_DELAY 0%nat).
  lia.
Defined.

(** ** Validation *)

(** [parseInt] of a Number that prints as an integer without rounding is
    the Number. *)
Lemma parseInt_number (n : Z) :
  Z.abs n < 2 ^ 53 -> parseInt (JsNumber n) = Some n.
Proof.
  intros Hn. unfold parseInt, nearestNumber.
  destruct (Z.ltb_spec (Z.abs n) (2 ^ 53)) as [ _ | ? ]; [ | lia ].
  destruct (Z.ltb_spec (Z.abs n) (10 ^ 21)) as [ _ | ? ]; [ | lia ].
  destruct n; reflexivity.
Qed.

(** From 1e21 on a Number prints in exponent form, and [parseInt] reads its
    first digit: [1e+21], [1e+23] (the Number next below 10^23) and
    [7e+22]. *)
Lemma parseInt_exponent_form :
  parseInt (JsNumber (10 ^ 21)) = Some 1 /\
  parseInt (JsNumber (10 ^ 23)) = Some 1 /\
  parseInt (JsNumber (7 * 10 ^ 22)) = Some 7.
Proof. repeat split; vm_compute; reflexivity. Qed.

(** What [isValidSaleEvent] tests, condition by condition. *)
Lemma isValidSaleEvent_true (sale : SaleEvent) :
  isValidSaleEvent sale = true <->
  strictEqString (event_type sale) "sale" = true /\
  isSome (nft sale) = true /\
  truthyStr (buyer sale) = true /\
  (truthy (quantity sale) = true ->
   jsGt (parseInt (quantity sale)) (Some 1) = false) /\
  exists p, payment sale = Some p /\ truthy (pay_quantity p) = true.
Proof.
  unfold isValidSaleEvent.
  destruct (strictEqString (event_type sale) "sale"); cbn [negb];
    [ | split; [ discriminate | intros [H _]; discriminate ] ].
  destruct (isSome (nft sale)); cbn [negb orb];
    [ | split; [ discriminate | intros (_ & H & _); discriminate ] ].
  destruct (truthyStr (buyer sale)); cbn [negb];
    [ | split; [ discriminate | intros (_ & _ & H & _); discriminate ] ].
  destruct (truthy (quantity sale)); cbn [andb].
  - destruct (jsGt (parseInt (quantity sale)) (Some 1)).
    + split; [ discriminate | ].
      intros (_ & _ & _ & H & _). specialize (H eq_refl). discriminate.
    + destruct (payment sale) as [p | ].
      * destruct (truthy (pay_quantity p)) eqn:Hq; cbn [negb].
        -- split; [ | reflexivity ]. intros _. repeat split; eauto.
        -- split; [ discriminate | ].
           intros (_ & _ & _ & _ & p' & [= <-] & H). congruence.
      * split; [ discriminate | ].
        intros (_ & _ & _ & _ & p' & H & _). discriminate.
  - destruct (payment sale) as [p | ].
    + destruct (truthy (pay_quantity p)) eqn:Hq; cbn [negb].
      * split; [ | reflexivity ]. intros _.
        repeat split; eauto. discriminate.
      * split; [ discriminate | ].
        intros (_ & _ & _ & _ & p' & [= <-] & H). congruence.
    + split; [ discriminate | ].
      intros (_ & _ & _ & _ & p' & H & _). discriminate.
Qed.

(** A payment amount that is the number zero, or that is missing, is
    rejected. *)
Lemma isValidSaleEvent_rejects_number_zero (sale : SaleEvent) (p : Payment) :
  payment sale = Some p ->
  pay_quantity p = JsNumber 0 \/ pay_quantity p = JsUndefined ->
  isValidSaleEvent sale = false.
Proof.
  intros Hp Hq.
  destruct (isValidSaleEvent sale) eqn:Hv; [ | reflexivity ].
  apply isValidSaleEvent_true in Hv as (_ & _ & _ & _ & p' & Hp' & Ht).
  rewrite Hp in Hp'. injection Hp' as <-.
  destruct Hq as [Hq | Hq]; rewrite Hq in Ht; discriminate.
Qed.

(** C7, at the failing input: a sale of kind ["sale"] with an nft payload, a
    buyer, quantity 1 and the payment amount ['0'] (zero, as the marketplace
    writes amounts) passes [isValidSaleEvent], although [formatPrice] knows
    that same amount as no price. *)
Theorem isValidSaleEvent_accepts_zero_payment :
  (payment zeroPaymentSale ≫= fun p => Some (pay_quantity p))
    = Some (JsString "0") /\
  isValidSaleEvent zeroPaymentSale = true /\
  formatPrice (payment zeroPaymentSale) = PriceUndisclosed /\
  isValidSaleEvent (sampleSale (JsNumber 0) 1700000010) = false.
Proof. repeat split; vm_compute; reflexivity. Qed.

(** ** Effects: composition rules *)

Section KeepsRules.
Context (R : World -> World -> Prop) `{!PreOrder R}.

Lemma Keeps_ret {A : Type} (a : A) : Keeps R (ret a).
Proof. intros w. reflexivity. Qed.

Lemma Keeps_throw {A : Type} (error : string) : Keeps R (@throw World A error).
Proof. intros w. reflexivity. Qed.

Lemma Keeps_bind {A B : Type} (m : Async World A) (k : A -> Async World B) :
  Keeps R m -> (forall a, Keeps R (k a)) -> Keeps R (bind m k).
Proof.
  intros Hm Hk w. unfold bind. specialize (Hm w).
  destruct (m w) as [[a | error] w1]; cbn [snd] in Hm.
  - etransitivity; [ exact Hm | apply Hk ].
  - exact Hm.
Qed.

Lemma Keeps_try_catch {A : Type} (m : Async World A)
    (h : string -> Async World A) :
  Keeps R m -> (forall error, Keeps R (h error)) -> Keeps R (try_catch m h).
Proof.
  intros Hm Hh w. unfold try_catch. specialize (Hm w).
  destruct (m w) as [[a | error] w1]; cbn [snd] in Hm.
  - exact Hm.
  - etransitivity; [ exact Hm | apply Hh ].
Qed.

Lemma Keeps_forOf {A : Type} (l : list A) (body : A -> Async World unit) :
  (forall x, Keeps R (body x)) -> Keeps R (forOf l body).
Proof.
  intros Hbody. induction l as [ | x l IH ]; cbn [forOf].
  - apply Keeps_ret.
  - apply Keeps_bind; [ apply Hbody | intros _; exact IH ].
Qed.

(** The retry loop keeps what the action and the timer keep, and hands back
    a value only if some attempt resolved with it. *)
Lemma retryLoop_keeps {A : Type} (apiCall : Async World A)
    (maxRetries delay : Z) :
  Keeps R apiCall -> 0 <= delay ->
  (forall ms w, 0 <= ms -> R w (advance ms w)) ->
  forall (n : nat) (attempt : Z) (w : World),
    Z.to_nat (maxRetries + 1 - attempt) = n ->
    R w (snd (fst (retryLoop advance apiCall maxRetries delay attempt w))) /\
    match fst (fst (retryLoop advance apiCall maxRetries delay attempt w)) with
    | Resolved (Value a) => exists w0, R w w0 /\ fst (apiCall w0) = Resolved a
    | Resolved Undefined => maxRetries < attempt
    | Rejected error =>
        exists w0, R w w0 /\ fst (apiCall w0) = Rejected error
    end.
Proof.
  intros Hcall Hdelay Hpause n.
  induction n as [ | n IH ]; intros attempt w Hn.
  - rewrite retryLoop_unroll.
    destruct (Z_le_gt_dec attempt maxRetries); [ lia | ].
    cbn [fst snd]. split; [ reflexivity | lia ].
  - rewrite retryLoop_unroll.
    destruct (Z_le_gt_dec attempt maxRetries); [ | lia ].
    pose proof (Hcall w) as Hw.
    destruct (apiCall w) as [[result | error] w1] eqn:Ecall; cbn [snd] in Hw.
    + cbn [fst snd]. split; [ exact Hw | ].
      exists w. split; [ reflexivity | rewrite Ecall; reflexivity ].
    + destruct (Z.eq_dec attempt maxRetries).
      * cbn [fst snd]. split; [ exact Hw | ].
        exists w. split; [ reflexivity | rewrite Ecall; reflexivity ].
      * cbv zeta.
        destruct (IH (attempt + 1)
                    (advance (delay * 2 ^ (attempt - 1)) w1)) as [Hr Hv];
          [ lia | ].
        assert (Hstep : R w (advance (delay * 2 ^ (attempt - 1)) w1)).
        { etransitivity; [ exact Hw | apply Hpause ].
          pose proof (Z.pow_nonneg 2 (attempt - 1)). lia. }
        destruct (retryLoop advance apiCall maxRetries delay (attempt + 1)
                    (advance (delay * 2 ^ (attempt - 1)) w1))
          as [[r w2] tr].
        cbn [fst snd] in *.
        split; [ etransitivity; eassumption | ].
        destruct r as [[a | ] | error'].
        -- destruct Hv as (w0 & Hw0 & Hres).
           exists w0. split; [ etransitivity; eassumption | exact Hres ].
        -- lia.
        -- destruct Hv as (w0 & Hw0 & Hres).
           exists w0. split; [ etransitivity; eassumption | exact Hres ].
Qed.

Lemma Keeps_withRetry {A : Type} (apiCall : Async World A) :
  Keeps R apiCall -> (forall ms w, 0 <= ms -> R w (advance ms w)) ->
  Keeps R (withRetry apiCall).
Proof.
  intros Hcall Hpause w.
  unfold withRetry, apiCallWithRetry, apiCallWithRetry_traced.
  destruct (retryLoop_keeps apiCall 3 RETRY_DELAY Hcall ltac:(vm_compute; discriminate)
              Hpause _ 1 w eq_refl)
    as [H _].
  destruct (retryLoop advance apiCall 3 RETRY_DELAY 1 w) as [[r w'] tr].
  exact H.
Qed.

(** With the default three attempts, [apiCallWithRetry] never falls off
    its loop. *)
Lemma withRetry_result {A : Type} (apiCall : Async World A) (w : World) :
  Keeps R apiCall -> (forall ms w, 0 <= ms -> R w (advance ms w)) ->
  match fst (withRetry apiCall w) with
  | Resolved (Value a) => exists w0, R w w0 /\ fst (apiCall w0) = Resolved a
  | Resolved Undefined => False
  | Rejected error => exists w0, R w w0 /\ fst (apiCall w0) = Rejected error
  end.
Proof.
  intros Hcall Hpause.
  unfold withRetry, apiCallWithRetry, apiCallWithRetry_traced.
  destruct (retryLoop_keeps apiCall 3 RETRY_DELAY Hcall ltac:(vm_compute; discriminate)
              Hpause _ 1 w eq_refl)
    as [_ H].
  destruct (retryLoop advance apiCall 3 RETRY_DELAY 1 w) as [[r w'] tr].
  cbn [fst] in *. destruct r as [[a | ] | error]; [ exact H | lia | exact H ].
Qed.

End KeepsRules.

#[local] Instance quiet_preorder : PreOrder quiet.
Proof.
  split.
  - intros w. unfold quiet. repeat split; lia.
  - intros w1 w2 w3 (Hf & Ht & Hn) (Hf' & Ht' & Hn'). unfold quiet.
    repeat split; [ congruence | congruence | lia ].
Qed.

#[local] Instance journal_preorder (Q : TwitterCall -> Prop) :
  PreOrder (journal Q).
Proof.
  split.
  - intros w. exists []. split; [ rewrite app_nil_r; reflexivity | constructor ].
  - intros w1 w2 w3 (n1 & H1 & Q1) (n2 & H2 & Q2).
    exists (n1 ++ n2). split.
    + rewrite H2, H1, app_assoc. reflexivity.
    + apply Forall_app. split; assumption.
Qed.

Lemma quiet_journal (Q : TwitterCall -> Prop) (w w' : World) :
  quiet w w' -> journal Q w w'.
Proof.
  intros (_ & Ht & _). exists [].
  split; [ rewrite app_nil_r; exact Ht | constructor ].
Qed.

Lemma Keeps_weaken {A : Type} (R R' : World -> World -> Prop)
    (m : Async World A) :
  (forall w w', R w w' -> R' w w') -> Keeps R m -> Keeps R' m.
Proof. intros Hsub Hm w. apply Hsub, Hm. Qed.

Create HintDb keeps discriminated.

Ltac keeps :=
  repeat first
    [ progress intros
    | match goal with |- PreOrder _ => exact _ end
    | apply Keeps_ret
    | apply Keeps_throw
    | solve [ auto with keeps nocore ]
    | apply Keeps_bind
    | apply Keeps_try_catch
    | apply Keeps_withRetry
    | apply Keeps_forOf
    | match goal with
      | |- Keeps _ (match ?x with _ => _ end) => destruct x
      | |- Keeps _ (if ?x then _ else _) => destruct x
      end ].

Lemma quiet_advance (ms : Z) (w : World) : 0 <= ms -> quiet w (advance ms w).
Proof. intros H. unfold quiet, advance; cbn. repeat split; lia. Qed.

Lemma Keeps_quiet_sleep (ms : Z) : 0 <= ms -> Keeps quiet (sleep ms).
Proof. intros H w. apply quiet_advance, H. Qed.

Lemma Keeps_quiet_clock : Keeps quiet clock.
Proof. intros w. reflexivity. Qed.

Lemma Keeps_quiet_external {A : Type} (oracle : nat -> Completion A) :
  Keeps quiet (external oracle).
Proof. intros w. unfold quiet, external; cbn. repeat split; lia. Qed.

Lemma Keeps_quiet_readCheckpoint : Keeps quiet readCheckpoint.
Proof. intros w. unfold readCheckpoint. destruct (file w); reflexivity. Qed.

Lemma Keeps_quiet_toISOString (t : option Z) : Keeps quiet (toISOString t).
Proof. intros w. destruct t; reflexivity. Qed.

#[local] Hint Resolve Keeps_quiet_clock Keeps_quiet_external
  Keeps_quiet_readCheckpoint Keeps_quiet_toISOString : keeps.
#[local] Hint Extern 1 (Keeps quiet (sleep _)) =>
  (apply Keeps_quiet_sleep; unfold OPENSEA_DELAY, TWITTER_DELAY; lia) : keeps.

Lemma Keeps_quiet_getLastCheckTime : Keeps quiet getLastCheckTime.
Proof. unfold getLastCheckTime. keeps. Qed.

Lemma Keeps_quiet_shouldPostFloorAlertAfter (hours : Z) :
  Keeps quiet (shouldPostFloorAlertAfter hours).
Proof. unfold shouldPostFloorAlertAfter. keeps. Qed.

#[local] Hint Resolve Keeps_quiet_getLastCheckTime
  Keeps_quiet_shouldPostFloorAlertAfter : keeps.

#[local] Hint Resolve quiet_advance : keeps.

(** ** Checkpoint store *)

(** [updateLastFloorAlert] merges: [lastCheck] stays as stored, and
    [lastFloorAlert] becomes the time of the write when the write goes
    through. *)
Lemma updateLastFloorAlert_merges (env : Env) (w : World) :
  stored "lastCheck" (snd (updateLastFloorAlert env w)) = stored "lastCheck" w
  /\ (fsWritable env = true ->
      stored "lastFloorAlert" (snd (updateLastFloorAlert env w))
        = Some (now w)).
Proof.
  unfold updateLastFloorAlert, stored, try_catch, bind, readCheckpoint, clock,
    writeCheckpoint, ret.
  destruct (file w) as [data | ] eqn:Hfile;
    destruct (fsWritable env); cbn [snd file mbind option_bind];
    rewrite ?Hfile; cbn [mbind option_bind];
    rewrite ?lookup_insert_ne, ?lookup_insert_eq, ?lookup_empty by discriminate;
    split; first [ reflexivity | discriminate ].
Qed.

(** [updateLastCheckTime] of draft 3 merges as well. *)
Lemma Draft3_updateLastCheckTime_merges (env : Env) (w : World) :
  stored "lastFloorAlert" (snd (Draft3.updateLastCheckTime env w))
    = stored "lastFloorAlert" w
  /\ (fsWritable env = true ->
      stored "lastCheck" (snd (Draft3.updateLastCheckTime env w))
        = Some (now w)).
Proof.
  unfold Draft3.updateLastCheckTime, stored, try_catch, bind, readCheckpoint,
    clock, writeCheckpoint, ret.
  destruct (file w) as [data | ] eqn:Hfile;
    destruct (fsWritable env); cbn [snd file mbind option_bind];
    rewrite ?Hfile; cbn [mbind option_bind];
    rewrite ?lookup_insert_ne, ?lookup_insert_eq, ?lookup_empty by discriminate;
    split; first [ reflexivity | discriminate ].
Qed.

(** [updateLastCheckTime] of drafts 1 and 2 stores an object with the one
    field [lastCheck], whatever was stored. *)
Lemma updateLastCheckTime_overwrite_file (env : Env) (w : World) :
  fsWritable env = true ->
  file (snd (updateLastCheckTime_overwrite env w))
    = Some (<["lastCheck" := now w]> ∅) /\
  stored "lastFloorAlert" (snd (updateLastCheckTime_overwrite env w)) = None.
Proof.
  intros Hw.
  unfold updateLastCheckTime_overwrite, stored, bind, clock, writeCheckpoint.
  rewrite Hw. cbn [snd file mbind option_bind].
  split; [ reflexivity | ].
  rewrite lookup_insert_ne by discriminate. apply lookup_empty.
Qed.

(** C5, at the failing input: with both fields stored,
    [updateLastCheckTime] of draft 1 and of draft 2 leaves a document without
    [lastFloorAlert]; [updateLastCheckTime] of draft 3 keeps it, and
    [updateLastFloorAlert] keeps [lastCheck]. *)
Theorem updateLastCheckTime_drops_lastFloorAlert :
  stored "lastFloorAlert" sampleWorld = Some 1699990000000 /\
  stored "lastFloorAlert"
    (snd (Draft1.updateLastCheckTime (sampleEnv true []) sampleWorld)) = None /\
  stored "lastFloorAlert"
    (snd (Draft2.updateLastCheckTime (sampleEnv true []) sampleWorld)) = None /\
  stored "lastFloorAlert"
    (snd (Draft3.updateLastCheckTime (sampleEnv true []) sampleWorld))
    = Some 1699990000000 /\
  stored "lastCheck"
    (snd (updateLastFloorAlert (sampleEnv true []) sampleWorld))
    = Some 1700000000000.
Proof. repeat split; vm_compute; reflexivity. Qed.

(** ** Event fetcher *)

Lemma Keeps_quiet_Draft3_fetch_call (env : Env) :
  Keeps quiet (Draft3.fetchRecentSales_call env).
Proof. unfold Draft3.fetchRecentSales_call. keeps. Qed.

(** One attempt of draft 3: what it resolves with lies after the checkpoint
    it read, and is valid. *)
Lemma Draft3_fetch_call_after_checkpoint
    (env : Env) (w : World) (sales : list SaleEvent) :
  fst (Draft3.fetchRecentSales_call env w) = Resolved sales ->
  exists lastCheck : Z,
    match file w with
    | Some data => data !! "lastCheck" = Some lastCheck
    | None => lastCheck = now w + OPENSEA_DELAY - 60 * 60 * 1000
    end /\
    Forall (fun sale =>
              (exists ts, event_timestamp sale = Some ts
                          /\ ts > lastCheck / 1000) /\
              isValidSaleEvent sale = true) sales.
Proof.
  unfold Draft3.fetchRecentSales_call, bind, sleep, getLastCheckTime,
    try_catch, bind, readCheckpoint, clock, ret, external, toISOString, throw.
  cbn [file advance now calls].
  destruct (file w) as [data | ] eqn:Hfile.
  - match goal with
    | |- context [httpEvents env ?k ?q] =>
        destruct (httpEvents env k q) as [response | error]; [ | discriminate ]
    end.
    destruct (data !! "lastCheck") as [lastCheck | ] eqn:Hlast;
      [ | discriminate ].
    cbn [fst]. intros [= <-]. exists lastCheck. split; [ reflexivity | ].
    apply List.Forall_forall. intros sale Hin.
    apply List.filter_In in Hin as [Hin Hvalid].
    apply List.filter_In in Hin as [_ Hgt].
    split; [ | exact Hvalid ].
    cbn [fmap option_fmap option_map] in Hgt.
    destruct (event_timestamp sale) as [ts | ]; [ | discriminate ].
    exists ts. split; [ reflexivity | ].
    cbn [jsGt] in Hgt. apply Z.gtb_lt in Hgt. lia.
  - match goal with
    | |- context [httpEvents env ?k ?q] =>
        destruct (httpEvents env k q) as [response | error]; [ | discriminate ]
    end.
    cbn [fst]. intros [= <-].
    exists (now w + OPENSEA_DELAY - 60 * 60 * 1000). split; [ reflexivity | ].
    apply List.Forall_forall. intros sale Hin.
    apply List.filter_In in Hin as [Hin Hvalid].
    apply List.filter_In in Hin as [_ Hgt].
    split; [ | exact Hvalid ].
    cbn [fmap option_fmap option_map] in Hgt.
    destruct (event_timestamp sale) as [ts | ]; [ | discriminate ].
    exists ts. split; [ reflexivity | ].
    cbn [jsGt] in Hgt. apply Z.gtb_lt in Hgt. lia.
Qed.

(** X27. [fetchRecentSales] of draft 3 always resolves with a list, and every
    event of it is valid and strictly later than the checkpoint: the stored
    [lastCheck] in seconds, or one hour before the time of the read when no
    document is stored. *)
Lemma Draft3_fetchRecentSales_after_checkpoint (env : Env) (w : World) :
  exists (sales : list SaleEvent) (w' : World),
    Draft3.fetchRecentSales env w = (Resolved (Value sales), w') /\
    quiet w w' /\
    (sales = [] \/
     exists lastCheck : Z,
       match file w with
       | Some data => data !! "lastCheck" = Some lastCheck
       | None => now w - 60 * 60 * 1000 <= lastCheck
       end /\
       Forall (fun sale =>
                 (exists ts, event_timestamp sale = Some ts
                             /\ ts > lastCheck / 1000) /\
                 isValidSaleEvent sale = true) sales).
Proof.
  unfold Draft3.fetchRecentSales, try_catch.
  pose proof (Keeps_withRetry quiet _ (Keeps_quiet_Draft3_fetch_call env)
                quiet_advance w) as Hquiet.
  pose proof (withRetry_result quiet _ w (Keeps_quiet_Draft3_fetch_call env)
                quiet_advance) as Hres.
  destruct (withRetry (Draft3.fetchRecentSales_call env) w)
    as [[[sales | ] | error] w']; cbn [fst snd] in *.
  - exists sales, w'. split; [ reflexivity | ]. split; [ exact Hquiet | ].
    right. destruct Hres as (w0 & (Hfile & _ & Hnow) & Hcall).
    apply Draft3_fetch_call_after_checkpoint in Hcall
      as (lastCheck & Hlast & Hall).
    exists lastCheck. split; [ | exact Hall ].
    rewrite Hfile in Hlast. destruct (file w); [ exact Hlast | ].
    unfold OPENSEA_DELAY in Hlast. lia.
  - contradiction.
  - exists [], w'. cbn. split; [ reflexivity | ]. split; [ exact Hquiet | ].
    left. reflexivity.
Qed.

(** C4, at the failing input: the checkpoint is 1700000000 s and the
    marketplace answers with a valid sale of 1699990000 s.
    [fetchRecentSales] of draft 1 (which does not read the checkpoint) and of
    draft 2 (which sends it as [occurred_after] and keeps what comes back)
    return that sale; draft 3 filters it out and lets a later sale
    through. *)
Theorem fetchRecentSales_returns_old_events :
  fst (getLastCheckTime sampleWorld) = Resolved (Some 1700000000000) /\
  event_timestamp oldSale = Some 1699990000 /\
  isValidSaleEvent oldSale = true /\
  fst (Draft1.fetchRecentSales (sampleEnv true [oldSale]) sampleWorld)
    = Resolved (Value [oldSale]) /\
  fst (Draft2.fetchRecentSales (sampleEnv true [oldSale]) sampleWorld)
    = Resolved (Value [oldSale]) /\
  fst (Draft3.fetchRecentSales (sampleEnv true [oldSale; newSale]) sampleWorld)
    = Resolved (Value [newSale]).
Proof. repeat split; vm_compute; reflexivity. Qed.

(** ** Holder count: the pagination loop of draft 1 *)

(** One round of the [while] loop, as the source reads. *)
Lemma paginate_unroll (env : Env) (walletAddress : option string)
    (totalCount : Z) (cursor : option string) (hasMore : bool) (w : World) :
  Draft1.paginate env walletAddress totalCount cursor hasMore w =
  if hasMore && (totalCount <? 1000) then
    match external
            (fun k => httpAssets env k walletAddress
                        (if truthyStr cursor then cursor else None)) w with
    | (Rejected error, w') => (Rejected error, w')
    | (Resolved response, w') =>
        let count := Z.of_nat (length (default [] (assets response))) in
        let more := truthyStr (next response) && (count =? 200) in
        Draft1.paginate env walletAddress (totalCount + count)
          (next response) more
          (if more then advance OPENSEA_DELAY w' else w')
    end
  else (Resolved totalCount, w).
Proof.
  funelim (Draft1.paginate env walletAddress totalCount cursor hasMore w).
  - rewrite Hexit. reflexivity.
  - unfold external. rewrite Hloop.
    match goal with H : httpAssets _ _ _ _ = _ |- _ => rewrite H end.
    reflexivity.
  - unfold external. rewrite Hloop.
    match goal with H : httpAssets _ _ _ _ = _ |- _ => rewrite H end.
    reflexivity.
Qed.

(** The loop from a total of [200 * j] with [hasMore] set: at most [5 - j]
    more requests, nothing else touched, the total does not shrink, and it
    stays within 1000 when no page exceeds the limit. *)
Lemma paginate_pages (env : Env) (walletAddress : option string) (k : nat) :
  forall (j totalCount : Z) (cursor : option string) (w : World),
    totalCount = 200 * j -> 0 <= j -> Z.of_nat k + j = 5 ->
    exists (r : Completion Z) (w' : World),
      Draft1.paginate env walletAddress totalCount cursor true w = (r, w') /\
      quiet w w' /\
      (calls w' <= calls w + k)%nat /\
      match r with
      | Resolved total =>
          totalCount <= total /\ (honoursPageLimit env -> total <= 1000)
      | Rejected _ => True
      end.
Proof.
  induction k as [ | k IH ]; intros j totalCount cursor w Htotal Hj Hk.
  - rewrite paginate_unroll.
    destruct (Z.ltb_spec totalCount 1000); [ lia | ].
    cbn [andb]. exists (Resolved totalCount), w.
    split; [ reflexivity | ]. split; [ reflexivity | ].
    split; [ lia | ]. split; [ lia | intros _; lia ].
  - rewrite paginate_unroll.
    destruct (Z.ltb_spec totalCount 1000); [ | lia ].
    cbn [andb]. unfold external.
    set (query := if truthyStr cursor then cursor else None).
    set (w1 := {| file := file w; now := now w; calls := S (calls w);
                  twitter := twitter w |}).
    assert (Hw1 : quiet w w1) by (unfold quiet; cbn; repeat split; lia).
    destruct (httpAssets env (calls w) walletAddress query)
      as [response | error] eqn:Hpage.
    + cbv zeta.
      set (count := Z.of_nat (length (default [] (assets response)))).
      assert (Hcount : 0 <= count) by (unfold count; lia).
      destruct (truthyStr (next response)); cbn [andb].
      * destruct (Z.eqb_spec count 200) as [E | E].
        -- destruct (IH (j + 1) (totalCount + count) (next response)
                       (advance OPENSEA_DELAY w1))
             as (r & w' & Hrun & Hq & Hc & Hr); [ lia | lia | lia | ].
           exists r, w'. split; [ exact Hrun | ].
           split.
           { etransitivity; [ exact Hw1 | ].
             etransitivity; [ | exact Hq ].
             apply quiet_advance. unfold OPENSEA_DELAY. lia. }
           split; [ unfold w1 in Hc; cbn [advance calls] in Hc; lia | ].
           destruct r as [total | error]; [ | exact I ].
           destruct Hr as [Hle Hlim]. split; [ lia | exact Hlim ].
        -- rewrite paginate_unroll. cbn [andb].
           exists (Resolved (totalCount + count)), w1.
           split; [ reflexivity | ].
           split; [ exact Hw1 | ]. split; [ cbn; lia | ].
           split; [ lia | ]. intros Hlimit.
           specialize (Hlimit _ _ _ _ Hpage). unfold count. lia.
      * rewrite paginate_unroll. cbn [andb].
        exists (Resolved (totalCount + count)), w1.
        split; [ reflexivity | ].
        split; [ exact Hw1 | ]. split; [ cbn; lia | ].
        split; [ lia | ]. intros Hlimit.
        specialize (Hlimit _ _ _ _ Hpage). unfold count. lia.
    + exists (Rejected error), w1. split; [ reflexivity | ].
      split; [ exact Hw1 | ]. split; [ cbn; lia | exact I ].
Qed.

Lemma Keeps_quiet_paginate (env : Env) (walletAddress : option string) :
  Keeps quiet (Draft1.paginate env walletAddress 0 None true).
Proof.
  intros w.
  destruct (paginate_pages env walletAddress 5 0 0 None w)
    as (r & w' & Hrun & H & _); [ lia | lia | lia | ].
  rewrite Hrun. exact H.
Qed.

#[local] Hint Resolve Keeps_quiet_paginate : keeps.

Lemma Keeps_quiet_getHolderNFTCount_call
    (env : Env) (walletAddress : option string) :
  Keeps quiet (Draft1.getHolderNFTCount_call env walletAddress).
Proof. unfold Draft1.getHolderNFTCount_call. keeps. Qed.

(** One attempt of [getHolderNFTCount]: what it resolves with. *)
Lemma getHolderNFTCount_call_range
    (env : Env) (walletAddress : option string) (w : World) (count : Z) :
  fst (Draft1.getHolderNFTCount_call env walletAddress w) = Resolved count ->
  1 <= count /\ (honoursPageLimit env -> count <= 1000).
Proof.
  unfold Draft1.getHolderNFTCount_call, bind, sleep, ret.
  destruct (paginate_pages env walletAddress 5 0 0 None
              (advance OPENSEA_DELAY w)) as (r & w1 & Hrun & _ & _ & Hr);
    [ lia | lia | lia | ].
  rewrite Hrun. destruct r as [total | error]; cbn [fst]; [ | discriminate ].
  intros [= <-]. destruct Hr as [Hle Hlim].
  split; [ lia | ]. intros Hlimit. specialize (Hlim Hlimit). lia.
Qed.

(** C10, counterexample: the count is not always within 1000.  The loop
    adds the length of whatever page it is handed, and tests the total
    against 1000 only before asking for the next page: one page of 1200
    assets gives 1200, after a single request. *)
Lemma getHolderNFTCount_exceeds_1000 :
  Draft1.getHolderNFTCount oversizedPageEnv (Some "0x7a9b") sampleWorld
    = (Resolved (Value 1200), afterRequest OPENSEA_DELAY sampleWorld).
Proof. vm_compute. reflexivity. Qed.

(** C10, amended. For every marketplace, the pagination loop of
    [getHolderNFTCount] ends after at most five page requests (a round
    continues only below 1000 and after a page of exactly 200, so the total
    climbs by 200 per continuing round), [getHolderNFTCount] always resolves
    with a count of at least 1, and the count is at most 1000 when no page
    holds more than the 200 assets the request asks for. *)
Theorem getHolderNFTCount_terminates_in_range
    (env : Env) (walletAddress : option string) (w : World) :
  (exists (r : Completion Z) (w1 : World),
     Draft1.paginate env walletAddress 0 None true w = (r, w1) /\
     (calls w1 <= calls w + 5)%nat /\
     match r with
     | Resolved total =>
         0 <= total /\ (honoursPageLimit env -> total <= 1000)
     | Rejected _ => True
     end) /\
  exists (count : Z) (w' : World),
    Draft1.getHolderNFTCount env walletAddress w
      = (Resolved (Value count), w') /\
    1 <= count /\
    (honoursPageLimit env -> count <= 1000).
Proof.
  split.
  - destruct (paginate_pages env walletAddress 5 0 0 None w)
      as (r & w1 & Hrun & _ & Hc & Hr); [ lia | lia | lia | ].
    exists r, w1. split; [ exact Hrun | ]. split; [ exact Hc | exact Hr ].
  - unfold Draft1.getHolderNFTCount, try_catch.
    pose proof (withRetry_result quiet _ w
                  (Keeps_quiet_getHolderNFTCount_call env walletAddress)
                  quiet_advance) as Hres.
    destruct (withRetry (Draft1.getHolderNFTCount_call env walletAddress) w)
      as [[[count | ] | error] w']; cbn [fst] in Hres.
    + exists count, w'. split; [ reflexivity | ].
      destruct Hres as (w0 & _ & Hcall).
      exact (getHolderNFTCount_call_range env walletAddress w0 count Hcall).
    + contradiction.
    + exists 1, w'. cbn. split; [ reflexivity | ].
      split; [ lia | intros _; lia ].
Qed.

Lemma honoursPageLimit_fullPagesEnv : honoursPageLimit fullPagesEnv.
Proof.
  intros k owner cursor page H. injection H as <-.
  apply Nat.leb_le. vm_compute. reflexivity.
Defined.

Lemma getHolderNFTCount_terminates_in_range_witness :
  honoursPageLimit fullPagesEnv /\
  fst (Draft1.getHolderNFTCount fullPagesEnv (Some "0x7a9b") sampleWorld)
    = Resolved (Value 1000) /\
  exists (count : Z) (w' : World),
    Draft1.getHolderNFTCount fullPagesEnv (Some "0x7a9b") sampleWorld
      = (Resolved (Value count), w') /\
    1 <= count <= 1000.
Proof.
  split; [ exact honoursPageLimit_fullPagesEnv | ].
  split; [ vm_compute; reflexivity | ].
  destruct (getHolderNFTCount_terminates_in_range fullPagesEnv
              (Some "0x7a9b") sampleWorld)
    as (_ & count & w' & Hrun & Hlow & Hhigh).
  exists count, w'. split; [ exact Hrun | ].
  split; [ exact Hlow | exact (Hhigh honoursPageLimit_fullPagesEnv) ].
Defined.

(** ** Effects on the Twitter journal *)

Lemma Keeps_journal_quiet {A : Type} (Q : TwitterCall -> Prop)
    (m : Async World A) :
  Keeps quiet m -> Keeps (journal Q) m.
Proof. apply Keeps_weaken. intros w w'. apply quiet_journal. Qed.

Lemma journal_advance (Q : TwitterCall -> Prop) (ms : Z) (w : World) :
  0 <= ms -> journal Q w (advance ms w).
Proof. intros H. apply quiet_journal, quiet_advance, H. Qed.

Lemma Keeps_journal_writeCheckpoint (Q : TwitterCall -> Prop) (env : Env)
    (data : gmap string Z) :
  Keeps (journal Q) (writeCheckpoint env data).
Proof.
  intros w. unfold writeCheckpoint. exists [].
  destruct (fsWritable env); cbn [snd twitter];
    (split; [ rewrite app_nil_r; reflexivity | constructor ]).
Qed.

Lemma Keeps_journal_uploadMedia (Q : TwitterCall -> Prop) (env : Env)
    (m : Media) :
  (forall ok, Q (UploadMedia m ok)) -> Keeps (journal Q) (uploadMedia env m).
Proof.
  intros HQ w. unfold uploadMedia. cbn [snd twitter].
  eexists. split; [ reflexivity | ]. constructor; [ apply HQ | constructor ].
Qed.

Lemma Keeps_journal_tweet (Q : TwitterCall -> Prop) (env : Env) (t : Tweet) :
  (forall ok, Q (PostTweet t ok)) -> Keeps (journal Q) (tweet env t).
Proof.
  intros HQ w. unfold tweet. cbn [snd twitter].
  eexists. split; [ reflexivity | ]. constructor; [ apply HQ | constructor ].
Qed.

#[local] Hint Resolve Keeps_journal_writeCheckpoint journal_advance : keeps.
#[local] Hint Extern 5 (Keeps (journal _) _) =>
  (apply Keeps_journal_quiet; solve [ auto with keeps nocore ]) : keeps.
#[local] Hint Extern 2 (Keeps (journal _) (uploadMedia _ _)) =>
  (apply Keeps_journal_uploadMedia; intros ?; reflexivity) : keeps.
#[local] Hint Extern 2 (Keeps (journal _) (tweet _ _)) =>
  (apply Keeps_journal_tweet; intros ?; reflexivity) : keeps.

Lemma Keeps_quiet_getHolderNFTCount_v2 (env : Env) (walletAddress : string) :
  Keeps quiet (getHolderNFTCount_v2 env walletAddress).
Proof. unfold getHolderNFTCount_v2. keeps. Qed.

Lemma Keeps_quiet_getSellerNFTCount_v2 (env : Env) (walletAddress : string) :
  Keeps quiet (getSellerNFTCount_v2 env walletAddress).
Proof. unfold getSellerNFTCount_v2. keeps. Qed.

#[local] Hint Resolve Keeps_quiet_getHolderNFTCount_v2
  Keeps_quiet_getSellerNFTCount_v2 : keeps.

Lemma Keeps_quiet_sellerInfo (count : string -> Async World (JsReturn Z))
    (sellerAddress : option string) :
  (forall address, Keeps quiet (count address)) ->
  Keeps quiet (sellerInfo count sellerAddress).
Proof. intros H. unfold sellerInfo. keeps. Qed.

#[local] Hint Resolve Keeps_quiet_sellerInfo : keeps.

Lemma Keeps_quiet_Draft2_fetch_call (env : Env) :
  Keeps quiet (Draft2.fetchRecentSales_call env).
Proof. unfold Draft2.fetchRecentSales_call. keeps. Qed.

Lemma Keeps_quiet_Draft1_fetch_call (env : Env) :
  Keeps quiet (Draft1.fetchRecentSales_call env).
Proof. unfold Draft1.fetchRecentSales_call. keeps. Qed.

#[local] Hint Resolve Keeps_quiet_Draft1_fetch_call
  Keeps_quiet_Draft2_fetch_call Keeps_quiet_Draft3_fetch_call : keeps.

Lemma Keeps_quiet_Draft1_fetchRecentSales (env : Env) :
  Keeps quiet (Draft1.fetchRecentSales env).
Proof. unfold Draft1.fetchRecentSales. keeps. Qed.

Lemma Keeps_quiet_Draft2_fetchRecentSales (env : Env) :
  Keeps quiet (Draft2.fetchRecentSales env).
Proof. unfold Draft2.fetchRecentSales. keeps. Qed.

Lemma Keeps_quiet_Draft3_fetchRecentSales (env : Env) :
  Keeps quiet (Draft3.fetchRecentSales env).
Proof. unfold Draft3.fetchRecentSales. keeps. Qed.

Lemma Keeps_noFloor_uploadNftImage (env : Env) (url : option string) :
  Keeps (journal noFloorCall) (uploadNftImage env url).
Proof. unfold uploadNftImage. keeps. Qed.

Lemma Keeps_noFloor_tweetWithFallback (env : Env) (sale : SaleEvent)
    (post : SalePost) (mediaIds : list string) :
  Keeps (journal noFloorCall)
    (tweetWithFallback env (SaleAlert sale post) mediaIds).
Proof. unfold tweetWithFallback. keeps. Qed.

#[local] Hint Resolve Keeps_noFloor_uploadNftImage
  Keeps_noFloor_tweetWithFallback : keeps.

Lemma Keeps_noFloor_processSale_v2 (status : string -> string -> string)
    (env : Env) (sale : SaleEvent) :
  Keeps (journal noFloorCall) (processSale_v2 status env sale).
Proof. unfold processSale_v2. keeps. Qed.

Lemma Keeps_noFloor_overwrite (env : Env) :
  Keeps (journal noFloorCall) (updateLastCheckTime_overwrite env).
Proof. unfold updateLastCheckTime_overwrite. keeps. Qed.

Lemma Keeps_noFloor_Draft3_updateLastCheckTime (env : Env) :
  Keeps (journal noFloorCall) (Draft3.updateLastCheckTime env).
Proof. unfold Draft3.updateLastCheckTime. keeps. Qed.

(** A run that starts with [m] resolving at [w]: what the continuation
    keeps from there, the whole keeps from [w]. *)
Lemma Keeps_bind_at {A B : Type} (R : World -> World -> Prop) `{!PreOrder R}
    (m : Async World A) (k : A -> Async World B) (w w1 : World) (a : A) :
  m w = (Resolved a, w1) -> R w w1 -> R w1 (snd (k a w1)) ->
  R w (snd (bind m k w)).
Proof.
  intros Hm Hw Hk. unfold bind. rewrite Hm.
  etransitivity; [ exact Hw | exact Hk ].
Qed.

Lemma Keeps_at {A : Type} (R : World -> World -> Prop) (m : Async World A)
    (w : World) :
  Keeps R m -> R w (snd (m w)).
Proof. intros H. apply H. Qed.

Lemma Keeps_try_catch_at {A : Type} (R : World -> World -> Prop)
    `{!PreOrder R} (m : Async World A) (h : string -> Async World A)
    (w : World) :
  R w (snd (m w)) -> (forall error, Keeps R (h error)) ->
  R w (snd (try_catch m h w)).
Proof.
  intros Hm Hh. unfold try_catch.
  destruct (m w) as [[a | error] w1]; cbn [snd] in *.
  - exact Hm.
  - etransitivity; [ exact Hm | apply Hh ].
Qed.

Lemma Keeps_quiet_getFloorPriceNFT (withSeller : bool) (env : Env) :
  Keeps quiet (getFloorPriceNFT withSeller env).
Proof. unfold getFloorPriceNFT. keeps. Qed.

Lemma Keeps_quiet_Draft1_getHolderNFTCount
    (env : Env) (walletAddress : option string) :
  Keeps quiet (Draft1.getHolderNFTCount env walletAddress).
Proof.
  unfold Draft1.getHolderNFTCount.
  pose proof (Keeps_quiet_getHolderNFTCount_call env walletAddress).
  keeps.
Qed.

Lemma Keeps_quiet_Draft1_getSellerNFTCount
    (env : Env) (walletAddress : option string) :
  Keeps quiet (Draft1.getSellerNFTCount env walletAddress).
Proof. unfold Draft1.getSellerNFTCount. keeps. Qed.

Lemma Keeps_quiet_Draft1_getNFTImageUrl
    (env : Env) (contractAddress : string) (tokenId : option string) :
  Keeps quiet (Draft1.getNFTImageUrl env contractAddress tokenId).
Proof. unfold Draft1.getNFTImageUrl. keeps. Qed.

Lemma Keeps_quiet_Draft1_createSaleImage (env : Env) (sale : SaleEvent) :
  Keeps quiet (Draft1.createSaleImage env sale).
Proof. unfold Draft1.createSaleImage. keeps. Qed.

#[local] Hint Resolve Keeps_quiet_getFloorPriceNFT
  Keeps_quiet_Draft1_getHolderNFTCount Keeps_quiet_Draft1_getSellerNFTCount
  Keeps_quiet_Draft1_getNFTImageUrl Keeps_quiet_Draft1_createSaleImage : keeps.

Lemma Keeps_noFloor_Draft1_processSale (env : Env) (sale : SaleEvent) :
  Keeps (journal noFloorCall) (Draft1.processSale env sale).
Proof. unfold Draft1.processSale. keeps. Qed.

#[local] Hint Resolve Keeps_noFloor_processSale_v2 Keeps_noFloor_overwrite
  Keeps_noFloor_Draft3_updateLastCheckTime Keeps_noFloor_Draft1_processSale
  : keeps.

(** ** The pipeline: floor alert and sales *)

(** Drafts 2 and 3: after a fetch that found sales, the run makes no call
    for the floor alert. *)
Lemma Draft2_no_floor_call_with_sales
    (env : Env) (w w1 : World) (sales : list SaleEvent) :
  Draft2.fetchRecentSales env w = (Resolved (Value sales), w1) ->
  sales <> [] ->
  journal noFloorCall w (snd (Draft2.runBot env w)).
Proof.
  intros Hfetch Hsales. unfold Draft2.runBot.
  apply Keeps_try_catch_at; [ exact _ | | intros; apply Keeps_ret; exact _ ].
  apply (Keeps_bind_at (journal noFloorCall) _ _ w w1 (Value sales) Hfetch).
  { apply quiet_journal.
    pose proof (Keeps_quiet_Draft2_fetchRecentSales env w) as H.
    rewrite Hfetch in H. exact H. }
  destruct sales as [ | sale sales ]; [ contradiction | ].
  apply (Keeps_at (journal noFloorCall)).
  apply Keeps_bind; [ exact _ | unfold Draft2.shouldPostFloorAlert; keeps | ].
  intros shouldAlert. cbn [length Nat.eqb andb]. rewrite andb_false_r.
  unfold Draft2.updateLastCheckTime, Draft2.processSale. keeps.
Qed.

Lemma Draft3_no_floor_call_with_sales
    (env : Env) (w w1 : World) (sales : list SaleEvent) :
  Draft3.fetchRecentSales env w = (Resolved (Value sales), w1) ->
  sales <> [] ->
  journal noFloorCall w (snd (Draft3.runBot env w)).
Proof.
  intros Hfetch Hsales. unfold Draft3.runBot.
  apply Keeps_try_catch_at; [ exact _ | | intros; apply Keeps_ret; exact _ ].
  apply (Keeps_bind_at (journal noFloorCall) _ _ w w1 (Value sales) Hfetch).
  { apply quiet_journal.
    pose proof (Keeps_quiet_Draft3_fetchRecentSales env w) as H.
    rewrite Hfetch in H. exact H. }
  destruct sales as [ | sale sales ]; [ contradiction | ].
  apply (Keeps_at (journal noFloorCall)).
  apply Keeps_bind; [ exact _ | unfold Draft3.shouldPostFloorAlert; keeps | ].
  intros shouldAlert. cbn [length Nat.eqb andb]. rewrite andb_false_r.
  unfold Draft3.processSale. keeps.
Qed.

(** Draft 1: when the time gate is not due, the run makes no call for the
    floor alert. *)
Lemma Draft1_no_floor_call_before_due
    (env : Env) (w w1 w2 : World) (sales : list SaleEvent) :
  Draft1.fetchRecentSales env w = (Resolved (Value sales), w1) ->
  Draft1.shouldPostFloorAlert w1 = (Resolved false, w2) ->
  journal noFloorCall w (snd (Draft1.runBot env w)).
Proof.
  intros Hfetch Hgate. unfold Draft1.runBot.
  apply Keeps_try_catch_at; [ exact _ | | intros; apply Keeps_ret; exact _ ].
  apply (Keeps_bind_at (journal noFloorCall) _ _ w w1 (Value sales) Hfetch).
  { apply quiet_journal.
    pose proof (Keeps_quiet_Draft1_fetchRecentSales env w) as H.
    rewrite Hfetch in H. exact H. }
  apply (Keeps_bind_at (journal noFloorCall) _ _ w1 w2 false Hgate).
  { apply quiet_journal.
    pose proof (Keeps_quiet_shouldPostFloorAlertAfter 20 w1) as H.
    fold Draft1.shouldPostFloorAlert in H. rewrite Hgate in H. exact H. }
  apply (Keeps_at (journal noFloorCall)).
  unfold Draft1.updateLastCheckTime. keeps.
Qed.


(** C6, counterexample: in draft 1, with no checkpoint stored (so the time
    gate is due) and one valid sale fetched, the run publishes the floor
    alert. *)
Lemma Draft1_floor_alert_beside_sales :
  fst (Draft1.fetchRecentSales (sampleEnv true [newSale]) freshWorld)
    = Resolved (Value [newSale]) /\
  existsb floorPublished
    (newCalls freshWorld
       (snd (Draft1.runBot (sampleEnv true [newSale]) freshWorld))) = true.
Proof. split; vm_compute; reflexivity. Qed.

(** C6, amended. In drafts 2 and 3, whose alert branch is guarded by
    [shouldAlert && sales.length === 0], a run whose fetch found one or more
    qualifying sales makes no call for the floor alert, due or not: an alert
    goes out only on an empty batch.  In draft 1, whose guard is
    [shouldAlert] alone, a run makes no call for the floor alert unless the
    time gate is due, with or without sales. *)
Theorem floor_alert_gating (env : Env) (w : World) :
  (forall sales w1,
     Draft2.fetchRecentSales env w = (Resolved (Value sales), w1) ->
     sales <> [] ->
     journal noFloorCall w (snd (Draft2.runBot env w))) /\
  (forall sales w1,
     Draft3.fetchRecentSales env w = (Resolved (Value sales), w1) ->
     sales <> [] ->
     journal noFloorCall w (snd (Draft3.runBot env w))) /\
  (forall sales w1 w2,
     Draft1.fetchRecentSales env w = (Resolved (Value sales), w1) ->
     Draft1.shouldPostFloorAlert w1 = (Resolved false, w2) ->
     journal noFloorCall w (snd (Draft1.runBot env w))).
Proof.
  split; [ | split ].
  - intros sales w1. apply Draft2_no_floor_call_with_sales.
  - intros sales w1. apply Draft3_no_floor_call_with_sales.
  - intros sales w1 w2. apply Draft1_no_floor_call_before_due.
Qed.

(** The two branches at work: on an empty batch with the alert due, drafts 2
    and 3 publish the alert, and with a sale fetched they publish the sale
    and no alert. *)
Lemma floor_alert_runs :
  existsb floorPublished
    (newCalls freshWorld (snd (Draft2.runBot (sampleEnv true []) freshWorld)))
    = true /\
  existsb floorPublished
    (newCalls freshWorld (snd (Draft3.runBot (sampleEnv true []) freshWorld)))
    = true /\
  map isFloorCall
    (newCalls freshWorld
       (snd (Draft2.runBot (sampleEnv true [newSale]) freshWorld)))
    = [false] /\
  map isFloorCall
    (newCalls freshWorld
       (snd (Draft3.runBot (sampleEnv true [newSale]) freshWorld)))
    = [false].
Proof. repeat split; vm_compute; reflexivity. Qed.

Lemma floor_alert_gating_witness :
  journal noFloorCall freshWorld
    (snd (Draft2.runBot (sampleEnv true [newSale]) freshWorld)) /\
  journal noFloorCall sampleWorld
    (snd (Draft1.runBot (sampleEnv true [newSale]) sampleWorld)).
Proof.
  split.
  - destruct (floor_alert_gating (sampleEnv true [newSale]) freshWorld)
      as (H2 & _ & _).
    apply (H2 [newSale]
             (snd (Draft2.fetchRecentSales (sampleEnv true [newSale])
                     freshWorld))).
    + vm_compute. reflexivity.
    + discriminate.
  - destruct (floor_alert_gating (sampleEnv true [newSale]) sampleWorld)
      as (_ & _ & H1).
    apply (H1 [newSale]
             (snd (Draft1.fetchRecentSales (sampleEnv true [newSale])
                     sampleWorld))
             (snd (Draft1.shouldPostFloorAlert
                     (snd (Draft1.fetchRecentSales (sampleEnv true [newSale])
                             sampleWorld))))).
    + vm_compute. reflexivity.
    + vm_compute. reflexivity.
Defined.

(** ** The pipeline: the batch of a run *)

Lemma Resolves_ret {A : Type} (a : A) : Resolves (ret a).
Proof. intros w. exists a, w. reflexivity. Qed.

Lemma Resolves_bind {A B : Type} (m : Async World A)
    (k : A -> Async World B) :
  Resolves m -> (forall a, Resolves (k a)) -> Resolves (bind m k).
Proof.
  intros Hm Hk w. unfold bind.
  destruct (Hm w) as (a & w1 & ->). apply Hk.
Qed.

Lemma Resolves_try_catch {A : Type} (m : Async World A)
    (h : string -> Async World A) :
  (forall error, Resolves (h error)) -> Resolves (try_catch m h).
Proof.
  intros Hh w. unfold try_catch.
  destruct (m w) as [[a | error] w1]; [ exists a, w1; reflexivity | apply Hh ].
Qed.

Lemma Resolves_getHolderNFTCount_v2 (env : Env) (walletAddress : string) :
  Resolves (getHolderNFTCount_v2 env walletAddress).
Proof. apply Resolves_try_catch. intros _. apply Resolves_ret. Qed.

Lemma Resolves_getSellerNFTCount_v2 (env : Env) (walletAddress : string) :
  Resolves (getSellerNFTCount_v2 env walletAddress).
Proof. apply Resolves_try_catch. intros _. apply Resolves_ret. Qed.

Lemma Resolves_sellerInfo (count : string -> Async World (JsReturn Z))
    (sellerAddress : option string) :
  (forall address, Resolves (count address)) ->
  Resolves (sellerInfo count sellerAddress).
Proof.
  intros H. unfold sellerInfo.
  destruct sellerAddress as [address | ]; [ | apply Resolves_ret ].
  destruct (truthyStr (Some address)); [ | apply Resolves_ret ].
  apply Resolves_bind; [ apply H | intros; apply Resolves_ret ].
Qed.

(** The image step never rejects, and adds at most uploads of images. *)
Lemma uploadNftImage_appends (env : Env) (url : option string) (w : World) :
  exists (ids : list string) (uploads : list TwitterCall) (w' : World),
    uploadNftImage env url w = (Resolved ids, w') /\
    twitter w' = twitter w ++ uploads /\
    Forall imageUpload uploads.
Proof.
  unfold uploadNftImage.
  destruct url as [address | ];
    [ | exists [], [], w; rewrite app_nil_r; repeat split; constructor ].
  destruct (truthyStr (Some address));
    [ | exists [], [], w; rewrite app_nil_r; repeat split; constructor ].
  unfold try_catch, bind, external, uploadMedia, ret.
  destruct (httpImage env (calls w) address) as [ [] | error ].
  - cbn [calls twitter].
    destruct (twitterUpload env (S (calls w)) (NftImage address))
      as [id | error]; cbn [isResolved].
    + eexists [id], [_], _. split; [ reflexivity | ].
      split; [ reflexivity | ].
      constructor; [ eexists _, _; reflexivity | constructor ].
    + eexists [], [_], _. split; [ reflexivity | ].
      split; [ reflexivity | ].
      constructor; [ eexists _, _; reflexivity | constructor ].
  - eexists [], [], _. split; [ reflexivity | ].
    cbn [twitter]. rewrite app_nil_r. split; [ reflexivity | constructor ].
Qed.

(** The posting step never rejects, and adds one tweet of the given text,
    or two when the first failed and carried media. *)
Lemma tweetWithFallback_appends (env : Env) (body : TweetText)
    (mediaIds : list string) (w : World) :
  exists (tweets : list TwitterCall) (w' : World),
    tweetWithFallback env body mediaIds w = (Resolved tt, w') /\
    twitter w' = twitter w ++ tweets /\
    tweets <> [] /\
    Forall (fun c => exists media ok,
                c = PostTweet {| text := body; media_ids := media |} ok)
      tweets.
Proof.
  unfold tweetWithFallback, try_catch, tweet, ret.
  destruct (twitterTweet env (calls w)
              {| text := body; media_ids := mediaIds |}) as [ [] | error ].
  - eexists [_], _. split; [ reflexivity | ]. split; [ reflexivity | ].
    split; [ discriminate | ].
    constructor; [ eexists _, _; reflexivity | constructor ].
  - destruct (0 <? length mediaIds)%nat.
    + cbn [calls twitter].
      destruct (twitterTweet env (S (calls w))
                  {| text := body; media_ids := [] |}) as [ [] | error' ].
      * eexists [_; _], _. split; [ reflexivity | ].
        cbn [twitter]. rewrite <- app_assoc. split; [ reflexivity | ].
        split; [ discriminate | ].
        repeat constructor; eexists _, _; reflexivity.
      * eexists [_; _], _. split; [ reflexivity | ].
        cbn [twitter]. rewrite <- app_assoc. split; [ reflexivity | ].
        split; [ discriminate | ].
        repeat constructor; eexists _, _; reflexivity.
    + eexists [_], _. split; [ reflexivity | ]. split; [ reflexivity | ].
      split; [ discriminate | ].
      constructor; [ eexists _, _; reflexivity | constructor ].
Qed.

(** The loop body of drafts 2 and 3 on a valid sale: it returns, having made
    one publishing attempt for that sale. *)
Lemma processSale_v2_attempt (status : string -> string -> string)
    (env : Env) (sale : SaleEvent) (w : World) :
  isValidSaleEvent sale = true ->
  exists (segment : list TwitterCall) (w' : World),
    processSale_v2 status env sale w = (Resolved tt, w') /\
    twitter w' = twitter w ++ segment /\
    publishAttempt sale segment.
Proof.
  intros Hvalid.
  apply isValidSaleEvent_true in Hvalid as (_ & Hnft & Hbuyer & _).
  unfold processSale_v2.
  destruct (buyer sale) as [buyerAddress | ]; [ | discriminate ].
  rewrite Hbuyer. cbn [negb].
  unfold bind at 1.
  destruct (Resolves_getHolderNFTCount_v2 env buyerAddress w)
    as (buyerCount & w1 & E1).
  pose proof (Keeps_quiet_getHolderNFTCount_v2 env buyerAddress w) as Q1.
  rewrite E1 in Q1 |- *. cbn [snd] in Q1.
  unfold bind at 1.
  destruct (Resolves_sellerInfo (getSellerNFTCount_v2 env) (seller sale)
              (Resolves_getSellerNFTCount_v2 env) w1)
    as (sellerPair & w2 & E2).
  pose proof (Keeps_quiet_sellerInfo (getSellerNFTCount_v2 env) (seller sale)
                (Keeps_quiet_getSellerNFTCount_v2 env) w1) as Q2.
  rewrite E2 in Q2 |- *. cbn [snd] in Q2.
  destruct (nft sale) as [saleNft | ]; [ | discriminate ].
  unfold try_catch at 1. unfold bind at 1.
  destruct (uploadNftImage_appends env (nft_image_url saleNft) w2)
    as (ids & uploads & w3 & E3 & T3 & F3).
  rewrite E3. unfold bind at 1.
  match goal with
  | |- context [tweetWithFallback env ?body ids w3] =>
      destruct (tweetWithFallback_appends env body ids w3)
        as (tweets & w4 & E4 & T4 & N4 & F4)
  end.
  rewrite E4. unfold sleep.
  exists (uploads ++ tweets), (advance TWITTER_DELAY w4).
  split; [ reflexivity | ]. split.
  - cbn [advance twitter]. rewrite T4, T3.
    destruct Q2 as (_ & -> & _). destruct Q1 as (_ & -> & _).
    rewrite app_assoc. reflexivity.
  - exists uploads, tweets. repeat split; try assumption.
    eapply Forall_impl; [ exact F4 | ].
    intros c (media & ok & ->). eexists _, media, ok. reflexivity.
Qed.

(** The [for] loop over valid sales: one publishing attempt per sale, in
    the order of the list, and nothing else. *)
Lemma forOf_processSale_v2 (status : string -> string -> string) (env : Env)
    (sales : list SaleEvent) :
  Forall (fun sale => isValidSaleEvent sale = true) sales ->
  forall w,
  exists (segments : list (list TwitterCall)) (w' : World),
    forOf sales (processSale_v2 status env) w = (Resolved tt, w') /\
    twitter w' = twitter w ++ concat segments /\
    Forall2 publishAttempt sales segments.
Proof.
  induction 1 as [ | sale sales Hsale _ IH ]; intros w.
  - exists [], w. cbn. rewrite app_nil_r. repeat split. constructor.
  - cbn [forOf]. unfold bind.
    destruct (processSale_v2_attempt status env sale w Hsale)
      as (segment & w1 & E1 & T1 & P1).
    rewrite E1.
    destruct (IH w1) as (segments & w' & E & T & P).
    exists (segment :: segments), w'. split; [ exact E | ].
    split; [ | constructor; assumption ].
    rewrite T, T1. cbn [concat]. rewrite app_assoc. reflexivity.
Qed.

Lemma journal_noCall (w w' : World) :
  journal noCall w w' -> twitter w' = twitter w.
Proof.
  intros (new & -> & Hnew). destruct new as [ | c new ].
  - apply app_nil_r.
  - inversion Hnew as [ | ? ? Hc _ ]. destruct Hc.
Qed.

Lemma snd_try_catch_ret {A : Type} (m : Async World A) (a : A) (w : World) :
  snd (try_catch m (fun _ => ret a) w) = snd (m w).
Proof. unfold try_catch, ret. destruct (m w) as [[ ? | ? ] ?]; reflexivity. Qed.

Lemma Resolves_shouldPostFloorAlertAfter (hours : Z) :
  Resolves (shouldPostFloorAlertAfter hours).
Proof. apply Resolves_try_catch. intros _. apply Resolves_ret. Qed.

Lemma Keeps_noCall_overwrite (env : Env) :
  Keeps (journal noCall) (updateLastCheckTime_overwrite env).
Proof. unfold updateLastCheckTime_overwrite. keeps. Qed.

Lemma Keeps_noCall_Draft3_updateLastCheckTime (env : Env) :
  Keeps (journal noCall) (Draft3.updateLastCheckTime env).
Proof. unfold Draft3.updateLastCheckTime. keeps. Qed.

Lemma filter_valid (l : list SaleEvent) :
  Forall (fun sale => isValidSaleEvent sale = true)
    (List.filter isValidSaleEvent l).
Proof.
  apply List.Forall_forall. intros sale Hin.
  apply List.filter_In in Hin as [_ H]. exact H.
Qed.

Lemma Draft2_fetch_call_valid (env : Env) (w : World)
    (sales : list SaleEvent) :
  fst (Draft2.fetchRecentSales_call env w) = Resolved sales ->
  Forall (fun sale => isValidSaleEvent sale = true) sales.
Proof.
  unfold Draft2.fetchRecentSales_call, bind, sleep, ret.
  destruct (getLastCheckTime (advance OPENSEA_DELAY w)) as [[lastCheck | ] w1];
    [ | discriminate ].
  destruct (external _ w1) as [[response | ] w2]; [ | discriminate ].
  destruct (toISOString lastCheck w2) as [[ [] | ] w3]; [ | discriminate ].
  cbn [fst]. intros [= <-]. apply filter_valid.
Qed.

Lemma Draft3_fetch_call_valid (env : Env) (w : World)
    (sales : list SaleEvent) :
  fst (Draft3.fetchRecentSales_call env w) = Resolved sales ->
  Forall (fun sale => isValidSaleEvent sale = true) sales.
Proof.
  unfold Draft3.fetchRecentSales_call, bind, sleep, ret.
  destruct (getLastCheckTime (advance OPENSEA_DELAY w)) as [[lastCheck | ] w1];
    [ | discriminate ].
  destruct (external _ w1) as [[response | ] w2]; [ | discriminate ].
  destruct (toISOString lastCheck w2) as [[ [] | ] w3]; [ | discriminate ].
  cbn [fst]. intros [= <-]. apply filter_valid.
Qed.

(** What [fetchRecentSales] hands to [runBot] is valid, in drafts 2
    and 3. *)
Lemma Draft2_fetchRecentSales_valid (env : Env) (w w1 : World)
    (sales : list SaleEvent) :
  Draft2.fetchRecentSales env w = (Resolved (Value sales), w1) ->
  Forall (fun sale => isValidSaleEvent sale = true) sales.
Proof.
  unfold Draft2.fetchRecentSales, try_catch.
  pose proof (withRetry_result quiet _ w (Keeps_quiet_Draft2_fetch_call env)
                quiet_advance) as Hres.
  destruct (withRetry (Draft2.fetchRecentSales_call env) w)
    as [[[found | ] | error] w']; cbn [fst] in Hres.
  - intros [= <- _]. destruct Hres as (w0 & _ & Hcall).
    exact (Draft2_fetch_call_valid env w0 found Hcall).
  - contradiction.
  - cbn. intros [= <- _]. constructor.
Qed.

Lemma Draft3_fetchRecentSales_valid (env : Env) (w w1 : World)
    (sales : list SaleEvent) :
  Draft3.fetchRecentSales env w = (Resolved (Value sales), w1) ->
  Forall (fun sale => isValidSaleEvent sale = true) sales.
Proof.
  unfold Draft3.fetchRecentSales, try_catch.
  pose proof (withRetry_result quiet _ w (Keeps_quiet_Draft3_fetch_call env)
                quiet_advance) as Hres.
  destruct (withRetry (Draft3.fetchRecentSales_call env) w)
    as [[[found | ] | error] w']; cbn [fst] in Hres.
  - intros [= <- _]. destruct Hres as (w0 & _ & Hcall).
    exact (Draft3_fetch_call_valid env w0 found Hcall).
  - contradiction.
  - cbn. intros [= <- _]. constructor.
Qed.

(** Drafts 2 and 3: a run whose fetch found sales makes one publishing
    attempt for each of the first three, in order, and no other call. *)
Lemma Draft2_batch (env : Env) (w w1 : World) (sales : list SaleEvent) :
  Draft2.fetchRecentSales env w = (Resolved (Value sales), w1) ->
  sales <> [] ->
  exists segments : list (list TwitterCall),
    twitter (snd (Draft2.runBot env w)) = twitter w ++ concat segments /\
    Forall2 publishAttempt (take 3 sales) segments.
Proof.
  intros Hfetch Hsales.
  pose proof (Draft2_fetchRecentSales_valid env w w1 sales Hfetch) as Hvalid.
  pose proof (Keeps_quiet_Draft2_fetchRecentSales env w) as Q0.
  rewrite Hfetch in Q0. cbn [snd] in Q0. destruct Q0 as (_ & T0 & _).
  unfold Draft2.runBot. rewrite snd_try_catch_ret.
  unfold bind at 1. rewrite Hfetch.
  unfold bind at 1. unfold Draft2.shouldPostFloorAlert.
  destruct (Resolves_shouldPostFloorAlertAfter 20 w1) as (due & w2 & E2).
  pose proof (Keeps_quiet_shouldPostFloorAlertAfter 20 w1) as Q2.
  rewrite E2 in Q2 |- *. cbn [snd] in Q2. destruct Q2 as (_ & T2 & _).
  destruct sales as [ | sale sales ]; [ contradiction | ].
  cbn [length Nat.eqb andb]. rewrite andb_false_r.
  unfold bind at 1, ret at 1. unfold bind at 1.
  destruct (forOf_processSale_v2 (fun _ _ => "FAMILY BUSINESS") env
              (take 3 (sale :: sales)) ltac:(apply Forall_take; exact Hvalid) w2)
    as (segments & w3 & E3 & T3 & P3).
  unfold Draft2.processSale. rewrite E3.
  exists segments. split; [ | exact P3 ].
  unfold Draft2.updateLastCheckTime.
  rewrite (journal_noCall _ _ (Keeps_noCall_overwrite env w3)).
  rewrite T3, T2, T0. reflexivity.
Qed.

Lemma Draft3_batch (env : Env) (w w1 : World) (sales : list SaleEvent) :
  Draft3.fetchRecentSales env w = (Resolved (Value sales), w1) ->
  sales <> [] ->
  exists segments : list (list TwitterCall),
    twitter (snd (Draft3.runBot env w)) = twitter w ++ concat segments /\
    Forall2 publishAttempt (take 3 sales) segments.
Proof.
  intros Hfetch Hsales.
  pose proof (Draft3_fetchRecentSales_valid env w w1 sales Hfetch) as Hvalid.
  pose proof (Keeps_quiet_Draft3_fetchRecentSales env w) as Q0.
  rewrite Hfetch in Q0. cbn [snd] in Q0. destruct Q0 as (_ & T0 & _).
  unfold Draft3.runBot. rewrite snd_try_catch_ret.
  unfold bind at 1. rewrite Hfetch.
  unfold bind at 1. unfold Draft3.shouldPostFloorAlert.
  destruct (Resolves_shouldPostFloorAlertAfter 72 w1) as (due & w2 & E2).
  pose proof (Keeps_quiet_shouldPostFloorAlertAfter 72 w1) as Q2.
  rewrite E2 in Q2 |- *. cbn [snd] in Q2. destruct Q2 as (_ & T2 & _).
  destruct sales as [ | sale sales ]; [ contradiction | ].
  cbn [length Nat.eqb andb]. rewrite andb_false_r.
  unfold bind at 1, ret at 1. unfold bind at 1.
  destruct (forOf_processSale_v2 getTransactionStatus env
              (take 3 (sale :: sales)) ltac:(apply Forall_take; exact Hvalid) w2)
    as (segments & w3 & E3 & T3 & P3).
  unfold Draft3.processSale. rewrite E3.
  exists segments. split; [ | exact P3 ].
  rewrite (journal_noCall _ _ (Keeps_noCall_Draft3_updateLastCheckTime env w3)).
  rewrite T3, T2, T0. reflexivity.
Qed.


(** C8, at the failing input: ten valid sales are fetched, canvas is
    loaded and the sales are shaped as the marketplace's API v2 shapes them
    (no [winner_account], no [asset]).  In draft 1, [createSaleImage]
    raises on the first sale, outside the [try] of the loop body, so the run
    ends without a single call on the Twitter client: none of the first
    three sales is attempted.  On the same input drafts 2 and 3 tweet for
    the first three sales and for no other; so does draft 1 when canvas is
    missing, after the upload of an empty card for each. *)
Theorem Draft1_batch_stops_at_first_sale :
  fst (Draft1.fetchRecentSales (sampleEnv true tenSales) sampleWorld)
    = Resolved (Value tenSales) /\
  length tenSales = 10%nat /\
  forallb isValidSaleEvent tenSales = true /\
  fst (Draft1.createSaleImage (sampleEnv true tenSales)
         (sampleSale (JsString "50000000000000000") 1700000010) sampleWorld)
    = Rejected "TypeError: Cannot read properties of undefined" /\
  newCalls sampleWorld
    (snd (Draft1.runBot (sampleEnv true tenSales) sampleWorld)) = [] /\
  omap callSale
    (newCalls sampleWorld
       (snd (Draft2.runBot (sampleEnv true tenSales) sampleWorld)))
    = take 3 tenSales /\
  omap callSale
    (newCalls sampleWorld
       (snd (Draft3.runBot (sampleEnv true tenSales) sampleWorld)))
    = take 3 tenSales /\
  omap callSale
    (newCalls sampleWorld
       (snd (Draft1.runBot (sampleEnv false tenSales) sampleWorld)))
    = flat_map (fun sale => [sale; sale]) (take 3 tenSales).
Proof. repeat split; vm_compute; reflexivity. Qed.

(** ** The cap of three in every draft *)

Lemma Keeps_forOf_in {A : Type} (R : World -> World -> Prop) `{!PreOrder R}
    (l : list A) (body : A -> Async World unit) :
  (forall x, x ∈ l -> Keeps R (body x)) -> Keeps R (forOf l body).
Proof.
  induction l as [ | x l IH ]; intros Hbody; cbn [forOf].
  - apply Keeps_ret. exact _.
  - apply Keeps_bind; [ exact _ | apply Hbody; left | intros _ ].
    apply IH. intros y Hy. apply Hbody. right. exact Hy.
Qed.

Ltac within_batch :=
  intros ? ? Hcall; cbn in Hcall;
  first [ discriminate Hcall | injection Hcall as <-; assumption ].

#[local] Hint Extern 3 (Keeps (journal (withinBatch _)) (uploadMedia _ _)) =>
  (apply Keeps_journal_uploadMedia; within_batch) : keeps.
#[local] Hint Extern 3 (Keeps (journal (withinBatch _)) (tweet _ _)) =>
  (apply Keeps_journal_tweet; within_batch) : keeps.

Lemma Keeps_within_uploadNftImage (batch : list SaleEvent) (env : Env)
    (url : option string) :
  Keeps (journal (withinBatch batch)) (uploadNftImage env url).
Proof. unfold uploadNftImage. keeps. Qed.

#[local] Hint Resolve Keeps_within_uploadNftImage : keeps.

Lemma Keeps_within_tweetWithFallback (batch : list SaleEvent) (env : Env)
    (body : TweetText) (mediaIds : list string) :
  (forall sale post, body = SaleAlert sale post -> sale ∈ batch) ->
  Keeps (journal (withinBatch batch)) (tweetWithFallback env body mediaIds).
Proof.
  intros Hbody. unfold tweetWithFallback.
  assert (Htweet : forall media,
             Keeps (journal (withinBatch batch))
               (tweet env {| text := body; media_ids := media |})).
  { intros media. apply Keeps_journal_tweet. intros ok sale Hcall.
    cbn in Hcall. destruct body as [ ? ? ? | sale' post ];
      [ discriminate | ].
    injection Hcall as <-. eapply Hbody. reflexivity. }
  keeps.
Qed.

Lemma Keeps_within_processSale_v2 (batch : list SaleEvent)
    (status : string -> string -> string) (env : Env) (sale : SaleEvent) :
  sale ∈ batch ->
  Keeps (journal (withinBatch batch)) (processSale_v2 status env sale).
Proof.
  intros Hin. unfold processSale_v2.
  assert (Htweet : forall post mediaIds,
             Keeps (journal (withinBatch batch))
               (tweetWithFallback env (SaleAlert sale post) mediaIds)).
  { intros post mediaIds. apply Keeps_within_tweetWithFallback.
    intros sale' post' [= <- _]. exact Hin. }
  keeps.
Qed.

Lemma Keeps_within_Draft1_processSale (batch : list SaleEvent) (env : Env)
    (sale : SaleEvent) :
  sale ∈ batch ->
  Keeps (journal (withinBatch batch)) (Draft1.processSale env sale).
Proof. intros Hin. unfold Draft1.processSale. keeps. Qed.

Lemma Keeps_within_floor_tweet (batch : list SaleEvent) (env : Env)
    (floor : FloorNFT) (price : Price)
    (seller : option (string * JsReturn Z * bool))
    (mediaIds : list string) :
  Keeps (journal (withinBatch batch))
    (tweetWithFallback env (FloorAlert floor price seller) mediaIds).
Proof.
  apply Keeps_within_tweetWithFallback. intros sale post H. discriminate H.
Qed.

Lemma Keeps_within_updateLastFloorAlert (batch : list SaleEvent) (env : Env) :
  Keeps (journal (withinBatch batch)) (updateLastFloorAlert env).
Proof. unfold updateLastFloorAlert. keeps. Qed.

#[local] Hint Resolve Keeps_within_floor_tweet
  Keeps_within_updateLastFloorAlert : keeps.

Lemma Keeps_within_Draft1_postFloorAlert (batch : list SaleEvent)
    (env : Env) :
  Keeps (journal (withinBatch batch)) (Draft1.postFloorAlert env).
Proof.
  unfold Draft1.postFloorAlert, Draft1.createFloorAlertImage. keeps.
Qed.

Lemma Keeps_within_Draft2_postFloorAlert (batch : list SaleEvent)
    (env : Env) :
  Keeps (journal (withinBatch batch)) (Draft2.postFloorAlert env).
Proof. unfold Draft2.postFloorAlert. keeps. Qed.

Lemma Keeps_within_Draft3_postFloorAlert (batch : list SaleEvent)
    (env : Env) :
  Keeps (journal (withinBatch batch)) (Draft3.postFloorAlert env).
Proof.
  unfold Draft3.postFloorAlert, Draft3.getSellerNFTCount. keeps.
Qed.

Lemma Keeps_within_overwrite (batch : list SaleEvent) (env : Env) :
  Keeps (journal (withinBatch batch)) (updateLastCheckTime_overwrite env).
Proof. unfold updateLastCheckTime_overwrite. keeps. Qed.

Lemma Keeps_within_Draft3_updateLastCheckTime (batch : list SaleEvent)
    (env : Env) :
  Keeps (journal (withinBatch batch)) (Draft3.updateLastCheckTime env).
Proof. unfold Draft3.updateLastCheckTime. keeps. Qed.

#[local] Hint Resolve Keeps_within_Draft1_postFloorAlert
  Keeps_within_Draft2_postFloorAlert Keeps_within_Draft3_postFloorAlert
  Keeps_within_overwrite Keeps_within_Draft3_updateLastCheckTime : keeps.
#[local] Hint Extern 2
  (Keeps (journal (withinBatch ?l)) (forOf ?l (Draft1.processSale _))) =>
  (apply Keeps_forOf_in;
   [ exact _ | intros ? ?; apply Keeps_within_Draft1_processSale; assumption ])
  : keeps.
#[local] Hint Extern 2
  (Keeps (journal (withinBatch ?l)) (forOf ?l (processSale_v2 _ _))) =>
  (apply Keeps_forOf_in;
   [ exact _ | intros ? ?; apply Keeps_within_processSale_v2; assumption ])
  : keeps.

(** X29. In every draft and whatever the outside world answers, the calls a
    run makes for a sale are made for one of the first three sales
    fetched. *)
Lemma batch_within_first_three (env : Env) (w : World) :
  (forall sales w1,
     Draft1.fetchRecentSales env w = (Resolved (Value sales), w1) ->
     journal (withinBatch (take 3 sales)) w (snd (Draft1.runBot env w))) /\
  (forall sales w1,
     Draft2.fetchRecentSales env w = (Resolved (Value sales), w1) ->
     journal (withinBatch (take 3 sales)) w (snd (Draft2.runBot env w))) /\
  (forall sales w1,
     Draft3.fetchRecentSales env w = (Resolved (Value sales), w1) ->
     journal (withinBatch (take 3 sales)) w (snd (Draft3.runBot env w))).
Proof.
  split; [ | split ]; intros sales w1 Hfetch.
  - unfold Draft1.runBot.
    apply Keeps_try_catch_at; [ exact _ | | intros; apply Keeps_ret; exact _ ].
    apply (Keeps_bind_at (journal (withinBatch (take 3 sales))) _ _ w w1
             (Value sales) Hfetch).
    { apply quiet_journal.
      pose proof (Keeps_quiet_Draft1_fetchRecentSales env w) as H.
      rewrite Hfetch in H. exact H. }
    apply (Keeps_at (journal (withinBatch (take 3 sales)))).
    unfold Draft1.shouldPostFloorAlert, Draft1.updateLastCheckTime. keeps.
  - unfold Draft2.runBot.
    apply Keeps_try_catch_at; [ exact _ | | intros; apply Keeps_ret; exact _ ].
    apply (Keeps_bind_at (journal (withinBatch (take 3 sales))) _ _ w w1
             (Value sales) Hfetch).
    { apply quiet_journal.
      pose proof (Keeps_quiet_Draft2_fetchRecentSales env w) as H.
      rewrite Hfetch in H. exact H. }
    apply (Keeps_at (journal (withinBatch (take 3 sales)))).
    unfold Draft2.shouldPostFloorAlert, Draft2.updateLastCheckTime,
      Draft2.processSale. keeps.
  - unfold Draft3.runBot.
    apply Keeps_try_catch_at; [ exact _ | | intros; apply Keeps_ret; exact _ ].
    apply (Keeps_bind_at (journal (withinBatch (take 3 sales))) _ _ w w1
             (Value sales) Hfetch).
    { apply quiet_journal.
      pose proof (Keeps_quiet_Draft3_fetchRecentSales env w) as H.
      rewrite Hfetch in H. exact H. }
    apply (Keeps_at (journal (withinBatch (take 3 sales)))).
    unfold Draft3.shouldPostFloorAlert, Draft3.processSale. keeps.
Qed.

(** * Further properties *)

(** ** Retry executor: any action *)

Section RetryShape.
Context {W A : Type}.
Variable pause : Z -> W -> W.
Variable apiCall : Async W A.
Variables maxRetries delay : Z.

(** The loop from [attempt] with [n + 1] attempts left, whatever the action
    does: it stops at the first attempt that resolves, or at the last one. *)
Lemma retryLoop_shape (n : nat) :
  forall (attempt : Z) (w : W),
    attempt + Z.of_nat n = maxRetries ->
    exists (k : nat) (r : Completion (JsReturn A)) (w' : W)
           (tr : list RetryEvent),
      retryLoop pause apiCall maxRetries delay attempt w = (r, w', tr) /\
      (1 <= k <= S n)%nat /\
      invocations tr = countFrom attempt k /\
      waits tr
      = map (fun i => delay * 2 ^ (i - 1)) (countFrom attempt (k - 1)) /\
      match r with
      | Resolved (Value a) =>
          last tr = Some (Invoked (attempt + Z.of_nat k - 1) None) /\
          exists w0, apiCall w0 = (Resolved a, w')
      | Resolved Undefined => False
      | Rejected error =>
          k = S n /\
          last tr = Some (Invoked maxRetries (Some error)) /\
          exists w0, apiCall w0 = (Rejected error, w')
      end.
Proof.
  induction n as [ | n IH ]; intros attempt w Hn.
  - rewrite retryLoop_unroll.
    destruct (Z_le_gt_dec attempt maxRetries) as [ _ | ? ]; [ | lia ].
    destruct (apiCall w) as [[a | error] w'] eqn:Ecall.
    + exists 1%nat, (Resolved (Value a)), w', [Invoked attempt None].
      split; [ reflexivity | ]. split; [ lia | ].
      split; [ reflexivity | ]. split; [ reflexivity | ].
      split; [ cbn; do 2 f_equal; lia | exists w; exact Ecall ].
    + destruct (Z.eq_dec attempt maxRetries) as [ _ | ? ]; [ | lia ].
      exists 1%nat, (Rejected error), w', [Invoked attempt (Some error)].
      split; [ reflexivity | ]. split; [ lia | ].
      split; [ reflexivity | ]. split; [ reflexivity | ].
      split; [ reflexivity | ].
      split; [ cbn; do 2 f_equal; lia | exists w; exact Ecall ].
  - rewrite retryLoop_unroll.
    destruct (Z_le_gt_dec attempt maxRetries) as [ _ | ? ]; [ | lia ].
    destruct (apiCall w) as [[a | error] w1] eqn:Ecall.
    + exists 1%nat, (Resolved (Value a)), w1, [Invoked attempt None].
      split; [ reflexivity | ]. split; [ lia | ].
      split; [ reflexivity | ]. split; [ reflexivity | ].
      split; [ cbn; do 2 f_equal; lia | exists w; exact Ecall ].
    + destruct (Z.eq_dec attempt maxRetries) as [ ? | _ ]; [ lia | ].
      cbv zeta.
      destruct (IH (attempt + 1) (pause (delay * 2 ^ (attempt - 1)) w1))
        as (k & r & w' & tr & Hrun & Hk & Hinv & Hwaits & Hr); [ lia | ].
      rewrite Hrun.
      exists (S k), r, w',
        (Invoked attempt (Some error)
           :: Waited (delay * 2 ^ (attempt - 1)) :: tr).
      split; [ reflexivity | ]. split; [ lia | ].
      split.
      { change (invocations
                  (Invoked attempt (Some error)
                     :: Waited (delay * 2 ^ (attempt - 1)) :: tr))
          with (attempt :: invocations tr).
        rewrite Hinv. reflexivity. }
      split.
      { change (waits
                  (Invoked attempt (Some error)
                     :: Waited (delay * 2 ^ (attempt - 1)) :: tr))
          with (delay * 2 ^ (attempt - 1) :: waits tr).
        rewrite Hwaits.
        destruct k as [ | k ]; [ lia | ].
        cbn [Nat.sub countFrom map]. rewrite Nat.sub_0_r. reflexivity. }
      assert (Hlast : forall ev, last tr = Some ev ->
                last (Invoked attempt (Some error)
                        :: Waited (delay * 2 ^ (attempt - 1)) :: tr)
                = Some ev).
      { intros ev Hev. destruct tr as [ | e1 tr ]; [ discriminate | ].
        exact Hev. }
      destruct r as [[a | ] | error'].
      * destruct Hr as [Hl Hw0]. split; [ | exact Hw0 ].
        apply Hlast. rewrite Hl. do 2 f_equal. lia.
      * contradiction.
      * destruct Hr as (-> & Hl & Hw0).
        split; [ reflexivity | ]. split; [ apply Hlast, Hl | exact Hw0 ].
Qed.

End RetryShape.

(** The sum of the first waits of the backoff. *)
Lemma sum_backoff (delay : Z) (k : nat) :
  forall attempt : Z,
    1 <= attempt ->
    fold_right Z.add 0
      (map (fun i => delay * 2 ^ (i - 1)) (countFrom attempt k))
    = delay * 2 ^ (attempt - 1) * (2 ^ Z.of_nat k - 1).
Proof.
  induction k as [ | k IH ]; intros attempt Ha.
  - cbn. lia.
  - cbn [countFrom map fold_right]. rewrite IH by lia.
    replace (attempt + 1 - 1) with (Z.succ (attempt - 1)) by lia.
    rewrite Z.pow_succ_r by lia.
    rewrite Nat2Z.inj_succ, Z.pow_succ_r by lia. ring.
Qed.





(** ** Tiers, ranks and narrative, by holdings *)

(** X3. A larger holding never ranks lower: [getTierRank] of
    [getHolderTier] is monotone in the count. *)
Theorem getTierRank_monotone (count count' : Z) :
  count <= count' ->
  getTierRank (getHolderTier count) <= getTierRank (getHolderTier count').
Proof.
  intros Hle.
  pose proof (getHolderTier_ranges count) as H.
  pose proof (getHolderTier_ranges count') as H'.
  repeat destruct H as [H | H]; destruct H as [Hc ->];
    repeat destruct H' as [H' | H']; destruct H' as [Hc' ->];
    first [ lia | vm_compute; discriminate ].
Qed.

Lemma getTierRank_monotone_witness :
  getTierRank (getHolderTier 9) <= getTierRank (getHolderTier 10).
Proof. apply getTierRank_monotone. lia. Defined.

(** X4. The status line of a sale, by the holdings of the two parties as
    [runBot] of draft 3 classifies them: holdings that differ by at most
    five always give FAMILY BUSINESS; POWER VACUUM needs a seller with ten
    or more who holds at least six more than the buyer, and EMPIRE EXPANSION
    the same with the parties swapped. *)
Theorem getTransactionStatus_by_holdings (buyerCount sellerCount : Z) :
  let status :=
    getTransactionStatus (getHolderTier buyerCount)
      (getHolderTier sellerCount) in
  (Z.abs (sellerCount - buyerCount) <= 5 ->
   status = statusTemplates business_as_usual) /\
  (status = statusTemplates empire_falls ->
   10 <= sellerCount /\ buyerCount + 6 <= sellerCount) /\
  (status = statusTemplates consolidation ->
   10 <= buyerCount /\ sellerCount + 6 <= buyerCount).
Proof.
  cbv zeta.
  pose proof (getHolderTier_ranges buyerCount) as Hb.
  pose proof (getHolderTier_ranges sellerCount) as Hs.
  repeat destruct Hb as [Hb | Hb]; destruct Hb as [Hcb ->];
    repeat destruct Hs as [Hs | Hs]; destruct Hs as [Hcs ->];
    match goal with
    | |- context [getTransactionStatus ?b ?s] =>
        let v := eval vm_compute in (getTransactionStatus b s) in
        change (getTransactionStatus b s) with v
    end;
    cbn [statusTemplates];
    (split; [ | split ]); intros H;
    first [ reflexivity | discriminate H | lia ].
Qed.

(** X5. A sale without a seller address is classified against the tier
    ['unknown'], which ranks 1: its status is EMPIRE EXPANSION when the buyer
    holds ten or more and FAMILY BUSINESS otherwise, never POWER VACUUM. *)
Theorem getTransactionStatus_without_seller (buyerCount : Z) :
  getTransactionStatus (getHolderTier buyerCount) "unknown"
  = if buyerCount >=? 10 then statusTemplates consolidation
    else statusTemplates business_as_usual.
Proof.
  pose proof (getHolderTier_ranges buyerCount) as Hb.
  repeat destruct Hb as [Hb | Hb]; destruct Hb as [Hcb ->];
    destruct (Z.geb_spec buyerCount 10); first [ lia | reflexivity ].
Qed.

(** X6. [getFloorNarrative] of draft 3 picks the wording for a high-ranking
    seller exactly when the seller of the floor listing holds ten or more,
    that is from rank 3 on; a listing without a seller address (tier
    ['unknown']) gets the other wording.  The count argument is not read. *)
Theorem getFloorNarrative_by_holdings (sellerCount : Z) (shown : JsReturn Z) :
  Draft3.getFloorNarrative (getHolderTier sellerCount) shown
    = (sellerCount >=? 10) /\
  Draft3.getFloorNarrative (getHolderTier sellerCount) shown
    = (getTierRank (getHolderTier sellerCount) >=? 3) /\
  Draft3.getFloorNarrative "unknown" shown = false.
Proof.
  pose proof (getHolderTier_ranges sellerCount) as Hs.
  repeat destruct Hs as [Hs | Hs]; destruct Hs as [Hcs ->];
    destruct (Z.geb_spec sellerCount 10);
    first [ lia | repeat split; vm_compute; reflexivity ].
Qed.

(** ** Price line *)

Lemma strictEqString_true (v : JsPrim) (text : string) :
  strictEqString v text = true <-> v = JsString text.
Proof.
  destruct v as [ | | n | s ]; cbn [strictEqString];
    try (split; [ discriminate | discriminate ]).
  rewrite String.eqb_eq. split; [ intros ->; reflexivity | ].
  intros [= ->]. reflexivity.
Qed.

(** X7. For a sale that passed [isValidSaleEvent], [formatPrice] prints
    'Price undisclosed' exactly when the payment amount is the string ['0'],
    and a price with that amount otherwise. *)
Theorem formatPrice_of_valid_sale (sale : SaleEvent) :
  isValidSaleEvent sale = true ->
  exists p : Payment,
    payment sale = Some p /\
    (formatPrice (payment sale) = PriceUndisclosed
     <-> pay_quantity p = JsString "0") /\
    (pay_quantity p <> JsString "0" ->
     exists decimals symbol,
       formatPrice (payment sale)
       = PriceOf (pay_quantity p) decimals symbol).
Proof.
  intros Hvalid.
  apply isValidSaleEvent_true in Hvalid as (_ & _ & _ & _ & p & Hp & Hq).
  exists p. split; [ exact Hp | ].
  rewrite Hp. unfold formatPrice. rewrite Hq. cbn [negb orb].
  destruct (strictEqString (pay_quantity p) "0") eqn:Hzero.
  - apply strictEqString_true in Hzero.
    split; [ split; intros _; [ exact Hzero | reflexivity ] | ].
    intros Hne. contradiction.
  - split.
    + split; [ discriminate | ].
      intros Hz. apply strictEqString_true in Hz. congruence.
    + intros _. eexists _, _. reflexivity.
Qed.

Lemma formatPrice_of_valid_sale_witness :
  isValidSaleEvent zeroPaymentSale = true /\
  formatPrice (payment zeroPaymentSale) = PriceUndisclosed /\
  formatPrice (payment newSale)
  = PriceOf (JsString "50000000000000000") 18 "ETH".
Proof.
  split; [ reflexivity | ].
  split.
  - destruct (formatPrice_of_valid_sale zeroPaymentSale eq_refl)
      as (p & Hp & Hzero & _).
    apply Hzero. injection Hp as <-. reflexivity.
  - reflexivity.
Defined.

(** X8. When [formatPrice] prints a price, the amount is truthy and is not
    the string ['0'], the decimals are the payment's or 18 when they are
    missing or 0, never 0, and the symbol is the payment's or ['ETH'] when it
    is missing or empty, never empty. *)
Theorem formatPrice_printed
    (payment : option Payment) (amount : JsPrim) (decimals : Z)
    (symbol : string) :
  formatPrice payment = PriceOf amount decimals symbol ->
  truthy amount = true /\ amount <> JsString "0" /\
  decimals <> 0 /\ symbol <> "" /\
  exists p : Payment,
    payment = Some p /\ pay_quantity p = amount /\
    (pay_decimals p = Some decimals \/
     decimals = 18 /\ (pay_decimals p = None \/ pay_decimals p = Some 0)) /\
    (pay_symbol p = Some symbol \/
     symbol = "ETH" /\ (pay_symbol p = None \/ pay_symbol p = Some "")).
Proof.
  unfold formatPrice. destruct payment as [p | ]; [ | discriminate ].
  destruct (truthy (pay_quantity p)) eqn:Hq; cbn [negb orb];
    [ | discriminate ].
  destruct (strictEqString (pay_quantity p) "0") eqn:Hzero; [ discriminate | ].
  intros [= <- <- <-].
  split; [ exact Hq | ].
  split; [ intros Hz; apply strictEqString_true in Hz; congruence | ].
  split.
  { destruct (pay_decimals p) as [d | ]; [ | discriminate ].
    destruct (Z.eqb_spec d 0); [ discriminate | assumption ]. }
  split.
  { destruct (pay_symbol p) as [s | ]; cbn [truthyStr]; [ | discriminate ].
    destruct (String.eqb_spec s ""); cbn [negb default];
      [ discriminate | assumption ]. }
  exists p. split; [ reflexivity | ]. split; [ reflexivity | ].
  split.
  - destruct (pay_decimals p) as [d | ]; [ | right; tauto ].
    destruct (Z.eqb_spec d 0) as [-> | ?]; [ right; tauto | left; reflexivity ].
  - destruct (pay_symbol p) as [s | ]; cbn [truthyStr]; [ | right; tauto ].
    destruct (String.eqb_spec s "") as [-> | ?]; cbn [negb default];
      [ right; tauto | left; reflexivity ].
Qed.

Lemma formatPrice_printed_witness :
  formatPrice (Some {| pay_quantity := JsString "1500000";
                       pay_decimals := Some 6;
                       pay_symbol := Some "" |})
    = PriceOf (JsString "1500000") 6 "ETH" /\
  (6 <> 0 /\ "ETH" <> "").
Proof.
  split; [ reflexivity | ].
  destruct (formatPrice_printed
              (Some {| pay_quantity := JsString "1500000";
                       pay_decimals := Some 6;
                       pay_symbol := Some "" |})
              (JsString "1500000") 6 "ETH" eq_refl)
    as (_ & _ & Hd & Hs & _).
  split; [ exact Hd | exact Hs ].
Defined.

(** ** Posting with a fallback *)

(** X9. The posting step of drafts 2 and 3 never raises.  It tweets once;
    when that tweet is refused and carried media, it tweets the same text
    once more without media, and it makes no other call.  So at most one of
    its tweets goes out. *)
Theorem tweetWithFallback_calls
    (env : Env) (body : TweetText) (mediaIds : list string) (w : World) :
  let first := {| text := body; media_ids := mediaIds |} in
  let bare := {| text := body; media_ids := [] |} in
  exists w' : World,
    tweetWithFallback env body mediaIds w = (Resolved tt, w') /\
    twitter w' = twitter w ++ newCalls w w' /\
    newCalls w w'
    = match twitterTweet env (calls w) first with
      | Resolved _ => [PostTweet first true]
      | Rejected _ =>
          if (0 <? length mediaIds)%nat
          then [PostTweet first false;
                PostTweet bare
                  (isResolved (twitterTweet env (S (calls w)) bare))]
          else [PostTweet first false]
      end /\
    (length (List.filter tweetPosted (newCalls w w')) <= 1)%nat.
Proof.
  cbv zeta. unfold tweetWithFallback, try_catch, tweet, ret, newCalls.
  destruct (twitterTweet env (calls w)
              {| text := body; media_ids := mediaIds |}) as [ [] | error ].
  - eexists. split; [ reflexivity | ]. cbn [twitter isResolved].
    rewrite drop_app_length. repeat split. cbn. lia.
  - destruct (0 <? length mediaIds)%nat.
    + cbn [calls twitter isResolved].
      destruct (twitterTweet env (S (calls w))
                  {| text := body; media_ids := [] |}) as [ [] | error' ];
        (eexists; split; [ reflexivity | ]); cbn [twitter isResolved];
        rewrite <- app_assoc, drop_app_length; repeat split; cbn; lia.
    + eexists. split; [ reflexivity | ]. cbn [twitter isResolved].
      rewrite drop_app_length. repeat split. cbn. lia.
Qed.

(** ** Checkpoint store: round trips and failures *)

(** X10. Once [updateLastFloorAlert] has written, [shouldPostFloorAlert]
    answers false until the hours of the draft have passed since the write,
    and true from then on: 20 hours in drafts 1 and 2, 72 hours in
    draft 3. *)
Theorem updateLastFloorAlert_closes_gate
    (env : Env) (w : World) (elapsed : Z) :
  fsWritable env = true ->
  let later := advance elapsed (snd (updateLastFloorAlert env w)) in
  fst (Draft1.shouldPostFloorAlert later)
    = Resolved (elapsed >=? 20 * (1000 * 60 * 60)) /\
  fst (Draft2.shouldPostFloorAlert later)
    = Resolved (elapsed >=? 20 * (1000 * 60 * 60)) /\
  fst (Draft3.shouldPostFloorAlert later)
    = Resolved (elapsed >=? 72 * (1000 * 60 * 60)).
Proof.
  intros Hw. cbv zeta.
  unfold Draft1.shouldPostFloorAlert, Draft2.shouldPostFloorAlert,
    Draft3.shouldPostFloorAlert, shouldPostFloorAlertAfter,
    updateLastFloorAlert,
    try_catch, bind, readCheckpoint, clock, writeCheckpoint, ret.
  rewrite Hw.
  destruct (file w) as [data | ]; cbn [snd fst advance file now];
    rewrite lookup_insert_eq; cbn [fst snd advance file now];
    replace (now w + elapsed - now w) with elapsed by lia;
    repeat split; reflexivity.
Qed.

Lemma updateLastFloorAlert_closes_gate_witness :
  fst (Draft3.shouldPostFloorAlert
         (advance (71 * 3600000)
            (snd (updateLastFloorAlert (sampleEnv false []) freshWorld))))
    = Resolved false /\
  fst (Draft3.shouldPostFloorAlert
         (advance (72 * 3600000)
            (snd (updateLastFloorAlert (sampleEnv false []) freshWorld))))
    = Resolved true.
Proof.
  split.
  - destruct (updateLastFloorAlert_closes_gate (sampleEnv false []) freshWorld
                (71 * 3600000) eq_refl) as (_ & _ & H).
    exact H.
  - destruct (updateLastFloorAlert_closes_gate (sampleEnv false []) freshWorld
                (72 * 3600000) eq_refl) as (_ & _ & H).
    exact H.
Defined.

(** X11. [getLastCheckTime] reads back the time at which
    [updateLastCheckTime] wrote, in the merging version of draft 3 and in
    the overwriting version of drafts 1 and 2. *)
Theorem updateLastCheckTime_read_back (env : Env) (w : World) :
  fsWritable env = true ->
  fst (getLastCheckTime (snd (Draft3.updateLastCheckTime env w)))
    = Resolved (Some (now w)) /\
  fst (getLastCheckTime (snd (Draft1.updateLastCheckTime env w)))
    = Resolved (Some (now w)) /\
  fst (getLastCheckTime (snd (Draft2.updateLastCheckTime env w)))
    = Resolved (Some (now w)).
Proof.
  intros Hw.
  unfold Draft1.updateLastCheckTime, Draft2.updateLastCheckTime,
    updateLastCheckTime_overwrite, Draft3.updateLastCheckTime,
    getLastCheckTime, try_catch, bind, readCheckpoint, clock, writeCheckpoint,
    ret.
  rewrite Hw.
  destruct (file w) as [data | ]; cbn [snd fst file];
    rewrite !lookup_insert_eq; repeat split; reflexivity.
Qed.

Lemma updateLastCheckTime_read_back_witness :
  fst (getLastCheckTime
         (snd (Draft3.updateLastCheckTime (sampleEnv false []) sampleWorld)))
  = Resolved (Some 1700001800000).
Proof.
  destruct (updateLastCheckTime_read_back (sampleEnv false []) sampleWorld
              eq_refl) as (H & _).
  exact H.
Defined.

(** X12. The merging writers touch one field: [updateLastFloorAlert] leaves
    every stored field other than [lastFloorAlert] as it was, and
    [updateLastCheckTime] of draft 3 every field other than [lastCheck],
    whether the write goes through or not. *)
Theorem merging_writers_frame (env : Env) (w : World) (field : string) :
  (field <> "lastFloorAlert" ->
   stored field (snd (updateLastFloorAlert env w)) = stored field w) /\
  (field <> "lastCheck" ->
   stored field (snd (Draft3.updateLastCheckTime env w)) = stored field w).
Proof.
  unfold updateLastFloorAlert, Draft3.updateLastCheckTime, stored, try_catch,
    bind, readCheckpoint, clock, writeCheckpoint, ret.
  destruct (file w) as [data | ] eqn:Hfile;
    destruct (fsWritable env); cbn [snd file mbind option_bind];
    rewrite ?Hfile; cbn [mbind option_bind];
    split; intros Hne;
    rewrite ?lookup_insert_ne, ?lookup_empty by congruence; reflexivity.
Qed.

(** X13. A write that the file system refuses is swallowed by the merging
    writers, which return with the world as it was; [updateLastCheckTime] of
    drafts 1 and 2 has no handler and passes the error on. *)
Theorem refused_write (env : Env) (w : World) :
  fsWritable env = false ->
  updateLastFloorAlert env w = (Resolved tt, w) /\
  Draft3.updateLastCheckTime env w = (Resolved tt, w) /\
  Draft1.updateLastCheckTime env w = (Rejected "EACCES", w) /\
  Draft2.updateLastCheckTime env w = (Rejected "EACCES", w).
Proof.
  intros Hw.
  unfold Draft1.updateLastCheckTime, Draft2.updateLastCheckTime,
    updateLastCheckTime_overwrite, updateLastFloorAlert,
    Draft3.updateLastCheckTime, try_catch, bind, readCheckpoint, clock,
    writeCheckpoint, ret.
  rewrite Hw. destruct (file w); repeat split; reflexivity.
Qed.

Lemma refused_write_witness :
  Draft3.updateLastCheckTime offlineEnv sampleWorld
    = (Resolved tt, sampleWorld) /\
  Draft2.updateLastCheckTime offlineEnv sampleWorld
    = (Rejected "EACCES", sampleWorld).
Proof.
  destruct (refused_write offlineEnv sampleWorld eq_refl) as (_ & H3 & _ & H2).
  split; [ exact H3 | exact H2 ].
Defined.

(** ** Event fetcher: what is returned, and at what cost *)

(** Three attempts of an action that makes one request per attempt: the
    shape of the run of [apiCallWithRetry] with its defaults. *)
Lemma withRetry_one_request {A : Type} (apiCall : Async World A) (ms : Z) :
  (forall w0, snd (apiCall w0) = afterRequest ms w0) ->
  forall w,
    (exists a, fst (apiCall w) = Resolved a /\
       withRetry apiCall w = (Resolved (Value a), afterRequest ms w)) \/
    (exists e1 a,
       fst (apiCall w) = Rejected e1 /\
       fst (apiCall (advance 2000 (afterRequest ms w))) = Resolved a /\
       withRetry apiCall w
       = (Resolved (Value a),
          afterRequest ms (advance 2000 (afterRequest ms w)))) \/
    (exists e1 e2,
       fst (apiCall w) = Rejected e1 /\
       fst (apiCall (advance 2000 (afterRequest ms w))) = Rejected e2 /\
       snd (withRetry apiCall w)
       = afterRequest ms
           (advance 4000
              (afterRequest ms (advance 2000 (afterRequest ms w)))) /\
       fst (withRetry apiCall w)
       = match fst (apiCall
                      (advance 4000
                         (afterRequest ms
                            (advance 2000 (afterRequest ms w))))) with
         | Resolved a => Resolved (Value a)
         | Rejected e3 => Rejected e3
         end).
Proof.
  intros Hstep w.
  unfold withRetry, apiCallWithRetry, apiCallWithRetry_traced.
  rewrite retryLoop_unroll.
  destruct (Z_le_gt_dec 1 3) as [ _ | ? ]; [ | lia ].
  pose proof (Hstep w) as H1.
  destruct (apiCall w) as [[a | e1] w1]; cbn [snd] in H1; subst w1.
  { left. exists a. split; reflexivity. }
  right.
  destruct (Z.eq_dec 1 3) as [ ? | _ ]; [ lia | ].
  cbv zeta. change (RETRY_DELAY * 2 ^ (1 - 1)) with 2000.
  rewrite retryLoop_unroll.
  destruct (Z_le_gt_dec (1 + 1) 3) as [ _ | ? ]; [ | lia ].
  pose proof (Hstep (advance 2000 (afterRequest ms w))) as H2.
  destruct (apiCall (advance 2000 (afterRequest ms w))) as [[a | e2] w2];
    cbn [snd] in H2; subst w2.
  { left. exists e1, a. repeat split; reflexivity. }
  right. exists e1, e2. split; [ reflexivity | ]. split; [ reflexivity | ].
  destruct (Z.eq_dec (1 + 1) 3) as [ ? | _ ]; [ lia | ].
  cbv zeta. change (RETRY_DELAY * 2 ^ (1 + 1 - 1)) with 4000.
  rewrite retryLoop_unroll.
  destruct (Z_le_gt_dec (1 + 1 + 1) 3) as [ _ | ? ]; [ | lia ].
  pose proof (Hstep (advance 4000
                       (afterRequest ms
                          (advance 2000 (afterRequest ms w))))) as H3.
  destruct (apiCall (advance 4000
                       (afterRequest ms (advance 2000 (afterRequest ms w)))))
    as [[a | e3] w3]; cbn [snd] in H3; subst w3.
  - split; reflexivity.
  - destruct (Z.eq_dec (1 + 1 + 1) 3) as [ _ | ? ]; [ | lia ].
    split; reflexivity.
Qed.

(** [getLastCheckTime] always returns, and leaves the world as it was. *)
Lemma getLastCheckTime_returns (w : World) :
  exists t : option Z, getLastCheckTime w = (Resolved t, w).
Proof.
  unfold getLastCheckTime, try_catch, bind, readCheckpoint, clock, ret.
  destruct (file w); eexists; reflexivity.
Qed.

Lemma toISOString_world (t : option Z) (w : World) :
  snd (toISOString t w) = w.
Proof. destruct t; reflexivity. Qed.

(** An attempt of [fetchRecentSales] sleeps [OPENSEA_DELAY] and makes one
    request, in each draft and whatever its outcome. *)
Lemma Draft1_fetch_call_world (env : Env) (w : World) :
  snd (Draft1.fetchRecentSales_call env w) = afterRequest OPENSEA_DELAY w.
Proof.
  unfold Draft1.fetchRecentSales_call, bind, sleep, external, ret.
  cbn [advance file now calls twitter].
  match goal with
  | |- context [httpEvents env ?k ?q] => destruct (httpEvents env k q)
  end; reflexivity.
Qed.

Lemma Draft2_fetch_call_world (env : Env) (w : World) :
  snd (Draft2.fetchRecentSales_call env w) = afterRequest OPENSEA_DELAY w.
Proof.
  unfold Draft2.fetchRecentSales_call, bind, sleep.
  destruct (getLastCheckTime_returns (advance OPENSEA_DELAY w))
    as [lastCheck ->].
  unfold external. cbn [advance file now calls twitter].
  match goal with
  | |- context [httpEvents env ?k ?q] => destruct (httpEvents env k q)
  end; [ | reflexivity ].
  destruct lastCheck; reflexivity.
Qed.

Lemma Draft3_fetch_call_world (env : Env) (w : World) :
  snd (Draft3.fetchRecentSales_call env w) = afterRequest OPENSEA_DELAY w.
Proof.
  unfold Draft3.fetchRecentSales_call, bind, sleep.
  destruct (getLastCheckTime_returns (advance OPENSEA_DELAY w))
    as [lastCheck ->].
  unfold external. cbn [advance file now calls twitter].
  match goal with
  | |- context [httpEvents env ?k ?q] => destruct (httpEvents env k q)
  end; [ | reflexivity ].
  destruct lastCheck; reflexivity.
Qed.

(** X14. When the first request of [fetchRecentSales] of draft 3 is
    answered, the function returns, after that one request, exactly the
    events of the answer that are later than the checkpoint (in seconds) and
    valid, in the order of the answer: no qualifying event of the window is
    dropped, and no other is let through. *)
Theorem Draft3_fetchRecentSales_first_answer
    (env : Env) (w : World) (lastCheck : Z) (response : EventsResponse) :
  fst (getLastCheckTime (advance OPENSEA_DELAY w))
    = Resolved (Some lastCheck) ->
  httpEvents env (calls w) {| q_limit := 50; q_occurred_after := None |}
    = Resolved response ->
  let sales :=
    List.filter isValidSaleEvent
      (List.filter
         (fun event => jsGt (event_timestamp event) (Some (lastCheck / 1000)))
         (eventsOf response)) in
  Draft3.fetchRecentSales env w
    = (Resolved (Value sales), afterRequest OPENSEA_DELAY w) /\
  forall sale : SaleEvent,
    In sale sales <->
    In sale (eventsOf response) /\
    isValidSaleEvent sale = true /\
    exists ts, event_timestamp sale = Some ts /\ lastCheck / 1000 < ts.
Proof.
  intros Hcheck Hanswer. cbv zeta. split.
  - assert (Hcall : Draft3.fetchRecentSales_call env w
                    = (Resolved
                         (List.filter isValidSaleEvent
                            (List.filter
                               (fun event =>
                                  jsGt (event_timestamp event)
                                    (Some (lastCheck / 1000)))
                               (eventsOf response))),
                       afterRequest OPENSEA_DELAY w)).
    { rewrite <- (Draft3_fetch_call_world env w).
      unfold Draft3.fetchRecentSales_call, bind, sleep.
      destruct (getLastCheckTime_returns (advance OPENSEA_DELAY w))
        as [t Ht].
      rewrite Ht in Hcheck |- *. injection Hcheck as ->.
      unfold external. cbn [advance calls]. rewrite Hanswer.
      reflexivity. }
    unfold Draft3.fetchRecentSales, try_catch.
    destruct (withRetry_one_request (Draft3.fetchRecentSales_call env)
                OPENSEA_DELAY (Draft3_fetch_call_world env) w)
      as [ (a & Ha & Hrun) | [ (e1 & a & He & _) | (e1 & e2 & He & _) ] ];
      rewrite Hcall in *; cbn [fst] in *; try discriminate.
    injection Ha as <-. rewrite Hrun. reflexivity.
  - intros sale. rewrite !List.filter_In. split.
    + intros [[Hin Hgt] Hvalid].
      split; [ exact Hin | ]. split; [ exact Hvalid | ].
      destruct (event_timestamp sale) as [ts | ]; [ | discriminate ].
      exists ts. split; [ reflexivity | ].
      cbn [jsGt] in Hgt. apply Z.gtb_lt in Hgt. exact Hgt.
    + intros (Hin & Hvalid & ts & Hts & Hgt).
      split; [ split; [ exact Hin | ] | exact Hvalid ].
      rewrite Hts. cbn [jsGt]. apply Z.gtb_lt. exact Hgt.
Qed.

Lemma Draft3_fetchRecentSales_first_answer_witness :
  Draft3.fetchRecentSales (sampleEnv false [oldSale; newSale]) sampleWorld
    = (Resolved (Value [newSale]), afterRequest OPENSEA_DELAY sampleWorld) /\
  In newSale [newSale].
Proof.
  destruct (Draft3_fetchRecentSales_first_answer
              (sampleEnv false [oldSale; newSale]) sampleWorld 1700000000000
              {| asset_events := Some [oldSale; newSale]; events := None |}
              eq_refl eq_refl) as [Hrun Hin].
  split; [ exact Hrun | ].
  apply Hin. split; [ right; left; reflexivity | ].
  split; [ reflexivity | ].
  exists 1700000010. split; [ reflexivity | reflexivity ].
Defined.

(** An attempt on a stored document that lacks [lastCheck] raises, in
    drafts 2 and 3: the checkpoint reads [undefined], and the log line of
    the attempt calls [toISOString] on an invalid date. *)
Lemma fetch_call_without_lastCheck (env : Env) (w : World)
    (data : gmap string Z) :
  file w = Some data -> data !! "lastCheck" = None ->
  (exists error, fst (Draft2.fetchRecentSales_call env w) = Rejected error) /\
  (exists error, fst (Draft3.fetchRecentSales_call env w) = Rejected error).
Proof.
  intros Hfile Hlast.
  unfold Draft2.fetchRecentSales_call, Draft3.fetchRecentSales_call, bind,
    sleep, getLastCheckTime, try_catch, bind, readCheckpoint, clock, ret,
    external, toISOString, throw.
  cbn [advance file now calls]. rewrite Hfile, Hlast.
  split;
    match goal with
    | |- context [httpEvents env ?k ?q] => destruct (httpEvents env k q)
    end; eexists; reflexivity.
Qed.

(** X15. On a stored document that lacks the field [lastCheck],
    [fetchRecentSales] of drafts 2 and 3 finds no sales, whatever the
    marketplace answers: each of the three attempts makes its request and
    then raises, and the function returns the empty list after three
    requests and 6750 ms of sleeping and backing off. *)
Theorem fetchRecentSales_without_lastCheck
    (env : Env) (w : World) (data : gmap string Z) :
  file w = Some data -> data !! "lastCheck" = None ->
  let w' := {| file := file w; now := now w + 6750;
               calls := (calls w + 3)%nat; twitter := twitter w |} in
  Draft2.fetchRecentSales env w = (Resolved (Value []), w') /\
  Draft3.fetchRecentSales env w = (Resolved (Value []), w').
Proof.
  intros Hfile Hlast. cbv zeta.
  assert (Hend : afterRequest OPENSEA_DELAY
                   (advance 4000
                      (afterRequest OPENSEA_DELAY
                         (advance 2000 (afterRequest OPENSEA_DELAY w))))
                 = {| file := file w; now := now w + 6750;
                      calls := (calls w + 3)%nat; twitter := twitter w |}).
  { unfold afterRequest, advance, OPENSEA_DELAY. cbn [file now calls twitter].
    f_equal; lia. }
  split.
  - unfold Draft2.fetchRecentSales, try_catch.
    destruct (withRetry_one_request (Draft2.fetchRecentSales_call env)
                OPENSEA_DELAY (Draft2_fetch_call_world env) w)
      as [ (a & Ha & _) | [ (e1 & a & _ & Ha & _)
                          | (e1 & e2 & _ & _ & Hw & Hr) ] ].
    + destruct (fetch_call_without_lastCheck env w data Hfile Hlast)
        as [[error He] _]. congruence.
    + destruct (fetch_call_without_lastCheck env
                  (advance 2000 (afterRequest OPENSEA_DELAY w)) data
                  Hfile Hlast) as [[error He] _]. congruence.
    + destruct (fetch_call_without_lastCheck env
                  (advance 4000
                     (afterRequest OPENSEA_DELAY
                        (advance 2000 (afterRequest OPENSEA_DELAY w)))) data
                  Hfile Hlast) as [[error He] _].
      rewrite He in Hr.
      destruct (withRetry (Draft2.fetchRecentSales_call env) w) as [r w3].
      cbn [fst snd] in Hw, Hr. subst r w3. rewrite Hend. reflexivity.
  - unfold Draft3.fetchRecentSales, try_catch.
    destruct (withRetry_one_request (Draft3.fetchRecentSales_call env)
                OPENSEA_DELAY (Draft3_fetch_call_world env) w)
      as [ (a & Ha & _) | [ (e1 & a & _ & Ha & _)
                          | (e1 & e2 & _ & _ & Hw & Hr) ] ].
    + destruct (fetch_call_without_lastCheck env w data Hfile Hlast)
        as [_ [error He]]. congruence.
    + destruct (fetch_call_without_lastCheck env
                  (advance 2000 (afterRequest OPENSEA_DELAY w)) data
                  Hfile Hlast) as [_ [error He]]. congruence.
    + destruct (fetch_call_without_lastCheck env
                  (advance 4000
                     (afterRequest OPENSEA_DELAY
                        (advance 2000 (afterRequest OPENSEA_DELAY w)))) data
                  Hfile Hlast) as [_ [error He]].
      rewrite He in Hr.
      destruct (withRetry (Draft3.fetchRecentSales_call env) w) as [r w3].
      cbn [fst snd] in Hw, Hr. subst r w3. rewrite Hend. reflexivity.
Qed.

Lemma fetchRecentSales_without_lastCheck_witness :
  fst (Draft3.fetchRecentSales (sampleEnv false [newSale])
         (snd (updateLastFloorAlert (sampleEnv false []) freshWorld)))
  = Resolved (Value []).
Proof.
  destruct (fetchRecentSales_without_lastCheck (sampleEnv false [newSale])
              (snd (updateLastFloorAlert (sampleEnv false []) freshWorld))
              (<["lastFloorAlert" := 1700001800000]> ∅) eq_refl eq_refl)
    as [_ H].
  rewrite H. reflexivity.
Defined.

(** ** Readers behind the retry executor *)

Lemma afterThreeRequests_steps (w : World) :
  afterRequest OPENSEA_DELAY
    (advance 4000
       (afterRequest OPENSEA_DELAY
          (advance 2000 (afterRequest OPENSEA_DELAY w))))
  = afterThreeRequests w.
Proof.
  unfold afterThreeRequests, afterRequest, advance, OPENSEA_DELAY.
  cbn [file now calls twitter]. f_equal; lia.
Qed.

(** A reader of the marketplace: an action of one request per attempt,
    retried with the defaults, with a fallback value in its [catch].  It
    always returns a value; the value is what some attempt resolved with,
    or the fallback; nothing is written or tweeted, and between one and
    three requests are made. *)
Lemma retried_reader {A : Type} (call : Async World A) (fallback : A)
    (P : A -> Prop) :
  (forall w0, snd (call w0) = afterRequest OPENSEA_DELAY w0) ->
  (forall w0 a, fst (call w0) = Resolved a -> P a) ->
  P fallback ->
  forall w : World,
  exists (a : A) (w' : World),
    try_catch (withRetry call) (fun _ => ret (Value fallback)) w
      = (Resolved (Value a), w') /\
    P a /\ quiet w w' /\ (calls w < calls w' <= calls w + 3)%nat /\
    (forall a0, fst (call w) = Resolved a0 ->
       a = a0 /\ w' = afterRequest OPENSEA_DELAY w) /\
    ((forall w0, exists error, fst (call w0) = Rejected error) ->
       a = fallback /\ w' = afterThreeRequests w).
Proof.
  intros Hstep HP Hfallback w. unfold try_catch.
  destruct (withRetry_one_request call OPENSEA_DELAY Hstep w)
    as [ (a & Ha & Hrun) | [ (e1 & a & He1 & Ha & Hrun)
                           | (e1 & e2 & He1 & He2 & Hw & Hr) ] ].
  - rewrite Hrun. exists a, (afterRequest OPENSEA_DELAY w).
    split; [ reflexivity | ]. split; [ exact (HP _ _ Ha) | ].
    split; [ unfold quiet, afterRequest, OPENSEA_DELAY; cbn;
             repeat split; lia | ].
    split; [ cbn; lia | ]. split.
    + intros a0 Ha0. rewrite Ha in Ha0. injection Ha0 as <-.
      split; reflexivity.
    + intros Hfail. destruct (Hfail w) as [error He]. congruence.
  - rewrite Hrun.
    exists a, (afterRequest OPENSEA_DELAY
                 (advance 2000 (afterRequest OPENSEA_DELAY w))).
    split; [ reflexivity | ]. split; [ exact (HP _ _ Ha) | ].
    split; [ unfold quiet, afterRequest, advance, OPENSEA_DELAY; cbn;
             repeat split; lia | ].
    split; [ cbn; lia | ]. split.
    + intros a0 Ha0. congruence.
    + intros Hfail.
      destruct (Hfail (advance 2000 (afterRequest OPENSEA_DELAY w)))
        as [error He]. congruence.
  - rewrite afterThreeRequests_steps in Hw.
    destruct (withRetry call w) as [r w3]. cbn [fst snd] in Hw, Hr. subst w3.
    assert (Hq : quiet w (afterThreeRequests w)).
    { unfold quiet, afterThreeRequests; cbn. repeat split; lia. }
    assert (Hc : (calls w < calls (afterThreeRequests w) <= calls w + 3)%nat).
    { cbn. lia. }
    destruct (fst (call (advance 4000
                           (afterRequest OPENSEA_DELAY
                              (advance 2000 (afterRequest OPENSEA_DELAY w))))))
      as [a | e3] eqn:E3; subst r.
    + exists a, (afterThreeRequests w). split; [ reflexivity | ].
      split; [ exact (HP _ _ E3) | ]. split; [ exact Hq | ].
      split; [ exact Hc | ]. split.
      * intros a0 Ha0. congruence.
      * intros Hfail.
        destruct (Hfail (advance 4000
                           (afterRequest OPENSEA_DELAY
                              (advance 2000 (afterRequest OPENSEA_DELAY w)))))
          as [error He]. congruence.
    + exists fallback, (afterThreeRequests w). split; [ reflexivity | ].
      split; [ exact Hfallback | ]. split; [ exact Hq | ].
      split; [ exact Hc | ]. split.
      * intros a0 Ha0. congruence.
      * intros _. split; reflexivity.
Qed.

Lemma Draft1_fetch_call_valid (env : Env) (w : World)
    (sales : list SaleEvent) :
  fst (Draft1.fetchRecentSales_call env w) = Resolved sales ->
  Forall (fun sale => isValidSaleEvent sale = true) sales.
Proof.
  unfold Draft1.fetchRecentSales_call, bind, sleep, ret.
  destruct (external _ (advance OPENSEA_DELAY w)) as [[response | ] w2];
    [ | discriminate ].
  cbn [fst]. intros [= <-]. apply filter_valid.
Qed.

(** X16. In each of the three drafts, [fetchRecentSales] always returns
    a list, never raises and never returns [undefined]; every event of the
    list passes [isValidSaleEvent]; the call writes nothing and tweets
    nothing, and makes at least one and at most three requests. *)
Theorem fetchRecentSales_returns_valid (env : Env) (w : World) :
  (exists (sales : list SaleEvent) (w' : World),
     Draft1.fetchRecentSales env w = (Resolved (Value sales), w') /\
     Forall (fun sale => isValidSaleEvent sale = true) sales /\
     quiet w w' /\ (calls w < calls w' <= calls w + 3)%nat) /\
  (exists (sales : list SaleEvent) (w' : World),
     Draft2.fetchRecentSales env w = (Resolved (Value sales), w') /\
     Forall (fun sale => isValidSaleEvent sale = true) sales /\
     quiet w w' /\ (calls w < calls w' <= calls w + 3)%nat) /\
  (exists (sales : list SaleEvent) (w' : World),
     Draft3.fetchRecentSales env w = (Resolved (Value sales), w') /\
     Forall (fun sale => isValidSaleEvent sale = true) sales /\
     quiet w w' /\ (calls w < calls w' <= calls w + 3)%nat).
Proof.
  split; [ | split ].
  - destruct (retried_reader (Draft1.fetchRecentSales_call env) []
                (Forall (fun sale => isValidSaleEvent sale = true))
                (Draft1_fetch_call_world env) (Draft1_fetch_call_valid env)
                ltac:(constructor) w)
      as (sales & w' & Hrun & Hvalid & Hq & Hc & _).
    exists sales, w'.
    split; [ exact Hrun | ]. split; [ exact Hvalid | ].
    split; [ exact Hq | exact Hc ].
  - destruct (retried_reader (Draft2.fetchRecentSales_call env) []
                (Forall (fun sale => isValidSaleEvent sale = true))
                (Draft2_fetch_call_world env) (Draft2_fetch_call_valid env)
                ltac:(constructor) w)
      as (sales & w' & Hrun & Hvalid & Hq & Hc & _).
    exists sales, w'.
    split; [ exact Hrun | ]. split; [ exact Hvalid | ].
    split; [ exact Hq | exact Hc ].
  - destruct (retried_reader (Draft3.fetchRecentSales_call env) []
                (Forall (fun sale => isValidSaleEvent sale = true))
                (Draft3_fetch_call_world env) (Draft3_fetch_call_valid env)
                ltac:(constructor) w)
      as (sales & w' & Hrun & Hvalid & Hq & Hc & _).
    exists sales, w'.
    split; [ exact Hrun | ]. split; [ exact Hvalid | ].
    split; [ exact Hq | exact Hc ].
Qed.

Lemma isResolved_false {A : Type} (c : Completion A) :
  isResolved c = false -> exists error, c = Rejected error.
Proof. destruct c as [a | error]; [ discriminate | eexists; reflexivity ]. Qed.

(** One attempt of a reader that sleeps, makes one request and computes
    its result from the answer. *)
Lemma one_request_call {A B : Type} (oracle : nat -> Completion A)
    (f : A -> B) (w : World) :
  bind (sleep OPENSEA_DELAY)
    (fun _ => bind (external oracle) (fun answer => ret (f answer))) w
  = (match oracle (calls w) with
     | Resolved answer => Resolved (f answer)
     | Rejected error => Rejected error
     end, afterRequest OPENSEA_DELAY w).
Proof.
  unfold bind, sleep, external, ret, afterRequest.
  cbn [advance file now calls twitter].
  destruct (oracle (calls w)); reflexivity.
Qed.

(** X17. The holder counts of drafts 2 and 3 always return a number, after
    one to three requests and without writing or tweeting:
    [getHolderNFTCount] at least 1 and [getSellerNFTCount] at least 0.  When
    the first request is answered, the buyer's count is the number of NFTs
    of the answer, or 1 when there is none, and the seller's count is that
    number as it is. *)
Theorem account_counts (env : Env) (address : string) (w : World) :
  (exists (count : Z) (w' : World),
     getHolderNFTCount_v2 env address w = (Resolved (Value count), w') /\
     1 <= count /\ quiet w w' /\ (calls w < calls w' <= calls w + 3)%nat /\
     forall nfts,
       httpAccountNfts env (calls w) address = Resolved nfts ->
       count = Z.max (Z.of_nat (length (default [] nfts))) 1) /\
  (exists (count : Z) (w' : World),
     getSellerNFTCount_v2 env address w = (Resolved (Value count), w') /\
     0 <= count /\ quiet w w' /\ (calls w < calls w' <= calls w + 3)%nat /\
     forall nfts,
       httpAccountNfts env (calls w) address = Resolved nfts ->
       count = Z.of_nat (length (default [] nfts))).
Proof.
  split.
  - unfold getHolderNFTCount_v2.
    match goal with
    | |- context [withRetry ?c] =>
        destruct (retried_reader c 1 (fun n => 1 <= n)) with (w := w)
          as (count & w' & Hrun & Hrange & Hq & Hc & Hfirst & _)
    end.
    + intros w0. rewrite one_request_call. reflexivity.
    + intros w0 n. rewrite one_request_call. cbn [fst].
      destruct (httpAccountNfts env (calls w0) address); [ | discriminate ].
      intros [= <-]. lia.
    + lia.
    + exists count, w'. split; [ exact Hrun | ]. split; [ exact Hrange | ].
      split; [ exact Hq | ]. split; [ exact Hc | ].
      intros nfts Hnfts. rewrite one_request_call, Hnfts in Hfirst.
      destruct (Hfirst _ eq_refl) as [-> _]. reflexivity.
  - unfold getSellerNFTCount_v2.
    match goal with
    | |- context [withRetry ?c] =>
        destruct (retried_reader c 0 (fun n => 0 <= n)) with (w := w)
          as (count & w' & Hrun & Hrange & Hq & Hc & Hfirst & _)
    end.
    + intros w0. rewrite one_request_call. reflexivity.
    + intros w0 n. rewrite one_request_call. cbn [fst].
      destruct (httpAccountNfts env (calls w0) address); [ | discriminate ].
      intros [= <-]. lia.
    + lia.
    + exists count, w'. split; [ exact Hrun | ]. split; [ exact Hrange | ].
      split; [ exact Hq | ]. split; [ exact Hc | ].
      intros nfts Hnfts. rewrite one_request_call, Hnfts in Hfirst.
      destruct (Hfirst _ eq_refl) as [-> _]. reflexivity.
Qed.

(** A reader all of whose attempts fail after their request returns its
    fallback after three requests. *)
Lemma reader_down {A : Type} (call : Async World A) (fallback : A) :
  (forall w0, exists error,
     call w0 = (Rejected error, afterRequest OPENSEA_DELAY w0)) ->
  forall w : World,
    try_catch (withRetry call) (fun _ => ret (Value fallback)) w
    = (Resolved (Value fallback), afterThreeRequests w).
Proof.
  intros Hdown w.
  destruct (retried_reader call fallback (fun _ => True)) with (w := w)
    as (a & w' & Hrun & _ & _ & _ & _ & Hfail).
  - intros w0. destruct (Hdown w0) as [error ->]. reflexivity.
  - intros; exact I.
  - exact I.
  - destruct Hfail as [-> ->]; [ | exact Hrun ].
    intros w0. destruct (Hdown w0) as [error ->]. exists error. reflexivity.
Qed.

Lemma one_request_down {A B : Type} (oracle : nat -> Completion A)
    (f : A -> B) :
  (forall k, isResolved (oracle k) = false) ->
  forall w0, exists error,
    bind (sleep OPENSEA_DELAY)
      (fun _ => bind (external oracle) (fun answer => ret (f answer))) w0
    = (Rejected error, afterRequest OPENSEA_DELAY w0).
Proof.
  intros Hdown w0. rewrite one_request_call.
  destruct (isResolved_false _ (Hdown (calls w0))) as [error ->].
  exists error. reflexivity.
Qed.

(** X18. While the marketplace refuses every request, every reader falls
    back to its default after three requests, 6750 ms of sleeping and
    backing off, and without raising: [fetchRecentSales] returns no sales,
    [getHolderNFTCount] returns 1 and [getSellerNFTCount] 0, and
    [getNFTImageUrl] and [getFloorPriceNFT] return [null]. *)
Theorem readers_when_marketplace_down
    (env : Env) (w : World) (address : string) (tokenId : option string)
    (withSeller : bool) :
  marketplaceDown env ->
  Draft1.fetchRecentSales env w
    = (Resolved (Value []), afterThreeRequests w) /\
  Draft2.fetchRecentSales env w
    = (Resolved (Value []), afterThreeRequests w) /\
  Draft3.fetchRecentSales env w
    = (Resolved (Value []), afterThreeRequests w) /\
  Draft1.getHolderNFTCount env (Some address) w
    = (Resolved (Value 1), afterThreeRequests w) /\
  Draft1.getSellerNFTCount env (Some address) w
    = (Resolved (Value 0), afterThreeRequests w) /\
  getHolderNFTCount_v2 env address w
    = (Resolved (Value 1), afterThreeRequests w) /\
  getSellerNFTCount_v2 env address w
    = (Resolved (Value 0), afterThreeRequests w) /\
  Draft1.getNFTImageUrl env AL_CABONE_CONTRACT tokenId w
    = (Resolved (Value None), afterThreeRequests w) /\
  getFloorPriceNFT withSeller env w
    = (Resolved (Value None), afterThreeRequests w).
Proof.
  intros (Hevents & Hassets & Haccount & Hnft & Hlistings).
  repeat match goal with |- _ /\ _ => split end.
  - apply reader_down. intros w0.
    pose proof (Draft1_fetch_call_world env w0) as Hw.
    destruct (Draft1.fetchRecentSales_call env w0)
      as [[sales | error] w1] eqn:E;
      cbn [snd] in Hw; subst w1; [ exfalso | exists error; reflexivity ].
    revert E.
    unfold Draft1.fetchRecentSales_call, bind, sleep, external, ret.
    match goal with
    | |- context [httpEvents env ?k ?q] =>
        destruct (isResolved_false _ (Hevents k q)) as [error ->]
    end. discriminate.
  - apply reader_down. intros w0.
    pose proof (Draft2_fetch_call_world env w0) as Hw.
    destruct (Draft2.fetchRecentSales_call env w0)
      as [[sales | error] w1] eqn:E;
      cbn [snd] in Hw; subst w1; [ exfalso | exists error; reflexivity ].
    revert E.
    unfold Draft2.fetchRecentSales_call, bind, sleep.
    destruct (getLastCheckTime_returns (advance OPENSEA_DELAY w0))
      as [lastCheck ->].
    unfold external.
    match goal with
    | |- context [httpEvents env ?k ?q] =>
        destruct (isResolved_false _ (Hevents k q)) as [error ->]
    end. discriminate.
  - apply reader_down. intros w0.
    pose proof (Draft3_fetch_call_world env w0) as Hw.
    destruct (Draft3.fetchRecentSales_call env w0)
      as [[sales | error] w1] eqn:E;
      cbn [snd] in Hw; subst w1; [ exfalso | exists error; reflexivity ].
    revert E.
    unfold Draft3.fetchRecentSales_call, bind, sleep.
    destruct (getLastCheckTime_returns (advance OPENSEA_DELAY w0))
      as [lastCheck ->].
    unfold external.
    match goal with
    | |- context [httpEvents env ?k ?q] =>
        destruct (isResolved_false _ (Hevents k q)) as [error ->]
    end. discriminate.
  - apply reader_down. intros w0.
    unfold Draft1.getHolderNFTCount_call, bind, sleep.
    rewrite paginate_unroll. cbn [andb Z.ltb Z.compare].
    unfold external.
    match goal with
    | |- context [httpAssets env ?k ?o ?c] =>
        destruct (isResolved_false _ (Hassets k o c)) as [error ->]
    end.
    exists error. reflexivity.
  - apply reader_down. apply one_request_down. intros k. apply Hassets.
  - apply reader_down. apply one_request_down. intros k. apply Haccount.
  - apply reader_down. apply one_request_down. intros k. apply Haccount.
  - apply reader_down. apply one_request_down. intros k. apply Hnft.
  - apply reader_down. intros w0.
    unfold bind, sleep, external.
    destruct (isResolved_false _ (Hlistings (calls (advance OPENSEA_DELAY w0))))
      as [error ->].
    exists error. reflexivity.
Qed.

Lemma marketplaceDown_offlineEnv : marketplaceDown offlineEnv.
Proof. repeat split. Defined.

Lemma readers_when_marketplace_down_witness :
  marketplaceDown offlineEnv /\
  Draft3.fetchRecentSales offlineEnv sampleWorld
    = (Resolved (Value []), afterThreeRequests sampleWorld) /\
  fst (getHolderNFTCount_v2 offlineEnv "0x7a9b" sampleWorld)
    = Resolved (Value 1).
Proof.
  split; [ exact marketplaceDown_offlineEnv | ].
  destruct (readers_when_marketplace_down offlineEnv sampleWorld "0x7a9b"
              None true marketplaceDown_offlineEnv)
    as (_ & _ & H3 & _ & _ & Hh & _).
  split; [ exact H3 | rewrite Hh; reflexivity ].
Defined.

(** The object built from a listing has a name, decimals other than 0 and a
    symbol, by the defaults of its literal. *)
Lemma floorOfListing_defaults (withSeller : bool) (listing : Listing) :
  floor_name (floorOfListing withSeller listing) <> "" /\
  (exists d, pay_decimals (floor_payment (floorOfListing withSeller listing))
             = Some d /\ d <> 0) /\
  truthyStr (pay_symbol (floor_payment (floorOfListing withSeller listing)))
    = true /\
  (withSeller = false ->
   floor_seller_address (floorOfListing withSeller listing) = None).
Proof.
  unfold floorOfListing, orElse. cbn [floor_name floor_payment pay_decimals
    pay_symbol floor_seller_address].
  split.
  { destruct (offer_token listing) as [token | ]; cbn [truthyStr default];
      [ | discriminate ].
    destruct (String.eqb_spec token ""); cbn [negb default];
      [ discriminate | assumption ]. }
  split.
  { destruct (price_decimals listing) as [d | ];
      [ | exists 18; split; [ reflexivity | discriminate ] ].
    destruct (Z.eqb_spec d 0);
      [ exists 18; split; [ reflexivity | discriminate ]
      | exists d; split; [ reflexivity | assumption ] ]. }
  split.
  { destruct (truthyStr (price_currency listing)) eqn:E;
      [ exact E | reflexivity ]. }
  intros ->. reflexivity.
Qed.

(** X19. [getFloorPriceNFT] always returns, with a floor listing or [null],
    after one to three requests and without writing or tweeting.  A listing
    it returns has a name, decimals other than 0 and a symbol, and no seller
    address in the drafts that do not read one.  When the first request is
    answered, the result is built from the first listing of the answer, and
    is [null] when the answer has none. *)
Theorem getFloorPriceNFT_result (withSeller : bool) (env : Env) (w : World) :
  exists (r : option FloorNFT) (w' : World),
    getFloorPriceNFT withSeller env w = (Resolved (Value r), w') /\
    quiet w w' /\ (calls w < calls w' <= calls w + 3)%nat /\
    (forall floor : FloorNFT,
       r = Some floor ->
       floor_name floor <> "" /\
       (exists d, pay_decimals (floor_payment floor) = Some d /\ d <> 0) /\
       truthyStr (pay_symbol (floor_payment floor)) = true /\
       (withSeller = false -> floor_seller_address floor = None)) /\
    (forall listings,
       httpListings env (calls w) = Resolved listings ->
       r = floorOfListing withSeller <$> head (default [] listings)).
Proof.
  unfold getFloorPriceNFT.
  assert (Hcall : forall w0,
            bind (sleep OPENSEA_DELAY)
              (fun _ =>
                 bind (external (httpListings env))
                   (fun listings =>
                      match default [] listings with
                      | listing :: _ =>
                          ret (Some (floorOfListing withSeller listing))
                      | [] => ret None
                      end)) w0
            = (match httpListings env (calls w0) with
               | Resolved listings =>
                   Resolved (floorOfListing withSeller
                               <$> head (default [] listings))
               | Rejected error => Rejected error
               end, afterRequest OPENSEA_DELAY w0)).
  { intros w0. unfold bind, sleep, external, ret, afterRequest.
    cbn [advance file now calls twitter].
    destruct (httpListings env (calls w0)) as [listings | error];
      [ | reflexivity ].
    destruct (default [] listings); reflexivity. }
  match goal with
  | |- context [withRetry ?c] =>
      destruct (retried_reader c None
                  (fun r => forall floor : FloorNFT,
                     r = Some floor ->
                     floor_name floor <> "" /\
                     (exists d, pay_decimals (floor_payment floor) = Some d
                                /\ d <> 0) /\
                     truthyStr (pay_symbol (floor_payment floor)) = true /\
                     (withSeller = false ->
                      floor_seller_address floor = None)))
        with (w := w)
        as (r & w' & Hrun & Hshape & Hq & Hc & Hfirst & _)
  end.
  - intros w0. rewrite Hcall. reflexivity.
  - intros w0 r. rewrite Hcall. cbn [fst].
    destruct (httpListings env (calls w0)) as [listings | error];
      [ | discriminate ].
    intros [= <-] floor Hfloor.
    destruct (default [] listings) as [ | listing rest ]; [ discriminate | ].
    injection Hfloor as <-. apply floorOfListing_defaults.
  - intros floor Hfloor. discriminate.
  - exists r, w'. split; [ exact Hrun | ]. split; [ exact Hq | ].
    split; [ exact Hc | ]. split; [ exact Hshape | ].
    intros listings Hanswer. rewrite Hcall, Hanswer in Hfirst.
    destruct (Hfirst _ eq_refl) as [-> _]. reflexivity.
Qed.

(** ** The pipeline: where a run ends *)

Lemma Draft2_fetch_returns (env : Env) (w : World) :
  exists (sales : list SaleEvent) (w1 : World),
    Draft2.fetchRecentSales env w = (Resolved (Value sales), w1) /\
    Forall (fun sale => isValidSaleEvent sale = true) sales /\
    quiet w w1.
Proof.
  destruct (retried_reader (Draft2.fetchRecentSales_call env) []
              (Forall (fun sale => isValidSaleEvent sale = true))
              (Draft2_fetch_call_world env) (Draft2_fetch_call_valid env)
              ltac:(constructor) w)
    as (sales & w' & Hrun & Hvalid & Hq & _).
  exists sales, w'. split; [ exact Hrun | split; assumption ].
Qed.

Lemma Draft3_fetch_returns (env : Env) (w : World) :
  exists (sales : list SaleEvent) (w1 : World),
    Draft3.fetchRecentSales env w = (Resolved (Value sales), w1) /\
    Forall (fun sale => isValidSaleEvent sale = true) sales /\
    quiet w w1.
Proof.
  destruct (retried_reader (Draft3.fetchRecentSales_call env) []
              (Forall (fun sale => isValidSaleEvent sale = true))
              (Draft3_fetch_call_world env) (Draft3_fetch_call_valid env)
              ltac:(constructor) w)
    as (sales & w' & Hrun & Hvalid & Hq & _).
  exists sales, w'. split; [ exact Hrun | split; assumption ].
Qed.

Lemma Resolves_Draft2_postFloorAlert (env : Env) :
  Resolves (Draft2.postFloorAlert env).
Proof. apply Resolves_try_catch. intros _. apply Resolves_ret. Qed.

Lemma Resolves_Draft3_postFloorAlert (env : Env) :
  Resolves (Draft3.postFloorAlert env).
Proof. apply Resolves_try_catch. intros _. apply Resolves_ret. Qed.

(** The body of [runBot] of draft 3 never raises: every run comes to the
    call of [updateLastCheckTime] that ends it. *)
Lemma Draft3_run_ends (env : Env) (w : World) :
  exists w0 : World,
    Draft3.runBot env w = Draft3.updateLastCheckTime env w0.
Proof.
  assert (Hupdate : forall w0,
            exists w', Draft3.updateLastCheckTime env w0 = (Resolved tt, w')).
  { intros w0.
    destruct (Resolves_try_catch
                (bind (try_catch readCheckpoint (fun _ => ret ∅))
                   (fun data =>
                      bind clock
                        (fun t =>
                           writeCheckpoint env (<["lastCheck" := t]> data))))
                (fun _ => ret tt)
                (fun _ => Resolves_ret tt) w0) as ([] & w' & H).
    exists w'. exact H. }
  assert (Hend : forall (body : Async World unit) w0,
            body w = Draft3.updateLastCheckTime env w0 ->
            try_catch body (fun _ => ret tt) w
            = Draft3.updateLastCheckTime env w0).
  { intros body w0 Hbody. unfold try_catch. rewrite Hbody.
    destruct (Hupdate w0) as [w' ->]. reflexivity. }
  destruct (Draft3_fetch_returns env w) as (sales & w1 & Hfetch & Hvalid & _).
  destruct (Resolves_shouldPostFloorAlertAfter 72 w1) as (due & w2 & Hdue).
  unfold Draft3.runBot.
  destruct sales as [ | sale sales ].
  - destruct due.
    + destruct (Resolves_Draft3_postFloorAlert env w2) as ([] & w3 & Hpost).
      exists w3. apply Hend.
      unfold bind at 1. rewrite Hfetch.
      unfold bind at 1. unfold Draft3.shouldPostFloorAlert. rewrite Hdue.
      cbn [length Nat.eqb andb negb].
      unfold bind at 1. rewrite Hpost. reflexivity.
    + exists w2. apply Hend.
      unfold bind at 1. rewrite Hfetch.
      unfold bind at 1. unfold Draft3.shouldPostFloorAlert. rewrite Hdue.
      reflexivity.
  - destruct (forOf_processSale_v2 getTransactionStatus env
                (take 3 (sale :: sales))
                ltac:(apply Forall_take; exact Hvalid) w2)
      as (segments & w3 & Hloop & _).
    exists w3. apply Hend.
    unfold bind at 1. rewrite Hfetch.
    unfold bind at 1. unfold Draft3.shouldPostFloorAlert. rewrite Hdue.
    cbn [length Nat.eqb andb]. rewrite andb_false_r.
    unfold bind at 1, ret at 1. unfold bind at 1.
    unfold Draft3.processSale. rewrite Hloop. reflexivity.
Qed.

(** The same for draft 2, whose last call can raise into the [catch] of
    [runBot]. *)
Lemma Draft2_run_ends (env : Env) (w : World) :
  exists w0 : World,
    Draft2.runBot env w
    = (Resolved tt, snd (Draft2.updateLastCheckTime env w0)).
Proof.
  assert (Hend : forall (body : Async World unit) w0,
            body w = Draft2.updateLastCheckTime env w0 ->
            try_catch body (fun _ => ret tt) w
            = (Resolved tt, snd (Draft2.updateLastCheckTime env w0))).
  { intros body w0 Hbody. unfold try_catch. rewrite Hbody.
    destruct (Draft2.updateLastCheckTime env w0) as [[ [] | error ] w'];
      reflexivity. }
  destruct (Draft2_fetch_returns env w) as (sales & w1 & Hfetch & Hvalid & _).
  destruct (Resolves_shouldPostFloorAlertAfter 20 w1) as (due & w2 & Hdue).
  unfold Draft2.runBot.
  destruct sales as [ | sale sales ].
  - destruct due.
    + destruct (Resolves_Draft2_postFloorAlert env w2) as ([] & w3 & Hpost).
      exists w3. apply Hend.
      unfold bind at 1. rewrite Hfetch.
      unfold bind at 1. unfold Draft2.shouldPostFloorAlert. rewrite Hdue.
      cbn [length Nat.eqb andb negb].
      unfold bind at 1. rewrite Hpost. reflexivity.
    + exists w2. apply Hend.
      unfold bind at 1. rewrite Hfetch.
      unfold bind at 1. unfold Draft2.shouldPostFloorAlert. rewrite Hdue.
      reflexivity.
  - destruct (forOf_processSale_v2 (fun _ _ => "FAMILY BUSINESS") env
                (take 3 (sale :: sales))
                ltac:(apply Forall_take; exact Hvalid) w2)
      as (segments & w3 & Hloop & _).
    exists w3. apply Hend.
    unfold bind at 1. rewrite Hfetch.
    unfold bind at 1. unfold Draft2.shouldPostFloorAlert. rewrite Hdue.
    cbn [length Nat.eqb andb]. rewrite andb_false_r.
    unfold bind at 1, ret at 1. unfold bind at 1.
    unfold Draft2.processSale. rewrite Hloop. reflexivity.
Qed.

(** X20. Every run of drafts 2 and 3 comes to its last statement, the call
    of [updateLastCheckTime]: on events shaped as [SaleEvent] has them (the
    API v2 shape, buyer and seller as strings), nothing before it escapes
    to the [catch] of [runBot].  So, when the store can be written, a run
    ends with [lastCheck] set to the time of its end, whether sales were
    found, an alert was posted, or every request failed. *)
Theorem run_advances_checkpoint (env : Env) (w : World) :
  fsWritable env = true ->
  (fst (Draft2.runBot env w) = Resolved tt /\
   stored "lastCheck" (snd (Draft2.runBot env w))
   = Some (now (snd (Draft2.runBot env w)))) /\
  (fst (Draft3.runBot env w) = Resolved tt /\
   stored "lastCheck" (snd (Draft3.runBot env w))
   = Some (now (snd (Draft3.runBot env w)))).
Proof.
  intros Hw. split.
  - destruct (Draft2_run_ends env w) as [w0 ->]. cbn [fst snd].
    split; [ reflexivity | ].
    unfold Draft2.updateLastCheckTime, updateLastCheckTime_overwrite, stored,
      bind, clock, writeCheckpoint.
    rewrite Hw. cbn [snd file now mbind option_bind].
    apply lookup_insert_eq.
  - destruct (Draft3_run_ends env w) as [w0 ->].
    unfold Draft3.updateLastCheckTime, stored, try_catch, bind,
      readCheckpoint, clock, writeCheckpoint, ret.
    rewrite Hw.
    destruct (file w0); cbn [fst snd file now mbind option_bind];
      (split; [ reflexivity | apply lookup_insert_eq ]).
Qed.

Lemma run_advances_checkpoint_witness :
  stored "lastCheck"
    (snd (Draft3.runBot (sampleEnv false [newSale]) sampleWorld))
  = Some (now (snd (Draft3.runBot (sampleEnv false [newSale]) sampleWorld))) /\
  now (snd (Draft3.runBot (sampleEnv false [newSale]) sampleWorld))
  = 1700001805750.
Proof.
  split.
  - destruct (run_advances_checkpoint (sampleEnv false [newSale]) sampleWorld
                eq_refl) as (_ & _ & H).
    exact H.
  - vm_compute. reflexivity.
Defined.

(** X21. In draft 2, whose [updateLastCheckTime] stores a fresh object,
    every run on a writable store ends with a document that has no
    [lastFloorAlert], also a run that has just posted the alert and stamped
    it: [shouldPostFloorAlert] answers true at the start of every later run,
    however soon. *)
Theorem Draft2_run_reopens_floor_gate (env : Env) (w : World) (elapsed : Z) :
  fsWritable env = true ->
  stored "lastFloorAlert" (snd (Draft2.runBot env w)) = None /\
  fst (Draft2.shouldPostFloorAlert
         (advance elapsed (snd (Draft2.runBot env w))))
  = Resolved true.
Proof.
  intros Hw.
  destruct (Draft2_run_ends env w) as [w0 ->]. cbn [snd].
  unfold Draft2.updateLastCheckTime, updateLastCheckTime_overwrite,
    Draft2.shouldPostFloorAlert, shouldPostFloorAlertAfter, stored, try_catch,
    bind, readCheckpoint, clock, writeCheckpoint, ret.
  rewrite Hw. cbn [snd fst file advance mbind option_bind].
  rewrite lookup_insert_ne by discriminate. rewrite lookup_empty.
  split; reflexivity.
Qed.

Lemma Draft2_run_reopens_floor_gate_witness :
  existsb floorPublished
    (newCalls freshWorld (snd (Draft2.runBot (sampleEnv false []) freshWorld)))
  = true /\
  fst (Draft2.shouldPostFloorAlert
         (advance 60000
            (snd (Draft2.runBot (sampleEnv false []) freshWorld))))
  = Resolved true.
Proof.
  split; [ vm_compute; reflexivity | ].
  destruct (Draft2_run_reopens_floor_gate (sampleEnv false []) freshWorld
              60000 eq_refl) as [_ H].
  exact H.
Defined.

(** X22. In draft 3 the checkpoint written at the end of a run bounds what
    any later fetch returns: on the document that run left, and whatever the
    marketplace answers, [fetchRecentSales] returns only events later (in
    whole seconds) than the end of the run.  A sale that took place before
    the end of a run and was not posted by it, for one because it came after
    the third of its batch, is not returned again. *)
Theorem Draft3_next_fetch_after_run
    (env env' : Env) (w later : World) :
  fsWritable env = true ->
  file later = file (snd (Draft3.runBot env w)) ->
  exists (sales : list SaleEvent) (w' : World),
    Draft3.fetchRecentSales env' later = (Resolved (Value sales), w') /\
    Forall (fun sale =>
              exists ts, event_timestamp sale = Some ts /\
                         now (snd (Draft3.runBot env w)) / 1000 < ts) sales /\
    forall sale ts,
      event_timestamp sale = Some ts ->
      ts * 1000 <= now (snd (Draft3.runBot env w)) ->
      ~ In sale sales.
Proof.
  intros Hw Hfile.
  assert (Hstored : exists data,
            file later = Some data /\
            data !! "lastCheck" = Some (now (snd (Draft3.runBot env w)))).
  { rewrite Hfile. destruct (Draft3_run_ends env w) as [w0 ->].
    unfold Draft3.updateLastCheckTime, try_catch, bind, readCheckpoint,
      clock, writeCheckpoint, ret.
    rewrite Hw.
    destruct (file w0); cbn [snd file now]; eexists;
      (split; [ reflexivity | apply lookup_insert_eq ]). }
  destruct Hstored as (data & Hdata & Hlast).
  set (stamp := now (snd (Draft3.runBot env w))) in *.
  assert (Hsound : exists (sales : list SaleEvent) (w' : World),
            Draft3.fetchRecentSales env' later = (Resolved (Value sales), w') /\
            Forall (fun sale =>
                      exists ts, event_timestamp sale = Some ts /\
                                 stamp / 1000 < ts) sales).
  { unfold Draft3.fetchRecentSales, try_catch.
    pose proof (withRetry_result quiet _ later
                  (Keeps_quiet_Draft3_fetch_call env') quiet_advance) as Hres.
    destruct (withRetry (Draft3.fetchRecentSales_call env') later)
      as [[[sales | ] | error] w']; cbn [fst] in Hres.
    - exists sales, w'. split; [ reflexivity | ].
      destruct Hres as (w0 & (Hf & _ & _) & Hcall).
      apply Draft3_fetch_call_after_checkpoint in Hcall
        as (lastCheck & Hread & Hall).
      rewrite Hf, Hdata, Hlast in Hread. injection Hread as <-.
      eapply Forall_impl; [ exact Hall | ].
      intros sale [(ts & Hts & Hgt) _]. exists ts. split; [ exact Hts | lia ].
    - contradiction.
    - exists [], w'. split; [ reflexivity | constructor ]. }
  destruct Hsound as (sales & w' & Hrun & Hall).
  exists sales, w'. split; [ exact Hrun | ]. split; [ exact Hall | ].
  intros sale ts Hts Hold Hin.
  rewrite List.Forall_forall in Hall.
  destruct (Hall sale Hin) as (ts' & Hts' & Hgt).
  rewrite Hts in Hts'. injection Hts' as <-.
  assert (ts <= stamp / 1000) by (apply Z.div_le_lower_bound; lia).
  lia.
Qed.

Lemma Draft3_next_fetch_after_run_witness :
  length
    (omap callSale
       (newCalls sampleWorld
          (snd (Draft3.runBot (sampleEnv false tenSales) sampleWorld))))
  = 3%nat /\
  exists w' : World,
    Draft3.fetchRecentSales (sampleEnv false tenSales)
      (snd (Draft3.runBot (sampleEnv false tenSales) sampleWorld))
    = (Resolved (Value []), w').
Proof.
  split; [ vm_compute; reflexivity | ].
  destruct (Draft3_next_fetch_after_run (sampleEnv false tenSales)
              (sampleEnv false tenSales) sampleWorld
              (snd (Draft3.runBot (sampleEnv false tenSales) sampleWorld))
              eq_refl eq_refl)
    as (sales & w' & Hrun & _).
  exists w'. rewrite Hrun. f_equal.
  vm_compute in Hrun. injection Hrun as <- _. reflexivity.
Defined.

(** ** The floor alert and its time stamp *)

Lemma newCalls_quiet (w w1 : World) : quiet w w1 -> newCalls w w1 = [].
Proof.
  intros (_ & Ht & _). unfold newCalls. rewrite Ht. apply drop_all.
Qed.

Lemma newCalls_app (w w' : World) (new : list TwitterCall) :
  twitter w' = twitter w ++ new -> newCalls w w' = new.
Proof. intros H. unfold newCalls. rewrite H. apply drop_app_length. Qed.

(** The end of the alert block of drafts 2 and 3, from the tweet on: one
    tweet without media, then the stamp and the pause, whatever the tweet
    came to. *)
Lemma floor_alert_tail (env : Env) (body : TweetText) (w : World) :
  fsWritable env = true ->
  exists (ok : bool) (w' : World),
    bind (uploadNftImage env None)
      (fun mediaIds =>
         bind (tweetWithFallback env body mediaIds)
           (fun _ =>
              bind (updateLastFloorAlert env)
                (fun _ => sleep TWITTER_DELAY))) w
    = (Resolved tt, w') /\
    twitter w'
    = twitter w ++ [PostTweet {| text := body; media_ids := [] |} ok] /\
    stored "lastFloorAlert" w' = Some (now w' - TWITTER_DELAY).
Proof.
  intros Hw.
  unfold uploadNftImage, tweetWithFallback, updateLastFloorAlert, try_catch,
    bind, ret, tweet, readCheckpoint, clock, writeCheckpoint, sleep, stored.
  rewrite Hw. cbn [length Nat.ltb Nat.leb].
  destruct (twitterTweet env (calls w) {| text := body; media_ids := [] |})
    as [ [] | error ]; cbn [isResolved file now calls twitter];
    destruct (file w) as [data | ];
    cbn [snd advance file now calls twitter mbind option_bind];
    eexists _, _; (split; [ reflexivity | ]);
    cbn [advance file now twitter mbind option_bind];
    (split; [ reflexivity | ]);
    cbn [advance file now mbind option_bind];
    rewrite lookup_insert_eq; f_equal; lia.
Qed.



(** The end of the alert block of draft 1, from the upload of the card
    on. *)
Lemma Draft1_floor_alert_tail (env : Env) (body : TweetText)
    (rendered : bool) (w : World) :
  fsWritable env = true ->
  exists new : list TwitterCall,
    let w' :=
      snd (bind (uploadMedia env (FloorCard rendered))
             (fun cardUpload =>
                bind (tweet env {| text := body; media_ids := [cardUpload] |})
                  (fun _ =>
                     bind (updateLastFloorAlert env)
                       (fun _ => sleep TWITTER_DELAY))) w) in
    twitter w' = twitter w ++ new /\
    (existsb tweetPosted new = true /\
     stored "lastFloorAlert" w' = Some (now w' - TWITTER_DELAY)
     \/ existsb tweetPosted new = false /\ file w' = file w).
Proof.
  intros Hw. cbv zeta.
  unfold updateLastFloorAlert, try_catch, bind, ret, uploadMedia, tweet,
    readCheckpoint, clock, writeCheckpoint, sleep, stored.
  rewrite Hw.
  destruct (twitterUpload env (calls w) (FloorCard rendered))
    as [cardUpload | error]; cbn [isResolved calls twitter snd].
  - destruct (twitterTweet env (S (calls w))
                {| text := body; media_ids := [cardUpload] |})
      as [ [] | error ]; cbn [isResolved file now calls twitter snd].
    + eexists [_; _].
      destruct (file w) as [data | ];
        cbn [snd advance file now calls twitter mbind option_bind];
        (split; [ rewrite <- app_assoc; reflexivity | ]);
        left; (split; [ reflexivity | ]);
        rewrite lookup_insert_eq; f_equal; lia.
    + eexists [_; _].
      split; [ rewrite <- app_assoc; reflexivity | ].
      right. split; reflexivity.
  - eexists [_]. split; [ reflexivity | ]. right. split; reflexivity.
Qed.

(** X24. In draft 1 the alert block stamps [lastFloorAlert] only after the
    tweet of the alert went out: on a writable store it either posts the
    alert and leaves [lastFloorAlert] at the time of the tweet, or posts
    nothing (no listing, a card that could not be drawn or uploaded, a tweet
    that was refused) and leaves the stored document as it was. *)
Theorem Draft1_stamps_when_posted (env : Env) (w : World) :
  fsWritable env = true ->
  let w' := snd (Draft1.postFloorAlert env w) in
  existsb tweetPosted (newCalls w w') = true /\
  stored "lastFloorAlert" w' = Some (now w' - TWITTER_DELAY)
  \/ existsb tweetPosted (newCalls w w') = false /\ file w' = file w.
Proof.
  intros Hw. cbv zeta.
  remember (snd (Draft1.postFloorAlert env w)) as w' eqn:E.
  unfold Draft1.postFloorAlert in E. rewrite snd_try_catch_ret in E.
  unfold bind at 1 in E.
  pose proof (Keeps_quiet_getFloorPriceNFT false env w) as Hq.
  destruct (getFloorPriceNFT false env w) as [[[[floor | ] | ] | error] w1];
    cbn [snd] in Hq, E;
    try (unfold ret in E; cbn [snd] in E; subst w'; right;
         rewrite (newCalls_quiet _ _ Hq);
         split; [ reflexivity | apply Hq ]).
  cbv zeta in E. unfold bind at 1 in E.
  pose proof (Keeps_quiet_Draft1_getNFTImageUrl env AL_CABONE_CONTRACT
                (floor_token_id floor) w1) as Hq2.
  destruct (Draft1.getNFTImageUrl env AL_CABONE_CONTRACT
              (floor_token_id floor) w1) as [[nftImageUrl | error] w2];
    cbn [snd] in Hq2, E;
    assert (Hq02 : quiet w w2) by (etransitivity; eassumption);
    [ | subst w'; right; rewrite (newCalls_quiet _ _ Hq02);
        split; [ reflexivity | apply Hq02 ] ].
  unfold bind at 1 in E.
  assert (Hcard : exists (c : Completion bool) (w3 : World),
            Draft1.createFloorAlertImage env w2 = (c, w3) /\ quiet w w3).
  { unfold Draft1.createFloorAlertImage.
    destruct (canvas env); cbn [negb].
    - unfold bind, external, ret.
      destruct (renderCanvas env (calls w2)) as [ [] | error ];
        eexists _, _; (split; [ reflexivity | ]);
        (etransitivity; [ exact Hq02 | ]);
        unfold quiet; cbn; repeat split; lia.
    - eexists _, _. split; [ reflexivity | exact Hq02 ]. }
  destruct Hcard as ([rendered | error] & w3 & Hcard & Hq3);
    rewrite Hcard in E; cbn [snd] in E;
    [ | subst w'; right; rewrite (newCalls_quiet _ _ Hq3);
        split; [ reflexivity | apply Hq3 ] ].
  match type of E with
  | context [tweet env {| text := ?body; media_ids := _ |}] =>
      destruct (Draft1_floor_alert_tail env body rendered w3 Hw)
        as (new & Htw & Hcases)
  end.
  cbv zeta in Htw, Hcases. rewrite <- E in Htw, Hcases.
  destruct Hq3 as (Hf3 & Ht3 & _). rewrite Ht3 in Htw.
  rewrite (newCalls_app _ _ _ Htw).
  destruct Hcases as [[Hposted Hstamp] | [Hnone Hfile]].
  - left. split; assumption.
  - right. split; [ exact Hnone | congruence ].
Qed.

Lemma Draft1_stamps_when_posted_witness :
  file (snd (Draft1.postFloorAlert (refusedEnv []) sampleWorld))
  = file sampleWorld.
Proof.
  destruct (Draft1_stamps_when_posted (refusedEnv []) sampleWorld eq_refl)
    as [[Hposted _] | [_ Hfile]].
  - vm_compute in Hposted. discriminate Hposted.
  - exact Hfile.
Defined.

(** ** Test mode *)

Lemma Keeps_quiet_testOpenSea
    (fetchRecentSales : Async World (JsReturn (list SaleEvent)))
    (floorPriceNFT : Async World (JsReturn (option FloorNFT))) :
  Keeps quiet fetchRecentSales -> Keeps quiet floorPriceNFT ->
  Keeps quiet (TestMode.testOpenSea fetchRecentSales floorPriceNFT).
Proof. intros Hf Hp. unfold TestMode.testOpenSea. keeps. Qed.

Lemma Keeps_quiet_testTwitter (twitterMe : nat -> Completion (option string)) :
  Keeps quiet (TestMode.testTwitter twitterMe).
Proof. unfold TestMode.testTwitter. keeps. Qed.

Lemma Keeps_quiet_testCanvas (env : Env) :
  Keeps quiet (TestMode.testCanvas env).
Proof. unfold TestMode.testCanvas. keeps. Qed.

Lemma Keeps_quiet_testImage (env : Env) : Keeps quiet (TestMode.testImage env).
Proof. unfold TestMode.testImage. keeps. Qed.

(** A sequence of three guarded blocks: it returns, and keeps what the
    blocks keep. *)
Lemma three_blocks (a b c : Async World unit) (w : World) :
  Keeps quiet (try_catch a (fun _ => ret tt)) ->
  Keeps quiet (try_catch b (fun _ => ret tt)) ->
  Keeps quiet (try_catch c (fun _ => ret tt)) ->
  exists w' : World,
    bind (try_catch a (fun _ => ret tt))
      (fun _ => bind (try_catch b (fun _ => ret tt))
                  (fun _ => try_catch c (fun _ => ret tt))) w
    = (Resolved tt, w') /\ quiet w w'.
Proof.
  intros Ha Hb Hc.
  assert (Hrun : forall (m : Async World unit) w0,
            Keeps quiet (try_catch m (fun _ => ret tt)) ->
            exists w1, try_catch m (fun _ => ret tt) w0 = (Resolved tt, w1)
                       /\ quiet w0 w1).
  { intros m w0 Hm. specialize (Hm w0). unfold try_catch, ret in *.
    destruct (m w0) as [[ [] | error ] w1]; cbn [snd] in Hm;
      exists w1; split; (reflexivity || exact Hm). }
  destruct (Hrun a w Ha) as (w1 & E1 & Q1).
  destruct (Hrun b w1 Hb) as (w2 & E2 & Q2).
  destruct (Hrun c w2 Hc) as (w3 & E3 & Q3).
  exists w3. unfold bind. rewrite E1, E2, E3.
  split; [ reflexivity | ].
  etransitivity; [ exact Q1 | ]. etransitivity; eassumption.
Qed.

(** X25. Started with [--test] among its arguments, the bot runs
    [runTests] and not [runBot]; in each draft [runTests] returns without
    raising, whatever the marketplace and Twitter answer, makes no upload
    and posts no tweet, and leaves [last-check.json] as it was. *)
Theorem test_mode_posts_nothing
    (env : Env) (twitterMe : nat -> Completion (option string))
    (argv : list string) (w : World) :
  "--test" ∈ argv ->
  (exists w' : World,
     TestMode.main (TestMode.runTests1 env twitterMe) (Draft1.runBot env) argv w
     = (Resolved tt, w') /\
     twitter w' = twitter w /\ file w' = file w) /\
  (exists w' : World,
     TestMode.main (TestMode.runTests2 env twitterMe) (Draft2.runBot env) argv w
     = (Resolved tt, w') /\
     twitter w' = twitter w /\ file w' = file w) /\
  (exists w' : World,
     TestMode.main (TestMode.runTests3 env twitterMe) (Draft3.runBot env) argv w
     = (Resolved tt, w') /\
     twitter w' = twitter w /\ file w' = file w).
Proof.
  intros Hargv. unfold TestMode.main.
  rewrite bool_decide_eq_true_2 by exact Hargv.
  split; [ | split ].
  - destruct (three_blocks _ _ _ w
                (Keeps_quiet_testOpenSea _ _
                   (Keeps_quiet_Draft1_fetchRecentSales env)
                   (Keeps_quiet_getFloorPriceNFT false env))
                (Keeps_quiet_testTwitter twitterMe)
                (Keeps_quiet_testCanvas env))
      as (w' & Hrun & Hf & Ht & _).
    exists w'. split; [ exact Hrun | split; assumption ].
  - destruct (three_blocks _ _ _ w
                (Keeps_quiet_testOpenSea _ _
                   (Keeps_quiet_Draft2_fetchRecentSales env)
                   (Keeps_quiet_getFloorPriceNFT false env))
                (Keeps_quiet_testTwitter twitterMe)
                (Keeps_quiet_testImage env))
      as (w' & Hrun & Hf & Ht & _).
    exists w'. split; [ exact Hrun | split; assumption ].
  - destruct (three_blocks _ _ _ w
                (Keeps_quiet_testOpenSea _ _
                   (Keeps_quiet_Draft3_fetchRecentSales env)
                   (Keeps_quiet_getFloorPriceNFT true env))
                (Keeps_quiet_testTwitter twitterMe)
                (Keeps_quiet_testImage env))
      as (w' & Hrun & Hf & Ht & _).
    exists w'. split; [ exact Hrun | split; assumption ].
Qed.

Lemma test_mode_posts_nothing_witness :
  exists w' : World,
    TestMode.main
      (TestMode.runTests3 (sampleEnv false [newSale]) (fun _ => Rejected "401"))
      (Draft3.runBot (sampleEnv false [newSale]))
      ["node"; "bot.js"; "--test"] freshWorld
    = (Resolved tt, w') /\
    twitter w' = [] /\ file w' = None.
Proof.
  refine (proj2 (proj2 (test_mode_posts_nothing (sampleEnv false [newSale])
                          (fun _ => Rejected "401")
                          ["node"; "bot.js"; "--test"] freshWorld _))).
  rewrite !elem_of_cons. tauto.
Defined.

(** ** What a sale tweet says *)

(** [bind], when the continuation is only known to keep [R] on the values
    the first computation can resolve with. *)
Lemma Keeps_bind_value {A B : Type} (R : World -> World -> Prop)
    `{!PreOrder R} (P : A -> Prop) (m : Async World A)
    (k : A -> Async World B) :
  Keeps R m ->
  (forall w a w1, m w = (Resolved a, w1) -> P a) ->
  (forall a, P a -> Keeps R (k a)) ->
  Keeps R (bind m k).
Proof.
  intros Hm HP Hk w. unfold bind. specialize (Hm w).
  destruct (m w) as [[a | error] w1] eqn:E; cbn [snd] in Hm.
  - etransitivity; [ exact Hm | apply Hk; eapply HP; exact E ].
  - exact Hm.
Qed.

Lemma Keeps_journal_tweetWithFallback (Q : TwitterCall -> Prop) (env : Env)
    (body : TweetText) (mediaIds : list string) :
  (forall media ok, Q (PostTweet {| text := body; media_ids := media |} ok)) ->
  Keeps (journal Q) (tweetWithFallback env body mediaIds).
Proof.
  intros HQ. unfold tweetWithFallback.
  assert (Htweet : forall media,
             Keeps (journal Q)
               (tweet env {| text := body; media_ids := media |})).
  { intros media. apply Keeps_journal_tweet. intros ok. apply HQ. }
  keeps.
Qed.

Lemma holder_count_value (env : Env) (address : string) (w w1 : World)
    (count : JsReturn Z) :
  getHolderNFTCount_v2 env address w = (Resolved count, w1) ->
  exists n, count = Value n /\ 1 <= n.
Proof.
  unfold getHolderNFTCount_v2. intros Hrun.
  match type of Hrun with
  | context [withRetry ?c] =>
      destruct (retried_reader c 1 (fun n => 1 <= n)) with (w := w)
        as (n & w' & Hret & Hrange & _)
  end.
  - intros w0. rewrite one_request_call. reflexivity.
  - intros w0 n. rewrite one_request_call. cbn [fst].
    destruct (httpAccountNfts env (calls w0) address); [ | discriminate ].
    intros [= <-]. lia.
  - lia.
  - rewrite Hret in Hrun. injection Hrun as <- _. exists n.
    split; [ reflexivity | exact Hrange ].
Qed.

Lemma seller_count_value (env : Env) (address : string) (w w1 : World)
    (count : JsReturn Z) :
  getSellerNFTCount_v2 env address w = (Resolved count, w1) ->
  exists n, count = Value n /\ 0 <= n.
Proof.
  unfold getSellerNFTCount_v2. intros Hrun.
  match type of Hrun with
  | context [withRetry ?c] =>
      destruct (retried_reader c 0 (fun n => 0 <= n)) with (w := w)
        as (n & w' & Hret & Hrange & _)
  end.
  - intros w0. rewrite one_request_call. reflexivity.
  - intros w0 n. rewrite one_request_call. cbn [fst].
    destruct (httpAccountNfts env (calls w0) address); [ | discriminate ].
    intros [= <-]. lia.
  - lia.
  - rewrite Hret in Hrun. injection Hrun as <- _. exists n.
    split; [ reflexivity | exact Hrange ].
Qed.

(** What [sellerInfo] resolves with: a count and the tier of that count,
    or 0 and ['unknown'] without a seller address. *)
Lemma sellerInfo_value (env : Env) (sellerAddress : option string)
    (w w1 : World) (pair : JsReturn Z * string) :
  sellerInfo (getSellerNFTCount_v2 env) sellerAddress w = (Resolved pair, w1) ->
  (exists n, fst pair = Value n /\ 0 <= n) /\
  if truthyStr sellerAddress
  then snd pair = tierOfCount (fst pair)
  else snd pair = "unknown" /\ fst pair = Value 0.
Proof.
  unfold sellerInfo.
  destruct sellerAddress as [address | ];
    [ | intros [= <- _]; cbn; split; [ exists 0; split; [ reflexivity | lia ]
                                      | split; reflexivity ] ].
  destruct (truthyStr (Some address));
    [ | intros [= <- _]; cbn; split; [ exists 0; split; [ reflexivity | lia ]
                                      | split; reflexivity ] ].
  unfold bind, ret.
  destruct (getSellerNFTCount_v2 env address w) as [[count | error] w2] eqn:E;
    [ | discriminate ].
  intros [= <- _]. cbn [fst snd].
  split; [ exact (seller_count_value env address w w2 count E) | reflexivity ].
Qed.

Lemma Keeps_coherent_processSale_v2 (status : string -> string -> string)
    (env : Env) (sale : SaleEvent) :
  Keeps (journal (coherentCall status)) (processSale_v2 status env sale).
Proof.
  unfold processSale_v2.
  destruct (buyer sale) as [buyerAddress | ] eqn:Hbuyer; [ | keeps ].
  destruct (negb (truthyStr (Some buyerAddress))); [ keeps | ].
  apply (Keeps_bind_value (journal (coherentCall status))
           (fun count => exists n, count = Value n /\ 1 <= n)).
  { keeps. }
  { intros w count w1. apply holder_count_value. }
  intros buyerCount HbuyerCount.
  apply (Keeps_bind_value (journal (coherentCall status))
           (fun pair : JsReturn Z * string =>
              (exists n, fst pair = Value n /\ 0 <= n) /\
              if truthyStr (seller sale)
              then snd pair = tierOfCount (fst pair)
              else snd pair = "unknown" /\ fst pair = Value 0)).
  { keeps. }
  { intros w pair w1. apply sellerInfo_value. }
  intros sellerPair [HsellerCount HsellerTier]. cbv zeta.
  destruct (nft sale) as [saleNft | ]; [ | keeps ].
  apply Keeps_try_catch; [ exact _ | | intros; apply Keeps_ret; exact _ ].
  apply Keeps_bind; [ exact _ | | ].
  { unfold uploadNftImage. keeps. }
  intros mediaIds.
  apply Keeps_bind; [ exact _ | | intros; keeps ].
  apply Keeps_journal_tweetWithFallback. intros media ok.
  cbn [coherentCall text coherentPost post_buyer post_buyerCount
       post_buyerTier post_sellerCount post_sellerTier post_status
       post_price].
  repeat split; try assumption; try reflexivity.
Qed.

Lemma Keeps_coherent_floor_tweet (status : string -> string -> string)
    (env : Env) (floor : FloorNFT) (price : Price)
    (seller : option (string * JsReturn Z * bool)) (mediaIds : list string) :
  Keeps (journal (coherentCall status))
    (tweetWithFallback env (FloorAlert floor price seller) mediaIds).
Proof.
  apply Keeps_journal_tweetWithFallback. intros media ok. exact I.
Qed.

Lemma Keeps_coherent_uploadNftImage (status : string -> string -> string)
    (env : Env) (url : option string) :
  Keeps (journal (coherentCall status)) (uploadNftImage env url).
Proof.
  unfold uploadNftImage.
  assert (Hupload : forall m,
             Keeps (journal (coherentCall status)) (uploadMedia env m)).
  { intros m. apply Keeps_journal_uploadMedia. intros ok. exact I. }
  keeps.
Qed.

(** X26. Every tweet for a sale that a run of draft 2 or of draft 3 sends
    is coherent: the suspect is the buyer of the sale, with a count of at
    least 1; each tier shown is [getHolderTier] of the count shown beside
    it, and a sale without a seller address shows ['unknown'] and 0; the
    status is FAMILY BUSINESS in draft 2 and [getTransactionStatus] of the
    two tiers shown in draft 3; the price is [formatPrice] of the sale. *)
Theorem sale_tweets_coherent (env : Env) (w : World) :
  journal (coherentCall (fun _ _ => "FAMILY BUSINESS")) w
    (snd (Draft2.runBot env w)) /\
  journal (coherentCall getTransactionStatus) w (snd (Draft3.runBot env w)).
Proof.
  split.
  - apply (Keeps_at (journal (coherentCall (fun _ _ => "FAMILY BUSINESS")))).
    pose proof (Keeps_coherent_processSale_v2
                  (fun _ _ => "FAMILY BUSINESS") env).
    pose proof (Keeps_coherent_floor_tweet (fun _ _ => "FAMILY BUSINESS") env).
    pose proof (Keeps_coherent_uploadNftImage
                  (fun _ _ => "FAMILY BUSINESS") env).
    unfold Draft2.runBot, Draft2.shouldPostFloorAlert,
      Draft2.updateLastCheckTime, updateLastCheckTime_overwrite,
      Draft2.processSale, Draft2.postFloorAlert, updateLastFloorAlert.
    keeps.
  - apply (Keeps_at (journal (coherentCall getTransactionStatus))).
    pose proof (Keeps_coherent_processSale_v2 getTransactionStatus env).
    pose proof (Keeps_coherent_floor_tweet getTransactionStatus env).
    pose proof (Keeps_coherent_uploadNftImage getTransactionStatus env).
    unfold Draft3.runBot, Draft3.shouldPostFloorAlert,
      Draft3.updateLastCheckTime, Draft3.processSale, Draft3.postFloorAlert,
      Draft3.getSellerNFTCount, updateLastFloorAlert.
    keeps.
Qed.

(** ** The batch of a run, on ten sales *)


Lemma batch_within_first_three_witness :
  journal (withinBatch (take 3 tenSales)) sampleWorld
    (snd (Draft1.runBot (sampleEnv false tenSales) sampleWorld)).
Proof.
  destruct (batch_within_first_three (sampleEnv false tenSales) sampleWorld)
    as [H1 _].
  apply (H1 tenSales
           (snd (Draft1.fetchRecentSales (sampleEnv false tenSales)
                   sampleWorld))).
  vm_compute. reflexivity.
Defined.

(** ** How many tweets a run posts *)

Lemma atMostPosted_quiet (w w' : World) : quiet w w' -> atMostPosted 0 w w'.
Proof.
  intros (_ & Ht & _). exists [].
  split; [ rewrite app_nil_r; exact Ht | reflexivity ].
Qed.

Lemma atMostPosted_trans (n k : nat) (w w1 w2 : World) :
  atMostPosted n w w1 -> atMostPosted k w1 w2 -> atMostPosted (n + k) w w2.
Proof.
  intros (new1 & H1 & L1) (new2 & H2 & L2). exists (new1 ++ new2).
  split; [ rewrite H2, H1, app_assoc; reflexivity | ].
  rewrite List.filter_app, length_app. lia.
Qed.

Lemma atMostPosted_newCalls (n : nat) (w w' : World) :
  atMostPosted n w w' ->
  (length (List.filter tweetPosted (newCalls w w')) <= n)%nat.
Proof. intros (new & H & L). rewrite (newCalls_app _ _ _ H). exact L. Qed.

Lemma Spends_weaken {A : Type} (n k : nat) (m : Async World A) :
  (n <= k)%nat -> Spends n m -> Spends k m.
Proof.
  intros Hle Hm w. destruct (Hm w) as (new & H & L).
  exists new. split; [ exact H | lia ].
Qed.

Lemma Spends_quiet {A : Type} (m : Async World A) :
  Keeps quiet m -> Spends 0 m.
Proof. intros Hm w. apply atMostPosted_quiet, Hm. Qed.

Lemma Spends_noCall {A : Type} (m : Async World A) :
  Keeps (journal noCall) m -> Spends 0 m.
Proof.
  intros Hm w. exists [].
  split; [ rewrite app_nil_r; apply journal_noCall, Hm | reflexivity ].
Qed.

Lemma Spends_ret {A : Type} (a : A) : Spends 0 (ret a).
Proof. apply Spends_quiet, Keeps_ret. exact _. Qed.

Lemma Spends_throw {A : Type} (error : string) :
  Spends 0 (@throw World A error).
Proof. apply Spends_quiet, Keeps_throw. exact _. Qed.

Lemma Spends_bind {A B : Type} (n k : nat) (m : Async World A)
    (f : A -> Async World B) :
  Spends n m -> (forall a, Spends k (f a)) -> Spends (n + k) (bind m f).
Proof.
  intros Hm Hf w. unfold bind. specialize (Hm w).
  destruct (m w) as [[a | error] w1]; cbn [snd] in Hm.
  - eapply atMostPosted_trans; [ exact Hm | apply Hf ].
  - destruct Hm as (new & H & L). exists new. split; [ exact H | lia ].
Qed.

Lemma Spends_try_catch {A : Type} (n k : nat) (m : Async World A)
    (h : string -> Async World A) :
  Spends n m -> (forall error, Spends k (h error)) ->
  Spends (n + k) (try_catch m h).
Proof.
  intros Hm Hh w. unfold try_catch. specialize (Hm w).
  destruct (m w) as [[a | error] w1]; cbn [snd] in Hm.
  - destruct Hm as (new & H & L). exists new. split; [ exact H | lia ].
  - eapply atMostPosted_trans; [ exact Hm | apply Hh ].
Qed.

Lemma Spends_forOf {A : Type} (n : nat) (l : list A)
    (body : A -> Async World unit) :
  (forall x, Spends n (body x)) -> Spends (length l * n) (forOf l body).
Proof.
  intros Hbody. induction l as [ | x l IH ]; cbn [forOf length Nat.mul].
  - apply Spends_ret.
  - apply Spends_bind; [ apply Hbody | intros _; exact IH ].
Qed.

Lemma Spends_uploadMedia (env : Env) (m : Media) :
  Spends 0 (uploadMedia env m).
Proof.
  intros w. unfold uploadMedia. cbn [snd twitter].
  eexists. split; [ reflexivity | reflexivity ].
Qed.

Lemma Spends_tweet (env : Env) (t : Tweet) : Spends 1 (tweet env t).
Proof.
  intros w. unfold tweet. cbn [snd twitter].
  eexists. split; [ reflexivity | ].
  cbn [List.filter tweetPosted]. destruct (isResolved _); cbn; lia.
Qed.

Lemma Spends_uploadNftImage (env : Env) (url : option string) :
  Spends 0 (uploadNftImage env url).
Proof.
  unfold uploadNftImage.
  destruct url as [address | ]; [ | apply Spends_ret ].
  destruct (truthyStr (Some address)); [ | apply Spends_ret ].
  apply (Spends_try_catch 0 0); [ | intros; apply Spends_ret ].
  apply (Spends_bind 0 0); [ apply Spends_quiet; keeps | intros _ ].
  apply (Spends_bind 0 0); [ apply Spends_uploadMedia | intros ].
  apply Spends_ret.
Qed.

(** The posting step: the second tweet is tried only when the first was
    refused, so at most one goes out. *)
Lemma Spends_tweetWithFallback (env : Env) (body : TweetText)
    (mediaIds : list string) :
  Spends 1 (tweetWithFallback env body mediaIds).
Proof.
  intros w. unfold tweetWithFallback, try_catch, tweet, ret.
  destruct (twitterTweet env (calls w)
              {| text := body; media_ids := mediaIds |}) as [ [] | error ].
  - eexists. split; [ reflexivity | cbn; lia ].
  - destruct (0 <? length mediaIds)%nat.
    + cbn [calls twitter].
      destruct (twitterTweet env (S (calls w))
                  {| text := body; media_ids := [] |}) as [ [] | error' ];
        (eexists; split; [ cbn [snd twitter]; rewrite <- app_assoc;
                           reflexivity | cbn; lia ]).
    + eexists. split; [ reflexivity | cbn; lia ].
Qed.

Lemma Spends_processSale_v2 (status : string -> string -> string)
    (env : Env) (sale : SaleEvent) :
  Spends 1 (processSale_v2 status env sale).
Proof.
  unfold processSale_v2.
  destruct (buyer sale) as [buyerAddress | ];
    [ | apply (Spends_weaken 0); [ lia | apply Spends_ret ] ].
  destruct (negb (truthyStr (Some buyerAddress)));
    [ apply (Spends_weaken 0); [ lia | apply Spends_ret ] | ].
  apply (Spends_bind 0 1); [ apply Spends_quiet; keeps | intros buyerCount ].
  apply (Spends_bind 0 1); [ apply Spends_quiet; keeps | intros sellerPair ].
  cbv zeta.
  destruct (nft sale) as [saleNft | ];
    [ | apply (Spends_weaken 0); [ lia | apply Spends_throw ] ].
  apply (Spends_try_catch 1 0); [ | intros; apply Spends_ret ].
  apply (Spends_bind 0 1); [ apply Spends_uploadNftImage | intros mediaIds ].
  apply (Spends_bind 1 0); [ apply Spends_tweetWithFallback | intros _ ].
  apply Spends_quiet. keeps.
Qed.

Lemma Spends_Draft1_processSale (env : Env) (sale : SaleEvent) :
  Spends 1 (Draft1.processSale env sale).
Proof.
  unfold Draft1.processSale.
  destruct (nft sale) as [saleNft | ];
    [ | apply (Spends_weaken 0); [ lia | apply Spends_throw ] ].
  apply (Spends_bind 0 1); [ apply Spends_quiet; keeps | intros buyerCount ].
  apply (Spends_bind 0 1); [ apply Spends_quiet; keeps | intros sellerPair ].
  cbv zeta.
  destruct (buyer sale) as [buyerAddress | ];
    [ | apply (Spends_weaken 0); [ lia | apply Spends_throw ] ].
  apply (Spends_bind 0 1); [ apply Spends_quiet; keeps | intros nftImageUrl ].
  apply (Spends_bind 0 1); [ apply Spends_quiet; keeps | intros card ].
  apply (Spends_try_catch 1 0); [ | intros; apply Spends_ret ].
  apply (Spends_bind 0 1); [ apply Spends_uploadMedia | intros cardUpload ].
  apply (Spends_bind 0 1); [ apply Spends_uploadNftImage | intros uploads ].
  apply (Spends_bind 1 0); [ apply Spends_tweet | intros _ ].
  apply (Spends_bind 0 0); [ | intros _; apply Spends_quiet; keeps ].
  destruct (asset_name sale); [ apply Spends_ret | apply Spends_throw ].
Qed.

Lemma Spends_updateLastFloorAlert (env : Env) :
  Spends 0 (updateLastFloorAlert env).
Proof. apply Spends_noCall. unfold updateLastFloorAlert. keeps. Qed.

Lemma Spends_floor_tail (env : Env) :
  Spends 0 (bind (updateLastFloorAlert env) (fun _ => sleep TWITTER_DELAY)).
Proof.
  apply (Spends_bind 0 0); [ apply Spends_updateLastFloorAlert | intros _ ].
  apply Spends_quiet. keeps.
Qed.

Lemma Spends_Draft1_postFloorAlert (env : Env) :
  Spends 1 (Draft1.postFloorAlert env).
Proof.
  unfold Draft1.postFloorAlert.
  apply (Spends_try_catch 1 0); [ | intros; apply Spends_ret ].
  apply (Spends_bind 0 1); [ apply Spends_quiet; keeps | intros floorNFT ].
  destruct floorNFT as [[floor | ] | ];
    try (apply (Spends_weaken 0); [ lia | apply Spends_ret ]).
  cbv zeta.
  apply (Spends_bind 0 1); [ apply Spends_quiet; keeps | intros nftImageUrl ].
  apply (Spends_bind 0 1);
    [ apply Spends_quiet; unfold Draft1.createFloorAlertImage; keeps
    | intros card ].
  apply (Spends_bind 0 1); [ apply Spends_uploadMedia | intros cardUpload ].
  apply (Spends_bind 1 0); [ apply Spends_tweet | intros _ ].
  apply Spends_floor_tail.
Qed.

Lemma Spends_Draft2_postFloorAlert (env : Env) :
  Spends 1 (Draft2.postFloorAlert env).
Proof.
  unfold Draft2.postFloorAlert.
  apply (Spends_try_catch 1 0); [ | intros; apply Spends_ret ].
  apply (Spends_bind 0 1); [ apply Spends_quiet; keeps | intros floorNFT ].
  destruct floorNFT as [[floor | ] | ];
    try (apply (Spends_weaken 0); [ lia | apply Spends_ret ]).
  cbv zeta.
  apply (Spends_bind 0 1); [ apply Spends_uploadNftImage | intros mediaIds ].
  apply (Spends_bind 1 0); [ apply Spends_tweetWithFallback | intros _ ].
  apply Spends_floor_tail.
Qed.

Lemma Spends_Draft3_postFloorAlert (env : Env) :
  Spends 1 (Draft3.postFloorAlert env).
Proof.
  unfold Draft3.postFloorAlert.
  apply (Spends_try_catch 1 0); [ | intros; apply Spends_ret ].
  apply (Spends_bind 0 1); [ apply Spends_quiet; keeps | intros floorNFT ].
  destruct floorNFT as [[floor | ] | ];
    try (apply (Spends_weaken 0); [ lia | apply Spends_ret ]).
  cbv zeta.
  apply (Spends_bind 0 1);
    [ apply Spends_quiet; unfold Draft3.getSellerNFTCount; keeps
    | intros sellerPair ].
  apply (Spends_bind 0 1); [ apply Spends_uploadNftImage | intros mediaIds ].
  apply (Spends_bind 1 0); [ apply Spends_tweetWithFallback | intros _ ].
  apply Spends_floor_tail.
Qed.

(** The loop over the batch posts at most one tweet per sale, and the
    batch has at most three sales. *)
Lemma Spends_batch (sales : list SaleEvent)
    (body : SaleEvent -> Async World unit) :
  (forall sale, Spends 1 (body sale)) ->
  Spends 3 (forOf (take 3 sales) body).
Proof.
  intros Hbody.
  apply (Spends_weaken (length (take 3 sales) * 1)).
  - rewrite length_take. lia.
  - apply Spends_forOf, Hbody.
Qed.

(** X30. A run posts at most three tweets in drafts 2 and 3, where the
    alert goes out on an empty batch only and each sale of the batch of
    three gets at most one tweet out, its retry without media included; in
    draft 1, where the alert can go out beside the batch, at most four. *)
Theorem run_posts_at_most_three (env : Env) (w : World) :
  (length (List.filter tweetPosted (newCalls w (snd (Draft2.runBot env w))))
   <= 3)%nat /\
  (length (List.filter tweetPosted (newCalls w (snd (Draft3.runBot env w))))
   <= 3)%nat /\
  (length (List.filter tweetPosted (newCalls w (snd (Draft1.runBot env w))))
   <= 4)%nat.
Proof.
  split; [ | split ]; apply atMostPosted_newCalls.
  - revert w. change (Spends 3 (Draft2.runBot env)). unfold Draft2.runBot.
    apply (Spends_try_catch 3 0); [ | intros; apply Spends_ret ].
    apply (Spends_bind 0 3); [ apply Spends_quiet; keeps | intros sales ].
    destruct sales as [sales | ];
      [ | apply (Spends_weaken 0); [ lia | apply Spends_throw ] ].
    apply (Spends_bind 0 3);
      [ apply Spends_quiet; unfold Draft2.shouldPostFloorAlert; keeps
      | intros due ].
    assert (Hupdate : Spends 0 (Draft2.updateLastCheckTime env))
      by (apply Spends_noCall, Keeps_noCall_overwrite).
    destruct sales as [ | sale sales ]; cbn [length Nat.eqb andb].
    + destruct due; cbn [negb andb];
        [ | apply (Spends_weaken 0); [ lia | exact Hupdate ] ].
      apply (Spends_weaken (1 + 0)); [ lia | ].
      apply Spends_bind;
        [ apply Spends_Draft2_postFloorAlert | intros _; exact Hupdate ].
    + rewrite andb_false_r.
      apply (Spends_bind 0 3); [ apply Spends_ret | intros _ ].
      apply (Spends_bind 3 0); [ | intros _; exact Hupdate ].
      apply Spends_batch. intros s. apply Spends_processSale_v2.
  - revert w. change (Spends 3 (Draft3.runBot env)). unfold Draft3.runBot.
    apply (Spends_try_catch 3 0); [ | intros; apply Spends_ret ].
    apply (Spends_bind 0 3); [ apply Spends_quiet; keeps | intros sales ].
    destruct sales as [sales | ];
      [ | apply (Spends_weaken 0); [ lia | apply Spends_throw ] ].
    apply (Spends_bind 0 3);
      [ apply Spends_quiet; unfold Draft3.shouldPostFloorAlert; keeps
      | intros due ].
    assert (Hupdate : Spends 0 (Draft3.updateLastCheckTime env))
      by (apply Spends_noCall, Keeps_noCall_Draft3_updateLastCheckTime).
    destruct sales as [ | sale sales ]; cbn [length Nat.eqb andb].
    + destruct due; cbn [negb andb];
        [ | apply (Spends_weaken 0); [ lia | exact Hupdate ] ].
      apply (Spends_weaken (1 + 0)); [ lia | ].
      apply Spends_bind;
        [ apply Spends_Draft3_postFloorAlert | intros _; exact Hupdate ].
    + rewrite andb_false_r.
      apply (Spends_bind 0 3); [ apply Spends_ret | intros _ ].
      apply (Spends_bind 3 0); [ | intros _; exact Hupdate ].
      apply Spends_batch. intros s. apply Spends_processSale_v2.
  - revert w. change (Spends 4 (Draft1.runBot env)). unfold Draft1.runBot.
    apply (Spends_try_catch 4 0); [ | intros; apply Spends_ret ].
    apply (Spends_bind 0 4); [ apply Spends_quiet; keeps | intros sales ].
    destruct sales as [sales | ];
      [ | apply (Spends_weaken 0); [ lia | apply Spends_throw ] ].
    apply (Spends_bind 0 4);
      [ apply Spends_quiet; unfold Draft1.shouldPostFloorAlert; keeps
      | intros due ].
    assert (Hupdate : Spends 0 (Draft1.updateLastCheckTime env))
      by (apply Spends_noCall, Keeps_noCall_overwrite).
    destruct ((length sales =? 0)%nat && negb due);
      [ apply (Spends_weaken 0); [ lia | exact Hupdate ] | ].
    apply (Spends_bind 1 3).
    + destruct due;
        [ apply Spends_Draft1_postFloorAlert
        | apply (Spends_weaken 0); [ lia | apply Spends_ret ] ].
    + intros _. destruct (length sales =? 0)%nat;
        [ apply (Spends_weaken 0); [ lia | exact Hupdate ] | ].
      apply (Spends_bind 3 0); [ | intros _; exact Hupdate ].
      apply Spends_batch. intros s. apply Spends_Draft1_processSale.
Qed.
